(** * BioActivityGraph: data loading, classification tables, scales, binning
      and layout of the bioactivity chart.

    The development embeds the chart engine of [BioActivityGraph] (class
    version 2.0, which keeps its colour and shape tables in JavaScript [Map]s,
    and class version 1.1, which keeps them in plain objects) together with
    the parts of d3 the engine calls (band scale, logarithmic [nice], [bin],
    [rollup]).

    Numbers are JavaScript numbers over rationals: [NaN], the two
    infinities and the finite values. Minimum, maximum, comparison, sums,
    quotients and the powers of ten are taken without rounding, and zero
    carries no sign; the one rounded operation the chart depends on, the
    decimal logarithm, is a parameter. Calls that may throw
    return a [completion]; calls that draw random numbers thread the index
    of the next draw. The page is not modelled: what the code reads from it
    (the check boxes, the selections of the dialog, the key of a clicked
    row) is an argument, and drawing, which only reads the state, is left
    out. The decimal logarithm of the engine ([Math.log10], which the
    language leaves to the implementation and which is rounded), the map of
    the logarithmic scale and its ticks are parameters of the chart: what
    is proved holds for every logarithm, and what needs the logarithm to
    put a number in its decade says so. *)

From Stdlib Require Import List String Ascii Bool Arith ZArith QArith Qround Lia Lqa.
Import ListNotations.
Local Open Scope string_scope.

(** ** JavaScript values *)

Module JS.

(** A JavaScript number. *)
Inductive number : Type :=
| NaN
| NegInf
| PosInf
| Fin (q : Q).

(** The values a point property can hold: [undefined], [null], a number
    or a string (the query results carry nothing else). *)
Inductive jsval : Type :=
| undefined
| null
| Num (n : number)
| Str (s : string).

(** Abrupt completion of a call. *)
Inductive error : Type :=
| TypeError (msg : string)
| RangeError (msg : string).

Inductive completion (A : Type) : Type :=
| Normal (a : A)
| Throw (e : error).
Arguments Normal {A} a.
Arguments Throw {A} e.

Definition bind {A B} (c : completion A) (k : A -> completion B) : completion B :=
  match c with
  | Normal a => k a
  | Throw e => Throw e
  end.

(** [a.forEach(f)] where [f] pushes onto an accumulator and may throw. *)
Fixpoint forEach {A S} (f : S -> A -> completion S) (l : list A) (s : S) : completion S :=
  match l with
  | [] => Normal s
  | a :: l' => bind (f s a) (forEach f l')
  end.

(** *** Arithmetic and comparison on numbers *)

Definition lt (a b : number) : bool :=
  match a, b with
  | NaN, _ | _, NaN => false
  | NegInf, NegInf => false
  | NegInf, _ => true
  | PosInf, _ => false
  | Fin _, NegInf => false
  | Fin _, PosInf => true
  | Fin x, Fin y => negb (Qle_bool y x)
  end.

Definition le (a b : number) : bool :=
  match a, b with
  | NaN, _ | _, NaN => false
  | NegInf, _ => true
  | PosInf, PosInf => true
  | PosInf, _ => false
  | Fin _, NegInf => false
  | Fin _, PosInf => true
  | Fin x, Fin y => Qle_bool x y
  end.

Definition Math_min (a b : number) : number :=
  match a, b with
  | NaN, _ | _, NaN => NaN
  | _, _ => if lt b a then b else a
  end.

Definition Math_max (a b : number) : number :=
  match a, b with
  | NaN, _ | _, NaN => NaN
  | _, _ => if lt a b then b else a
  end.

Definition neg (a : number) : number :=
  match a with
  | NaN => NaN
  | NegInf => PosInf
  | PosInf => NegInf
  | Fin q => Fin (- q)
  end.

Definition add (a b : number) : number :=
  match a, b with
  | NaN, _ | _, NaN => NaN
  | PosInf, NegInf | NegInf, PosInf => NaN
  | PosInf, _ | _, PosInf => PosInf
  | NegInf, _ | _, NegInf => NegInf
  | Fin x, Fin y => Fin (x + y)
  end.

Definition sub (a b : number) : number := add a (neg b).

(** Sign of a finite or infinite number: [Lt], [Eq] (zero) or [Gt]. *)
Definition sign (a : number) : option comparison :=
  match a with
  | NaN => None
  | NegInf => Some Lt
  | PosInf => Some Gt
  | Fin q => Some (q ?= 0)%Q
  end.

Definition mul (a b : number) : number :=
  match a, b with
  | Fin x, Fin y => Fin (x * y)
  | _, _ =>
      match sign a, sign b with
      | Some Eq, _ | _, Some Eq => NaN
      | Some Lt, Some Lt | Some Gt, Some Gt => PosInf
      | Some Lt, Some Gt | Some Gt, Some Lt => NegInf
      | _, _ => NaN
      end
  end.

(** Division; a zero divisor is taken as [+0]. *)
Definition div (a b : number) : number :=
  match a, b with
  | NaN, _ | _, NaN => NaN
  | Fin x, Fin y =>
      if Qeq_bool y 0 then
        match (0 ?= x)%Q with
        | Eq => NaN
        | Lt => PosInf
        | Gt => NegInf
        end
      else Fin (x / y)
  | Fin _, _ => Fin 0
  | _, Fin y => match a, (y ?= 0)%Q with
                | PosInf, Lt => NegInf
                | PosInf, _ => PosInf
                | _, Lt => PosInf
                | _, _ => NegInf
                end
  | _, _ => NaN
  end.

(** [x + y] where [x] may be [undefined] (an unknown key of an ordinal
    scale): [undefined] converts to [NaN]. *)
Definition ToNumber (v : option number) : number :=
  match v with
  | Some n => n
  | None => NaN
  end.

(** *** [Array.prototype.includes] with a string argument

    [includes] compares with SameValueZero: a string equals only a string
    with the same characters, never a number or [undefined]. *)
Definition same_string (c : string) (v : jsval) : bool :=
  match v with
  | Str s => String.eqb s c
  | _ => false
  end.

Definition includes (vs : list jsval) (c : string) : bool :=
  existsb (same_string c) vs.

(** *** [Map] with string keys, in insertion order *)

Definition Map (V : Type) : Type := list (string * V).

Definition Map_keys {V} (m : Map V) : list string := map fst m.

Definition Map_size {V} (m : Map V) : nat := List.length m.

Fixpoint Map_get {V} (m : Map V) (k : string) : option V :=
  match m with
  | [] => None
  | (k', v) :: m' => if String.eqb k' k then Some v else Map_get m' k
  end.

Definition Map_has {V} (m : Map V) (k : string) : bool :=
  match Map_get m k with
  | Some _ => true
  | None => false
  end.

(** [m.set(k, v)]: an existing key keeps its place, a new key goes last. *)
Fixpoint Map_set {V} (m : Map V) (k : string) (v : V) : Map V :=
  match m with
  | [] => [(k, v)]
  | (k', v') :: m' =>
      if String.eqb k' k then (k', v) :: m' else (k', v') :: Map_set m' k v
  end.

(** [m.delete(k)]. *)
Fixpoint Map_delete {V} (m : Map V) (k : string) : Map V :=
  match m with
  | [] => []
  | (k', v') :: m' =>
      if String.eqb k' k then m' else (k', v') :: Map_delete m' k
  end.

(** A property read [m.get(k)] seen as a JavaScript value. *)
Definition get_value (m : Map string) (k : string) : jsval :=
  match Map_get m k with
  | Some s => Str s
  | None => undefined
  end.

(** *** [Math.random]

    A computation that draws random numbers threads the index of the next
    draw; [random i] is the result of the [i]-th call. *)

Definition rnd (A : Type) : Type := nat -> A * nat.

Definition Math_random (random : nat -> Q) : rnd number :=
  fun i => (Fin (random i), S i).

Definition ret {A} (a : A) : rnd A := fun i => (a, i).

Definition rbind {A B} (c : rnd A) (k : A -> rnd B) : rnd B :=
  fun i => let '(a, j) := c i in k a j.

(** [array.map(f)] where [f] draws random numbers. *)
Fixpoint mapM {A B} (f : A -> rnd B) (l : list A) : rnd (list B) :=
  match l with
  | [] => ret []
  | a :: l' => rbind (f a) (fun b => rbind (mapM f l') (fun bs => ret (b :: bs)))
  end.

End JS.

(** ** The d3 functions the chart calls *)

Module D3.
Import JS.

(** *** Ordinal domains and [scaleBand] *)

(** [scale.domain(labels)] keeps the first occurrence of every label. *)
Fixpoint uniq (seen : list string) (l : list string) : list string :=
  match l with
  | [] => []
  | x :: l' =>
      if existsb (String.eqb x) seen then uniq seen l'
      else x :: uniq (x :: seen) l'
  end.

Fixpoint index_of (k : string) (l : list string) : option nat :=
  match l with
  | [] => None
  | x :: l' =>
      if String.eqb x k then Some O
      else option_map S (index_of k l')
  end.

(** [d3.scaleBand().domain(d).range([r0, r1]).padding(p)]; [padding] sets
    the inner and the outer padding, the alignment stays 0.5, no rounding. *)
Record scaleBand : Type := mkBand {
  band_domain : list string;
  band_range : Q * Q;
  band_padding : Q
}.

Definition Qmax1 (x : Q) : Q := if Qle_bool 1 x then x else 1.

Definition band_n (s : scaleBand) : Q := inject_Z (Z.of_nat (List.length (band_domain s))).

Definition band_reverse (s : scaleBand) : bool :=
  negb (Qle_bool (fst (band_range s)) (snd (band_range s))).

Definition band_lo (s : scaleBand) : Q :=
  if band_reverse s then snd (band_range s) else fst (band_range s).

Definition band_hi (s : scaleBand) : Q :=
  if band_reverse s then fst (band_range s) else snd (band_range s).

(** [step = (stop - start) / Math.max(1, n - paddingInner + paddingOuter * 2)]. *)
Definition band_step (s : scaleBand) : Q :=
  (band_hi s - band_lo s)
  / Qmax1 (band_n s - band_padding s + band_padding s * 2).

(** [start += (stop - start - step * (n - paddingInner)) * align]. *)
Definition band_start (s : scaleBand) : Q :=
  band_lo s
  + (band_hi s - band_lo s - band_step s * (band_n s - band_padding s)) * (1 # 2).

(** [scale.bandwidth()]: [step * (1 - paddingInner)]. *)
Definition bandwidth (s : scaleBand) : number :=
  Fin (band_step s * (1 - band_padding s)).

(** [scale(label)]: the start of the label's band, [undefined] ([None])
    for a label outside the domain. *)
Definition band_apply (s : scaleBand) (label : string) : option number :=
  match index_of label (band_domain s) with
  | None => None
  | Some i =>
      let n := List.length (band_domain s) in
      let j := if band_reverse s then (n - 1 - i)%nat else i in
      Some (Fin (band_start s + band_step s * inject_Z (Z.of_nat j)))
  end.

Definition scaleBand_make (labels : list string) (range : Q * Q) (padding : Q) : scaleBand :=
  mkBand (uniq [] labels) range padding.

(** *** Logarithmic scale: domain and [nice] *)

(** Integer powers of ten: d3 reads them as decimal literals,
    [+("1e" + k)], and the number a literal denotes is taken as such. *)
Definition pow10Q (k : Z) : Q :=
  if (0 <=? k)%Z then inject_Z (10 ^ k) else Qmake 1 (Z.to_pos (10 ^ (- k))).

(** The result of [Math.floor] or [Math.ceil] on a logarithm. *)
Inductive exponent : Type :=
| ENaN
| ENegInf
| EPosInf
| EInt (k : Z).

Definition eneg (e : exponent) : exponent :=
  match e with
  | ENaN => ENaN
  | ENegInf => EPosInf
  | EPosInf => ENegInf
  | EInt k => EInt (- k)
  end.

Section Log.

(** [Math.log10] on the positive finite numbers: the result the engine
    returns, a rounded logarithm. Its values at zero, below zero and at
    the infinities are fixed by the language and written out below. *)
Variable Math_log10 : Q -> Q.

(** [Math.floor(Math.log10(x))]. *)
Definition floor_log10 (x : number) : exponent :=
  match x with
  | NaN | NegInf => ENaN
  | PosInf => EPosInf
  | Fin q =>
      match (q ?= 0)%Q with
      | Lt => ENaN
      | Eq => ENegInf
      | Gt => EInt (Qfloor (Math_log10 q))
      end
  end.

(** [Math.ceil(Math.log10(x))]. *)
Definition ceil_log10 (x : number) : exponent :=
  match x with
  | NaN | NegInf => ENaN
  | PosInf => EPosInf
  | Fin q =>
      match (q ?= 0)%Q with
      | Lt => ENaN
      | Eq => ENegInf
      | Gt => EInt (Qceiling (Math_log10 q))
      end
  end.

End Log.

(** [pow10(x)]: [isFinite(x) ? +("1e" + x) : x < 0 ? 0 : x]. *)
Definition pow10 (e : exponent) : number :=
  match e with
  | ENaN => NaN
  | ENegInf => Fin 0
  | EPosInf => PosInf
  | EInt k => Fin (pow10Q k)
  end.

(** A logarithmic scale in base ten. [log_reflect] records whether
    [rescale] installed the reflected logarithm ([domain()[0] < 0]). *)
Record scaleLog : Type := mkLog {
  log_domain : number * number;
  log_range : number * number;
  log_reflect : bool
}.

(** [d3.scaleLog().domain([d0, d1])]. *)
Definition scaleLog_domain (d : number * number) (s : scaleLog) : scaleLog :=
  mkLog d (log_range s) (lt (fst d) (Fin 0)).

Definition scaleLog_range (r : number * number) (s : scaleLog) : scaleLog :=
  mkLog (log_domain s) r (log_reflect s).

(** The default scale: domain [[1, 10]], range [[0, 1]]. *)
Definition scaleLog_default : scaleLog :=
  mkLog (Fin 1, Fin 10) (Fin 0, Fin 1) false.

Section Nice.

Variable Math_log10 : Q -> Q.

(** [x => pows(Math.floor(logs(x)))]; with the reflected logarithm
    [logs(x)] is [-log10(-x)] and [pows(x)] is [-pow10(-x)], and the
    floor of an opposite is the opposite of the ceiling. *)
Definition nice_floor (reflect : bool) (x : number) : number :=
  if reflect
  then neg (pow10 (eneg (eneg (ceil_log10 Math_log10 (neg x)))))
  else pow10 (floor_log10 Math_log10 x).

(** [x => pows(Math.ceil(logs(x)))]. *)
Definition nice_ceil (reflect : bool) (x : number) : number :=
  if reflect
  then neg (pow10 (eneg (eneg (floor_log10 Math_log10 (neg x)))))
  else pow10 (ceil_log10 Math_log10 x).

(** [nice(domain, interval)] of d3-scale: the lower end is floored and the
    upper end is ceiled, wherever they stand in the array. *)
Definition nice_interval (floor ceil : number -> number) (d : number * number)
  : number * number :=
  let '(d0, d1) := d in
  if lt d1 d0 then (ceil d0, floor d1) else (floor d0, ceil d1).

(** [scale.nice()]. *)
Definition scaleLog_nice (s : scaleLog) : scaleLog :=
  mkLog (nice_interval (nice_floor (log_reflect s)) (nice_ceil (log_reflect s))
                       (log_domain s))
        (log_range s) (log_reflect s).

End Nice.

(** *** [d3.bisectRight], [d3.bin] and [d3.rollup] *)

(** The loop of [bisectRight(a, x, lo, hi)]: [compare(a[mid], x) <= 0]
    moves [lo] past [mid], anything else (a greater or an incomparable
    element) moves [hi] down to [mid]. *)
Fixpoint bisect_loop (fuel : nat) (a : list number) (x : number) (lo hi : nat) : nat :=
  match fuel with
  | O => lo
  | S f =>
      if (lo <? hi)%nat then
        let mid := Nat.div2 (lo + hi) in
        if le (nth mid a NaN) x
        then bisect_loop f a x (S mid) hi
        else bisect_loop f a x lo mid
      else lo
  end.

Definition is_NaN (x : number) : bool :=
  match x with
  | NaN => true
  | _ => false
  end.

(** [bisectRight(a, x, lo, hi)]; bounds are integers, [hi] may be below [lo]. *)
Definition bisectRight (a : list number) (x : number) (lo hi : Z) : Z :=
  if (lo <? hi)%Z then
    if is_NaN x then hi
    else Z.of_nat (bisect_loop (Z.to_nat hi) a x (Z.to_nat lo) (Z.to_nat hi))
  else lo.

(** A bin: an array of the values it received, with the bounds [x0], [x1]. *)
Record Bin : Type := mkBin {
  x0 : number;
  x1 : number;
  contents : list number
}.

(** [while (tz[a] <= x0) ++a]: the number of leading thresholds at or
    below the lower bound. *)
Fixpoint leading (x0 : number) (tz : list number) : nat :=
  match tz with
  | [] => O
  | t :: tz' => if le t x0 then S (leading x0 tz') else O
  end.

(** The number of leading elements above [x1]. *)
Fixpoint above (x1 : number) (l : list number) : nat :=
  match l with
  | [] => O
  | t :: l' => if lt x1 t then S (above x1 l') else O
  end.

(** [while (tz[b - 1] > x1) --b]: the number of trailing thresholds above
    the upper bound. *)
Definition trailing (x1 : number) (tz : list number) : nat :=
  above x1 (rev tz).

(** [tz.slice(a, b)]. *)
Definition slice {A} (a b : nat) (l : list A) : list A :=
  firstn (b - a) (skipn a l).

(** The bounds of bin [i] among [m + 1] bins. *)
Definition init_bin (x0 x1 : number) (tz : list number) (m i : nat) : Bin :=
  mkBin (if (0 <? i)%nat then nth (i - 1) tz NaN else x0)
        (if (i <? m)%nat then nth i tz NaN else x1)
        [].

(** [bins[i].push(x)]; a missing bin makes the call throw. *)
Fixpoint push_at (bins : list Bin) (i : nat) (x : number) : completion (list Bin) :=
  match bins, i with
  | [], _ => Throw (TypeError "Cannot read properties of undefined (reading 'push')")
  | b :: bins', O => Normal (mkBin (x0 b) (x1 b) (contents b ++ [x])%list :: bins')
  | b :: bins', S i' => bind (push_at bins' i' x) (fun r => Normal (b :: r))
  end.

(** The generator [d3.bin().domain([x0, x1]).thresholds(tz).value(d => d)]
    applied to an array of numbers. Thresholds outside the domain are
    dropped, the bins are initialised, and every value inside the domain
    goes to the bin [bisect] names; values outside the domain are ignored. *)
Definition histogram (dom : number * number) (thresholds : list number)
           (data : list number) : completion (list Bin) :=
  let '(x0, x1) := dom in
  let m := List.length thresholds in
  let a := leading x0 thresholds in
  let b := (m - trailing x1 thresholds)%nat in
  let trimmed := negb ((a =? 0)%nat && negb (b <? m)%nat) in
  let tz := if trimmed then slice a b thresholds else thresholds in
  let m' := if trimmed then (Z.of_nat b - Z.of_nat a)%Z else Z.of_nat m in
  if (m' + 1 <? 0)%Z then Throw (RangeError "Invalid array length")
  else
    let bins := map (init_bin x0 x1 tz (Z.to_nat m')) (seq 0 (Z.to_nat (m' + 1))) in
    forEach (fun bins x =>
               if le x0 x && le x x1
               then push_at bins (Z.to_nat (bisectRight tz x 0 m')) x
               else Normal bins)
            data bins.

(** [groups.get(key)] then [push] or [set]: groups in first-seen order. *)
Fixpoint group_add {A} (k : string) (v : A) (groups : Map (list A)) : Map (list A) :=
  match groups with
  | [] => [(k, [v])]
  | (k', vs) :: groups' =>
      if String.eqb k' k then (k', (vs ++ [v])%list) :: groups'
      else (k', vs) :: group_add k v groups'
  end.

Definition group {A} (values : list A) (key : A -> string) : Map (list A) :=
  fold_left (fun groups v => group_add (key v) v groups) values [].

(** What [groups.get(key)] finds for a list of values with that key: no
    entry for the empty list. *)
Definition nonempty {A} (l : list A) : option (list A) :=
  match l with
  | [] => None
  | _ :: _ => Some l
  end.

(** [d3.rollup(values, reduce, key)] with a reducer that may throw. *)
Fixpoint rollup_groups {A B} (reduce : list A -> completion B) (groups : Map (list A))
  : completion (Map B) :=
  match groups with
  | [] => Normal []
  | (k, vs) :: groups' =>
      bind (reduce vs) (fun r =>
      bind (rollup_groups reduce groups') (fun rest =>
      Normal ((k, r) :: rest)))
  end.

Definition rollup {A B} (values : list A) (reduce : list A -> completion B)
           (key : A -> string) : completion (Map B) :=
  rollup_groups reduce (group values key).

End D3.

(** ** The query result and the points *)

(** The object returned by the query:
    [{ name, targetProteins: [{ protein: { symbol, primaryAccession,
    organism?: { name } }, activities: [{ type, conc, relation, unit }] }] }]. *)
Module Input.
Import JS.

Record Organism : Type := mkOrganism {
  name : jsval
}.

(** [organism] is [None] when the query did not return the property. *)
Record Protein : Type := mkProtein {
  symbol : jsval;
  primaryAccession : jsval;
  organism : option Organism
}.

Record Activity : Type := mkActivity {
  type : string;
  conc : number;
  relation : jsval;
  unit : jsval
}.

Record TargetProtein : Type := mkTargetProtein {
  protein : Protein;
  activities : list Activity
}.

Record ChemblCompound : Type := mkChemblCompound {
  compound_name : jsval;
  targetProteins : list TargetProtein
}.

End Input.

(** A point of the chart. The properties [x], [y], [color] and [shape] do
    not exist until they are first assigned ([None]); [organism] exists only
    on the points of class version 2.0. *)
Module Point.
Import JS.

Record t : Type := mk {
  symbol : jsval;
  primaryAccession : jsval;
  organism : option jsval;
  value : number;
  type : string;
  unit : jsval;
  x : option number;
  y : option number;
  color : option jsval;
  shape : option jsval
}.

Definition set_x (v : number) (p : t) : t :=
  mk (symbol p) (primaryAccession p) (organism p) (value p) (type p) (unit p)
     (Some v) (y p) (color p) (shape p).

Definition set_y (v : number) (p : t) : t :=
  mk (symbol p) (primaryAccession p) (organism p) (value p) (type p) (unit p)
     (x p) (Some v) (color p) (shape p).

Definition set_color (v : jsval) (p : t) : t :=
  mk (symbol p) (primaryAccession p) (organism p) (value p) (type p) (unit p)
     (x p) (y p) (Some v) (shape p).

Definition set_shape (v : jsval) (p : t) : t :=
  mk (symbol p) (primaryAccession p) (organism p) (value p) (type p) (unit p)
     (x p) (y p) (color p) (Some v).

Definition own {A} (f : A -> jsval) (o : option A) : list jsval :=
  match o with
  | Some a => [f a]
  | None => []
  end.

(** [Object.values(p)]: the values of the own properties, in creation
    order. *)
Definition Object_values (p : t) : list jsval :=
  ([symbol p; primaryAccession p] ++ own id (organism p)
   ++ [Num (value p); Str (type p); unit p]
   ++ own Num (x p) ++ own Num (y p) ++ own id (color p) ++ own id (shape p))%list.

End Point.

(** ** Class version 2.0: tables kept in [Map]s *)

Module BioActivityGraph.
Import JS D3.

(** The chart instance once it is initialised. *)
Record state : Type := mkState {
  _data : list Point.t;
  _xAxis : scaleBand;
  _yAxis : scaleLog;
  _bins : option (Map (list Bin));
  _colors : Map string;
  _shapes : Map string
}.

Definition _width : Q := 400.
Definition _height : Q := 400.
Definition margin_top : Q := 40.
Definition margin_right : Q := 40.
Definition margin_bottom : Q := 40.
Definition margin_left : Q := 40.

Definition set_data (d : list Point.t) (s : state) : state :=
  mkState d (_xAxis s) (_yAxis s) (_bins s) (_colors s) (_shapes s).

Definition set_bins (b : Map (list Bin)) (s : state) : state :=
  mkState (_data s) (_xAxis s) (_yAxis s) (Some b) (_colors s) (_shapes s).

Definition set_colors (c : Map string) (s : state) : state :=
  mkState (_data s) (_xAxis s) (_yAxis s) (_bins s) c (_shapes s).

Definition set_shapes (c : Map string) (s : state) : state :=
  mkState (_data s) (_xAxis s) (_yAxis s) (_bins s) (_colors s) c.

(** The body of the inner loop of [loadData]: the point literal, whose
    read [p.protein.organism.name] throws when [organism] is missing, then
    [points.push(point)]. *)
Definition pushPoint (p : Input.TargetProtein) (points : list Point.t) (a : Input.Activity)
  : completion (list Point.t) :=
  match Input.organism (Input.protein p) with
  | None =>
      Throw (TypeError "Cannot read properties of undefined (reading 'name')")
  | Some o =>
      Normal (points ++ [Point.mk (Input.symbol (Input.protein p))
                                  (Input.primaryAccession (Input.protein p))
                                  (Some (Input.name o))
                                  (Input.conc a)
                                  (Input.type a)
                                  (Input.unit a)
                                  None None None None])%list
  end.

(** The body of the outer loop: [p.activities.forEach(...)]. *)
Definition pushProtein (points : list Point.t) (p : Input.TargetProtein)
  : completion (list Point.t) :=
  forEach (pushPoint p) (Input.activities p) points.

(** [loadData(proteins)]: one point per activity of every protein. *)
Definition loadData (proteins : list Input.TargetProtein) : completion (list Point.t) :=
  forEach pushProtein proteins [].

(** [initXAxis()]: a band scale over the distinct types, first seen first. *)
Definition initXAxis (data : list Point.t) : scaleBand :=
  scaleBand_make (map Point.type data)
                 (0, _width - margin_left - margin_right) (5 # 100).

(** The reduction of [initYAxis]: the least and the greatest value. *)
Definition min_max (data : list Point.t) : number * number :=
  fold_left (fun p c => (Math_min (Point.value c) (fst p),
                         Math_max (Point.value c) (snd p)))
            data (PosInf, NegInf).

(** [initYAxis()]: the niced logarithmic scale over [[min, max]]. *)
Definition initYAxis (Math_log10 : Q -> Q) (data : list Point.t) : scaleLog :=
  scaleLog_nice Math_log10
    (scaleLog_range (Fin (_height - margin_bottom), Fin margin_top)
       (scaleLog_domain (min_max data) scaleLog_default)).

(** Colour of one point: the callback of [updatePointColors]. The point is
    first given the colour stored under ['Default']; then the keys of the
    table are tried in order against [Object.values(p)], and the first key
    found there gives the colour. *)
Fixpoint some_color (colors : Map string) (keys : list string) (p : Point.t) : Point.t :=
  match keys with
  | [] => p
  | c :: keys' =>
      if includes (Point.Object_values p) c
      then Point.set_color (get_value colors c) p
      else some_color colors keys' p
  end.

Definition pointColor (colors : Map string) (p : Point.t) : Point.t :=
  some_color colors (Map_keys colors)
             (Point.set_color (get_value colors "Default") p).

Definition updatePointColors (s : state) : state :=
  set_data (map (pointColor (_colors s)) (_data s)) s.

(** Shape of one point: the callback of [updatePointShapes]. *)
Fixpoint some_shape (shapes : Map string) (keys : list string) (p : Point.t) : Point.t :=
  match keys with
  | [] => p
  | c :: keys' =>
      if includes (Point.Object_values p) c
      then Point.set_shape (get_value shapes c) p
      else some_shape shapes keys' p
  end.

Definition pointShape (shapes : Map string) (p : Point.t) : Point.t :=
  some_shape shapes (Map_keys shapes)
             (Point.set_shape (get_value shapes "Default") p).

Definition updatePointShapes (s : state) : state :=
  set_data (map (pointShape (_shapes s)) (_data s)) s.

(** The two check boxes read by [updatePointPositions]. *)
Record controls : Type := mkControls {
  cb_jitter : bool;
  cb_violin : bool
}.

Section Chart.

(** The logarithm of the engine, the map of a logarithmic scale and its
    ticks are transcendental functions; the chart is parametric in them. *)
Variable Math_log10 : Q -> Q.
Variable scaleLog_apply : scaleLog -> number -> number.
Variable scaleLog_ticks : scaleLog -> nat -> list number.

(** The successive results of [Math.random()], each in [[0, 1)]. *)
Variable random : nat -> Q.

(** The offset [dx] of one point. *)
Definition offset (jitter violin : bool) (xwidth : number) : rnd number :=
  if jitter && violin then
    rbind (Math_random random) (fun r => ret (sub (mul (Fin 2) xwidth) (mul xwidth r)))
  else if jitter then
    rbind (Math_random random) (fun r => ret (add xwidth (mul (mul xwidth (Fin 2)) r)))
  else ret (mul (Fin 2) xwidth).

Definition positionPoint (jitter violin : bool) (X : scaleBand) (Y : scaleLog)
           (xwidth : number) (d : Point.t) : rnd Point.t :=
  rbind (offset jitter violin xwidth) (fun dx =>
  ret (Point.set_y (scaleLog_apply Y (Point.value d))
         (Point.set_x (add (ToNumber (band_apply X (Point.type d))) dx) d))).

(** [updatePointPositions()]. *)
Definition updatePointPositions (c : controls) (s : state) : rnd state :=
  let X := _xAxis s in
  let xwidth := div (bandwidth X) (Fin 4) in
  let Y := _yAxis s in
  rbind (mapM (positionPoint (cb_jitter c) (cb_violin c) X Y xwidth) (_data s))
        (fun data => ret (set_data data s)).

(** [initHistogramBins(nBins)]: the values of every type, binned between
    the ticks of the vertical scale. *)
Definition initHistogramBins (nBins : nat) (s : state) : completion state :=
  let histogram :=
    histogram (log_domain (_yAxis s)) (scaleLog_ticks (_yAxis s) nBins) in
  bind (rollup (_data s)
               (fun p => histogram (map Point.value p))
               Point.type)
       (fun bins => Normal (set_bins bins s)).

(** [new BioActivityGraph(chemblObj)]: [None] is the instance left
    without fields when there is nothing to display. Drawing is not
    modelled: it reads the state and writes the page. *)
Definition constructor (chemblObj : option Input.ChemblCompound) (c : controls)
  : rnd (completion (option state)) :=
  match chemblObj with
  | None => ret (Normal None)
  | Some obj =>
      match Input.targetProteins obj with
      | [] => ret (Normal None)
      | proteins =>
          match loadData proteins with
          | Throw e => ret (Throw e)
          | Normal data =>
              let s := mkState data (initXAxis data) (initYAxis Math_log10 data) None
                               [("Default", "#C0C0C0")] [("Default", "Circle")] in
              rbind (updatePointPositions c s) (fun s =>
              let s := updatePointColors s in
              let s := updatePointShapes s in
              ret (bind (initHistogramBins 10 s) (fun s => Normal (Some s))))
          end
      end
  end.

End Chart.

(** [modalOK()]. The page gives the kind of the dialog ([type]), the
    checked value ([val]) and the chosen colour or shape ([upd]); reading
    the value of an empty selection throws. *)
Definition modalOK (type : string) (val upd : option string) (s : state)
  : completion state :=
  match val with
  | None => Throw (TypeError "Cannot read properties of null (reading 'value')")
  | Some val =>
      match upd with
      | None => Throw (TypeError "Cannot read properties of null (reading 'value')")
      | Some upd =>
          if String.eqb type "Color"
          then Normal (updatePointColors (set_colors (Map_set (_colors s) val upd) s))
          else Normal (updatePointShapes (set_shapes (Map_set (_shapes s) val upd) s))
      end
  end.

(** The click handler of a row of the colour table, installed by
    [updateTableColor]; [key] is the row's [data-key]. *)
Definition colorRowClose (key : string) (s : state) : completion state :=
  if String.eqb key "Default" then Normal s
  else Normal (updatePointColors (set_colors (Map_delete (_colors s) key) s)).

(** The click handler of a row of the shape table, installed by
    [updateTableShape]. *)
Definition shapeRowClose (key : string) (s : state) : completion state :=
  if String.eqb key "Default" then Normal s
  else Normal (updatePointShapes (set_shapes (Map_delete (_shapes s) key) s)).

(** The events of the page that edit a table. *)
Inductive event : Type :=
| ModalOK (type : string) (val upd : option string)
| ColorRowClose (key : string)
| ShapeRowClose (key : string).

Definition handler (e : event) (s : state) : completion state :=
  match e with
  | ModalOK type val upd => modalOK type val upd s
  | ColorRowClose key => colorRowClose key s
  | ShapeRowClose key => shapeRowClose key s
  end.

(** An exception thrown by a handler is not caught: the chart stays as
    the handler left it, and [modalOK] throws before it writes anything. *)
Definition dispatch (s : state) (e : event) : state :=
  match handler e s with
  | Normal s' => s'
  | Throw _ => s
  end.

(** The chart after a sequence of events. *)
Definition run (events : list event) (s : state) : state :=
  fold_left dispatch events s.

End BioActivityGraph.

(** ** Class version 1.1: tables kept in plain objects *)

Module BioActivityGraphV1.
Import JS D3.

(** *** Plain objects with string values

    The own properties are kept in creation order; [Object.keys] lists
    the array indices first, in ascending order, then the other names in
    creation order. *)

Definition Obj : Type := list (string * string).

Definition digit (c : ascii) : option N :=
  let n := N_of_ascii c in
  if ((48 <=? n) && (n <=? 57))%N then Some (n - 48)%N else None.

Fixpoint parse_digits (s : string) (acc : N) : option N :=
  match s with
  | EmptyString => Some acc
  | String c s' =>
      match digit c with
      | Some d => parse_digits s' (10 * acc + d)%N
      | None => None
      end
  end.

(** The array index a property name denotes: a canonical decimal numeral
    below [2^32 - 1]. *)
Definition array_index (s : string) : option N :=
  match s with
  | EmptyString => None
  | String "0" EmptyString => Some 0%N
  | String "0" _ => None
  | _ =>
      match parse_digits s 0 with
      | Some n => if (n <? 4294967295)%N then Some n else None
      | None => None
      end
  end.

Fixpoint insert_index (i : N) (k : string) (l : list (N * string)) : list (N * string) :=
  match l with
  | [] => [(i, k)]
  | (j, k') :: l' =>
      if (i <=? j)%N then (i, k) :: l else (j, k') :: insert_index i k l'
  end.

Fixpoint index_keys (o : Obj) : list (N * string) :=
  match o with
  | [] => []
  | (k, _) :: o' =>
      match array_index k with
      | Some i => insert_index i k (index_keys o')
      | None => index_keys o'
      end
  end.

Fixpoint name_keys (o : Obj) : list string :=
  match o with
  | [] => []
  | (k, _) :: o' =>
      match array_index k with
      | Some _ => name_keys o'
      | None => k :: name_keys o'
      end
  end.

Definition Object_keys (o : Obj) : list string :=
  (map snd (index_keys o) ++ name_keys o)%list.

(** [o[k]] for an own property, [undefined] otherwise. *)
Definition Obj_get (o : Obj) (k : string) : jsval := get_value o k.

Record state : Type := mkState {
  _points : list Point.t;
  _xLabels : list string;
  _xAxis : scaleBand;
  _yAxis : scaleLog;
  _bins : option (Map (list Bin));
  _colors : Obj;
  _shapes : Obj
}.

Definition set_points (d : list Point.t) (s : state) : state :=
  mkState d (_xLabels s) (_xAxis s) (_yAxis s) (_bins s) (_colors s) (_shapes s).

(** The body of the inner loop of [loadData]; [organism] is not read. *)
Definition pushPoint (p : Input.TargetProtein) (points : list Point.t) (a : Input.Activity)
  : list Point.t :=
  (points ++ [Point.mk (Input.symbol (Input.protein p))
                       (Input.primaryAccession (Input.protein p))
                       None
                       (Input.conc a)
                       (Input.type a)
                       (Input.unit a)
                       None None None None])%list.

Definition pushProtein (points : list Point.t) (p : Input.TargetProtein) : list Point.t :=
  fold_left (pushPoint p) (Input.activities p) points.

(** [loadData(proteins)]. *)
Definition loadData (proteins : list Input.TargetProtein) : list Point.t :=
  fold_left pushProtein proteins [].

(** [extractXLabels(proteins)]. *)
Definition extractXLabels (proteins : list Input.TargetProtein) : list string :=
  fold_left (fun labels prot =>
    fold_left (fun labels act =>
      if existsb (String.eqb (Input.type act)) labels then labels
      else (labels ++ [Input.type act])%list)
      (Input.activities prot) labels) proteins [].

Definition initXAxis (labels : list string) : scaleBand :=
  scaleBand_make labels
    (0, BioActivityGraph._width - BioActivityGraph.margin_left
        - BioActivityGraph.margin_right) (5 # 100).

(** The two loops of [initYAxis(proteins)]: [(min, max)]. *)
Definition min_max (proteins : list Input.TargetProtein) : number * number :=
  fold_left (fun mm p =>
    fold_left (fun mm a =>
      let max := Math_max (Input.conc a) (snd mm) in
      let min := Math_min (Input.conc a) (fst mm) in
      (min, max)) (Input.activities p) mm) proteins (PosInf, NegInf).

Definition initYAxis (Math_log10 : Q -> Q) (proteins : list Input.TargetProtein)
  : scaleLog :=
  scaleLog_nice Math_log10
    (scaleLog_range (Fin (BioActivityGraph._height - BioActivityGraph.margin_bottom),
                     Fin BioActivityGraph.margin_top)
       (scaleLog_domain (min_max proteins) scaleLog_default)).

Fixpoint some_color (colors : Obj) (keys : list string) (p : Point.t) : Point.t :=
  match keys with
  | [] => p
  | k :: keys' =>
      if includes (Point.Object_values p) k
      then Point.set_color (Obj_get colors k) p
      else some_color colors keys' p
  end.

Definition pointColor (colors : Obj) (p : Point.t) : Point.t :=
  some_color colors (Object_keys colors)
             (Point.set_color (Obj_get colors "Default") p).

Definition updatePointColors (s : state) : state :=
  set_points (map (pointColor (_colors s)) (_points s)) s.

Fixpoint some_shape (shapes : Obj) (keys : list string) (p : Point.t) : Point.t :=
  match keys with
  | [] => p
  | k :: keys' =>
      if includes (Point.Object_values p) k
      then Point.set_shape (Obj_get shapes k) p
      else some_shape shapes keys' p
  end.

Definition pointShape (shapes : Obj) (p : Point.t) : Point.t :=
  some_shape shapes (Object_keys shapes)
             (Point.set_shape (Obj_get shapes "Default") p).

Definition updatePointShapes (s : state) : state :=
  set_points (map (pointShape (_shapes s)) (_points s)) s.

Section Chart.

Variable scaleLog_apply : scaleLog -> number -> number.
Variable random : nat -> Q.

(** The loop of [updatePointPositions(jitter)]: the offset [dx] is a
    variable of the method, shared by all iterations. *)
Fixpoint positions (jitter : bool) (X : scaleBand) (Y : scaleLog) (dx : number)
         (points : list Point.t) : rnd (list Point.t) :=
  match points with
  | [] => ret []
  | d :: rest =>
      let d := Point.set_x (add (ToNumber (band_apply X (Point.type d))) dx) d in
      rbind (if jitter
             then rbind (Math_random random)
                        (fun r => ret (sub dx (mul (div dx (Fin 2)) r)))
             else ret dx) (fun dx' =>
      let d := Point.set_y (scaleLog_apply Y (Point.value d)) d in
      rbind (positions jitter X Y dx' rest) (fun ds => ret (d :: ds)))
  end.

Definition updatePointPositions (jitter : bool) (s : state) : rnd state :=
  let X := _xAxis s in
  let dx := div (bandwidth X) (Fin 2) in
  let Y := _yAxis s in
  rbind (positions jitter X Y dx (_points s)) (fun pts => ret (set_points pts s)).

End Chart.

Definition set_colors (c : Obj) (s : state) : state :=
  mkState (_points s) (_xLabels s) (_xAxis s) (_yAxis s) (_bins s) c (_shapes s).

Definition set_shapes (c : Obj) (s : state) : state :=
  mkState (_points s) (_xLabels s) (_xAxis s) (_yAxis s) (_bins s) (_colors s) c.

(** [o[k] = v] on a plain object. An own property keeps its place and a
    new one goes last; [__proto__] names the accessor inherited from
    [Object.prototype], which ignores a string, so that no own property
    is created. *)
Definition Obj_set (o : Obj) (k v : string) : Obj :=
  if String.eqb k "__proto__" then o else Map_set o k v.

(** [delete o[k]]. *)
Definition Obj_delete (o : Obj) (k : string) : Obj := Map_delete o k.

(** [modalOK()] of class version 1.1: the kind of the dialog is ['color']
    or anything else, the value and the colour or shape are read from two
    elements of the page, and reading from an element that is not there
    throws. *)
Definition modalOK (type : string) (val upd : option string) (s : state)
  : completion state :=
  match val with
  | None => Throw (TypeError "Cannot read properties of null (reading 'value')")
  | Some val =>
      match upd with
      | None => Throw (TypeError "Cannot read properties of null (reading 'value')")
      | Some upd =>
          if String.eqb type "color"
          then Normal (updatePointColors (set_colors (Obj_set (_colors s) val upd) s))
          else Normal (updatePointShapes (set_shapes (Obj_set (_shapes s) val upd) s))
      end
  end.

(** The click handlers of the rows, installed by [updateTableColor] and
    [updateTableShape]. *)
Definition colorRowClose (key : string) (s : state) : completion state :=
  if String.eqb key "Default" then Normal s
  else Normal (updatePointColors (set_colors (Obj_delete (_colors s) key) s)).

Definition shapeRowClose (key : string) (s : state) : completion state :=
  if String.eqb key "Default" then Normal s
  else Normal (updatePointShapes (set_shapes (Obj_delete (_shapes s) key) s)).

(** The events of the page that edit a table. *)
Inductive event : Type :=
| ModalOK (type : string) (val upd : option string)
| ColorRowClose (key : string)
| ShapeRowClose (key : string).

Definition handler (e : event) (s : state) : completion state :=
  match e with
  | ModalOK type val upd => modalOK type val upd s
  | ColorRowClose key => colorRowClose key s
  | ShapeRowClose key => shapeRowClose key s
  end.

Definition dispatch (s : state) (e : event) : state :=
  match handler e s with
  | Normal s' => s'
  | Throw _ => s
  end.

Definition run (events : list event) (s : state) : state :=
  fold_left dispatch events s.

Definition set_bins (b : Map (list Bin)) (s : state) : state :=
  mkState (_points s) (_xLabels s) (_xAxis s) (_yAxis s) (Some b) (_colors s) (_shapes s).

Section Build.

Variable Math_log10 : Q -> Q.
Variable scaleLog_apply : scaleLog -> number -> number.
Variable scaleLog_ticks : scaleLog -> nat -> list number.
Variable random : nat -> Q.

(** [initHistogramBins(nBins)] of class version 1.1. *)
Definition initHistogramBins (nBins : nat) (s : state) : completion state :=
  let histogram :=
    histogram (log_domain (_yAxis s)) (scaleLog_ticks (_yAxis s) nBins) in
  bind (rollup (_points s)
               (fun p => histogram (map Point.value p))
               Point.type)
       (fun bins => Normal (set_bins bins s)).

(** [new BioActivityGraph(chemblObj)] of class version 1.1. The name of
    the compound is read before anything is tested; [None] is the instance
    left without points and axes. The layout runs with its default
    argument, without jitter. *)
Definition constructor (chemblObj : option Input.ChemblCompound)
  : rnd (completion (option state)) :=
  match chemblObj with
  | None =>
      ret (Throw (TypeError "Cannot read properties of undefined (reading 'name')"))
  | Some obj =>
      match Input.targetProteins obj with
      | [] => ret (Normal None)
      | proteins =>
          let labels := extractXLabels proteins in
          let s := mkState (loadData proteins) labels (initXAxis labels)
                           (initYAxis Math_log10 proteins) None
                           [("Default", "#C0C0C0")] [("Default", "Circle")] in
          rbind (updatePointPositions scaleLog_apply random false s) (fun s =>
          let s := updatePointColors s in
          let s := updatePointShapes s in
          ret (bind (initHistogramBins 10 s) (fun s => Normal (Some s))))
      end
  end.

End Build.

End BioActivityGraphV1.

(** ** Resolution of one point against a table *)

Module Resolve.
Import JS.

(** The values the keys of the colour table are compared with: the own
    property values of the point once [color] holds the default colour. *)
Definition colorScan (colors : Map string) (p : Point.t) : list jsval :=
  Point.Object_values (Point.set_color (get_value colors "Default") p).

(** The colour [updatePointColors] leaves on the point. *)
Definition resolveColor (colors : Map string) (p : Point.t) : option jsval :=
  Point.color (BioActivityGraph.pointColor colors p).

Definition shapeScan (shapes : Map string) (p : Point.t) : list jsval :=
  Point.Object_values (Point.set_shape (get_value shapes "Default") p).

(** The shape [updatePointShapes] leaves on the point. *)
Definition resolveShape (shapes : Map string) (p : Point.t) : option jsval :=
  Point.shape (BioActivityGraph.pointShape shapes p).


(** The four attributes a rule is meant for: symbol, accession, organism
    and activity type. *)
Definition listed_attributes (p : Point.t) : list jsval :=
  ([Point.symbol p; Point.primaryAccession p] ++ Point.own id (Point.organism p)
   ++ [Str (Point.type p)])%list.

(** No key of the table equals one of the four listed attributes. *)
Definition unlisted (keys : list string) (p : Point.t) : Prop :=
  forall k, In k keys -> ~ In (Str k) (listed_attributes p).

(** A visual attribute is defined when it holds a string. *)
Definition defined (v : option jsval) : Prop :=
  exists s, v = Some (Str s).

(** What holds of the chart from its construction on: both tables have
    their [Default] entry and every point has a colour and a shape. *)
Definition well_formed (s : BioActivityGraph.state) : Prop :=
  Map_has (BioActivityGraph._colors s) "Default" = true
  /\ Map_has (BioActivityGraph._shapes s) "Default" = true
  /\ forall p, In p (BioActivityGraph._data s) ->
               defined (Point.color p) /\ defined (Point.shape p).

End Resolve.

(** ** The flat list of (protein, activity) pairs *)

Module Pairs.
Import JS.

(** The point of one (protein, activity) pair: the raw fields copied, the
    coordinates, the colour and the shape not yet there. [org] is the
    organism property as the class version writes it. *)
Definition point_of (org : option jsval) (p : Input.TargetProtein) (a : Input.Activity)
  : Point.t :=
  Point.mk (Input.symbol (Input.protein p)) (Input.primaryAccession (Input.protein p))
           org (Input.conc a) (Input.type a) (Input.unit a) None None None None.

(** The organism name class version 2.0 copies. *)
Definition organism_name (p : Input.TargetProtein) : option jsval :=
  option_map Input.name (Input.organism (Input.protein p)).

(** One point per pair, proteins outer, activities inner; [org] gives the
    organism property. *)
Definition flatten (org : Input.TargetProtein -> option jsval)
           (proteins : list Input.TargetProtein) : list Point.t :=
  flat_map (fun p => map (point_of (org p) p) (Input.activities p)) proteins.

(** The number of (protein, activity) pairs. *)
Definition count (proteins : list Input.TargetProtein) : nat :=
  list_sum (map (fun p => List.length (Input.activities p)) proteins).

(** A protein record with an activity and no organism. *)
Definition lacks_organism (p : Input.TargetProtein) : Prop :=
  Input.organism (Input.protein p) = None /\ Input.activities p <> [].

End Pairs.

(** ** Counting in bins *)

Module Binning.
Import JS D3.

(** The number of values the bins of one type hold. *)
Definition count (bins : list Bin) : nat :=
  list_sum (map (fun b => List.length (contents b)) bins).

(** The points of one activity type. *)
Definition points_of_type (t : string) (data : list Point.t) : list Point.t :=
  filter (fun p => String.eqb (Point.type p) t) data.

(** [x0 <= v && v <= x1]. *)
Definition in_domain (dom : number * number) (v : number) : bool :=
  le (fst dom) v && le v (snd dom).

(** The data contract on concentrations: finite and positive. *)
Definition positive (data : list Point.t) : Prop :=
  forall p, In p data -> exists q, Point.value p = Fin q /\ (0 < q)%Q.

(** The points whose value lies inside a domain. *)
Definition inside (dom : number * number) (data : list Point.t) : list Point.t :=
  filter (fun p => in_domain dom (Point.value p)) data.

(** The logarithm puts a positive number in its decade:
    [10 ^ floor(L) <= q <= 10 ^ ceil(L)] for [L] the logarithm of [q]. *)
Definition brackets (Math_log10 : Q -> Q) (q : Q) : Prop :=
  (pow10Q (Qfloor (Math_log10 q)) <= q)%Q
  /\ (q <= pow10Q (Qceiling (Math_log10 q)))%Q.

(** Positive concentrations, each put in its decade by the logarithm. *)
Definition bracketed (Math_log10 : Q -> Q) (data : list Point.t) : Prop :=
  forall p, In p data ->
            exists q, Point.value p = Fin q /\ (0 < q)%Q /\ brackets Math_log10 q.

End Binning.

(** ** Offsets under jitter *)

Module Jitter.
Import JS.

(** Class version 2.0, jitter without violin: the offset of a point whose
    draw is [r], a quarter band plus [r] times half a band. *)
Definition offset_v2 (bw r : Q) : Q := bw / 4 + (bw / 2) * r.

(** Class version 1.1: the offset the [k]-th point of the loop receives
    when the loop starts at draw [i]. It starts at half a band and loses,
    after every point, the fraction [r / 2] of itself, [r] being the draw
    made after that point. *)
Fixpoint offset_v1 (random : nat -> Q) (bw : Q) (i k : nat) : Q :=
  match k with
  | O => bw / 2
  | S k' =>
      offset_v1 random bw i k'
      - (offset_v1 random bw i k' / 2) * random (i + k')%nat
  end.

End Jitter.

(** ** A logarithm for the samples *)

Module Decimal.
Import D3.

(** Search for the decimal exponent of [n / d >= 1]: [m] is [d * 10 ^ k]. *)
Fixpoint log10_up (fuel : nat) (n m k : Z) : Z :=
  match fuel with
  | O => k
  | S f => if (10 * m <=? n)%Z then log10_up f n (10 * m) (k + 1)%Z else k
  end.

(** Search for the decimal exponent of [n / d < 1]: [m] is [n * 10 ^ j]. *)
Fixpoint log10_down (fuel : nat) (m d j : Z) : Z :=
  match fuel with
  | O => j
  | S f => if (d <=? m)%Z then j else log10_down f (10 * m) d (j + 1)%Z
  end.

(** The decade of a positive rational [q]: the integer [k] with
    [10 ^ k <= q < 10 ^ (k + 1)]. *)
Definition decade (q : Q) : Z :=
  let n := Qnum q in
  let d := Zpos (Qden q) in
  if (d <=? n)%Z
  then log10_up (S (Z.to_nat (Z.log2 n))) n d 0
  else (- log10_down (S (Z.to_nat (Z.log2 d))) (10 * n) d 1)%Z.

(** A stand-in for [Math.log10] on the samples: the exponent at a power
    of ten, the decade and a half between two powers of ten; its floor and
    its ceiling are those of the decimal logarithm. *)
Definition log10 (q : Q) : Q :=
  if Qeq_bool q (pow10Q (decade q)) then inject_Z (decade q)
  else inject_Z (decade q) + (1 # 2).

End Decimal.

(** ** Sample data *)

Module Examples.
Import JS.

(** A point of class version 2.0 after the constructor's three passes,
    for a protein measured once. *)
Definition egfr_ic50 : Point.t :=
  Point.mk (Str "EGFR") (Str "P00533") (Some (Str "Homo sapiens"))
           (Fin 5) "IC50" (Str "nM")
           (Some (Fin 160)) (Some (Fin 200))
           (Some (Str "#C0C0C0")) (Some (Str "Circle")).

(** A colour table with one rule on an accession. *)
Definition colors_by_accession : Map string :=
  [("Default", "#C0C0C0"); ("P00533", "#ff0000")].

(** A shape table with one rule on an accession. *)
Definition shapes_by_accession : Map string :=
  [("Default", "Circle"); ("P00533", "Star")].

(** A colour rule whose key is the default colour itself. *)
Definition colors_by_default_color : Map string :=
  [("Default", "#C0C0C0"); ("#C0C0C0", "#ff0000")].

(** A colour rule whose key is the name of a shape. *)
Definition colors_by_shape_name : Map string :=
  [("Default", "#C0C0C0"); ("Circle", "#00ff00")].

(** A shape rule whose key is the name of the default shape. *)
Definition shapes_by_default_shape : Map string :=
  [("Default", "Circle"); ("Circle", "Star")].

(** A protein whose gene symbol reads [Default]. *)
Definition default_ic50 : Point.t :=
  Point.mk (Str "Default") (Str "Q00001") (Some (Str "Homo sapiens"))
           (Fin 50) "IC50" (Str "nM")
           (Some (Fin 160)) (Some (Fin 120))
           (Some (Str "#C0C0C0")) (Some (Str "Circle")).

Definition colors_by_type : Map string :=
  [("Default", "#C0C0C0"); ("IC50", "#ff0000")].

(** A chart state around the sample point. *)
Definition sample_state : BioActivityGraph.state :=
  BioActivityGraph.mkState [egfr_ic50]
    (BioActivityGraph.initXAxis [egfr_ic50])
    (BioActivityGraph.initYAxis Decimal.log10 [egfr_ic50])
    None
    colors_by_accession shapes_by_accession.

(** The sample point as class version 1.1 loads it, before any pass. *)
Definition egfr_ic50_v1 : Point.t :=
  Point.mk (Str "EGFR") (Str "P00533") None
           (Fin 5) "IC50" (Str "nM") None None None None.

(** Query results. *)
Definition egfr : Input.Protein :=
  Input.mkProtein (Str "EGFR") (Str "P00533")
                  (Some (Input.mkOrganism (Str "Homo sapiens"))).

Definition egfr_without_organism : Input.Protein :=
  Input.mkProtein (Str "EGFR") (Str "P00533") None.

Definition ic50_5 : Input.Activity :=
  Input.mkActivity "IC50" (Fin 5) (Str "=") (Str "nM").

Definition ki_50_without_unit : Input.Activity :=
  Input.mkActivity "Ki" (Fin 50) (Str "=") undefined.

(** A protein record that carries no activity. *)
Definition silent_protein : Input.TargetProtein :=
  Input.mkTargetProtein egfr [].

(** A protein record with two activities. *)
Definition measured_protein : Input.TargetProtein :=
  Input.mkTargetProtein egfr [ic50_5; ki_50_without_unit].

(** The same record as a query that does not select the organism returns
    it. *)
Definition measured_without_organism : Input.TargetProtein :=
  Input.mkTargetProtein egfr_without_organism [ic50_5; ki_50_without_unit].

(** One measurement at ten, a power of ten. *)
Definition ic50_10 : Input.Activity :=
  Input.mkActivity "IC50" (Fin 10) (Str "=") (Str "nM").

Definition protein_at_10 : Input.TargetProtein :=
  Input.mkTargetProtein egfr [ic50_10].


(** A second measurement of the same type. *)
Definition egfr_ic50_b : Point.t :=
  Point.mk (Str "EGFR") (Str "P00533") (Some (Str "Homo sapiens"))
           (Fin 50) "IC50" (Str "nM") None None None None.

(** A chart of two points of one type, before the layout. *)
Definition two_points_state : BioActivityGraph.state :=
  BioActivityGraph.mkState [egfr_ic50; egfr_ic50_b]
    (BioActivityGraph.initXAxis [egfr_ic50; egfr_ic50_b])
    (BioActivityGraph.initYAxis Decimal.log10 [egfr_ic50; egfr_ic50_b])
    None
    [("Default", "#C0C0C0")] [("Default", "Circle")].

(** A chart of class version 1.1 with three points of one type. *)
Definition three_points_state_v1 : BioActivityGraphV1.state :=
  BioActivityGraphV1.mkState [egfr_ic50_v1; egfr_ic50_v1; egfr_ic50_v1]
    ["IC50"]
    (BioActivityGraphV1.initXAxis ["IC50"])
    (BioActivityGraph.initYAxis Decimal.log10 [egfr_ic50_v1])
    None
    [("Default", "#C0C0C0")] [("Default", "Circle")].

(** A stand-in for the map of the vertical scale, where it plays no part. *)
Definition flat_scale : D3.scaleLog -> number -> number := fun _ v => v.

(** Draws that are all one half. *)
Definition halves : nat -> Q := fun _ => 1 # 2.

(** Ticks of the vertical scale, where their values play no part. *)
Definition decade_ticks : D3.scaleLog -> nat -> list number :=
  fun _ _ => [Fin 1; Fin 2; Fin 5; Fin 10; Fin 20; Fin 50; Fin 100].

End Examples.

(** ** The shape of the tables *)

Module Tables.
Import JS.

(** A table as the [Map] it models: no key twice, and [Default], the
    first key inserted, first. *)
Definition tidy_table (m : Map string) : Prop :=
  NoDup (Map_keys m) /\ exists rest, Map_keys m = "Default" :: rest.

Definition tidy (s : BioActivityGraph.state) : Prop :=
  tidy_table (BioActivityGraph._colors s) /\ tidy_table (BioActivityGraph._shapes s).

(** Class version 1.1: both tables have their [Default] property and
    every point has a colour and a shape. *)
Definition sound (s : BioActivityGraphV1.state) : Prop :=
  Map_has (BioActivityGraphV1._colors s) "Default" = true
  /\ Map_has (BioActivityGraphV1._shapes s) "Default" = true
  /\ forall p, In p (BioActivityGraphV1._points s) ->
               Resolve.defined (Point.color p) /\ Resolve.defined (Point.shape p).

(** A key that is no array index and does not name the inherited
    accessor: one that a plain object lists where it was created. *)
Definition plain_key (k : string) : bool :=
  match BioActivityGraphV1.array_index k with
  | Some _ => false
  | None => negb (String.eqb k "__proto__")
  end.

Definition plain (o : BioActivityGraphV1.Obj) : Prop :=
  forallb plain_key (Map_keys o) = true.

(** The events that name plain keys only. *)
Definition plain_event (e : BioActivityGraphV1.event) : bool :=
  match e with
  | BioActivityGraphV1.ModalOK _ (Some val) _ => plain_key val
  | _ => true
  end.

(** The chart of class version 1.1 seen as one of class version 2.0: the
    own properties of the table objects in creation order as the entries
    of the [Map]s. *)
Definition as_v2 (s : BioActivityGraphV1.state) : BioActivityGraph.state :=
  BioActivityGraph.mkState (BioActivityGraphV1._points s)
    (BioActivityGraphV1._xAxis s) (BioActivityGraphV1._yAxis s)
    (BioActivityGraphV1._bins s)
    (BioActivityGraphV1._colors s) (BioActivityGraphV1._shapes s).

(** The same event on the page of class version 2.0, where the colour
    dialog is ['Color']. *)
Definition event_as_v2 (e : BioActivityGraphV1.event) : BioActivityGraph.event :=
  match e with
  | BioActivityGraphV1.ModalOK type val upd =>
      BioActivityGraph.ModalOK (if String.eqb type "color" then "Color" else "Shape")
                               val upd
  | BioActivityGraphV1.ColorRowClose key => BioActivityGraph.ColorRowClose key
  | BioActivityGraphV1.ShapeRowClose key => BioActivityGraph.ShapeRowClose key
  end.

End Tables.

(** ** A sample chart *)

Module Samples.
Import JS.

Definition compound : Input.ChemblCompound :=
  Input.mkChemblCompound (Str "Gefitinib")
    [Examples.measured_protein; Examples.silent_protein; Examples.protein_at_10].

(** What the constructor returns for the sample compound with both boxes
    unchecked. *)
Definition built : completion (option BioActivityGraph.state) * nat :=
  BioActivityGraph.constructor Decimal.log10 Examples.flat_scale Examples.decade_ticks
    Examples.halves (Some compound) (BioActivityGraph.mkControls false false) 0%nat.

(** A protein whose gene symbol is a numeral, as a point, and a table
    with a rule on the activity type added before a rule on that symbol. *)
Definition numeral_ic50 : Point.t :=
  Point.mk (Str "7") (Str "Q00007") None (Fin 5) "IC50" (Str "nM")
           None None None None.

Definition colors_type_then_numeral : Map string :=
  [("Default", "#C0C0C0"); ("IC50", "#ff0000"); ("7", "#00ff00")].

(** A chart one of whose two measurements is not a number, before the
    bins are made. *)
Definition unmeasured_ki : Point.t :=
  Point.mk (Str "EGFR") (Str "P00533") (Some (Str "Homo sapiens"))
           NaN "Ki" (Str "nM") None None None None.

Definition chart_with_NaN : BioActivityGraph.state :=
  BioActivityGraph.mkState [Examples.egfr_ic50_b; unmeasured_ki]
    (BioActivityGraph.initXAxis [Examples.egfr_ic50_b; unmeasured_ki])
    (BioActivityGraph.initYAxis Decimal.log10 [Examples.egfr_ic50_b; unmeasured_ki])
    None
    [("Default", "#C0C0C0")] [("Default", "Circle")].

(** A chart with two measurements of one type, three and a hundred, on a
    scale whose domain runs from one to ten. *)
Definition ic50_at (v : Q) : Point.t :=
  Point.mk (Str "EGFR") (Str "P00533") (Some (Str "Homo sapiens"))
           (Fin v) "IC50" (Str "nM") None None None None.

Definition chart_beyond_scale : BioActivityGraph.state :=
  BioActivityGraph.mkState [ic50_at 3; ic50_at 100]
    (BioActivityGraph.initXAxis [ic50_at 3; ic50_at 100])
    (D3.mkLog (Fin 1, Fin 10) (Fin 360, Fin 40) false)
    None
    [("Default", "#C0C0C0")] [("Default", "Circle")].

(** The chart above with a shape rule under [IC50] next to the default,
    and a colour rule under [EGFR]. *)
Definition chart_with_shape_rule : BioActivityGraph.state :=
  BioActivityGraph.mkState [ic50_at 3; ic50_at 100]
    (BioActivityGraph.initXAxis [ic50_at 3; ic50_at 100])
    (D3.mkLog (Fin 1, Fin 100) (Fin 360, Fin 40) false)
    None
    [("Default", "#C0C0C0"); ("EGFR", "#ff0000")]
    [("Default", "Circle"); ("IC50", "Star")].

Definition chart : BioActivityGraph.state :=
  match fst built with
  | Normal (Some s) => s
  | _ => Examples.sample_state
  end.

End Samples.

(** ** The offset of a point as a function of its draw *)

Module Layout.
Import JS.

(** The three branches of [updatePointPositions] of class version 2.0
    for a band of width [bw], the quarter band being [bw / 4], and the
    draw [r] made for the point (read only where jitter is checked). *)
Definition dx (jitter violin : bool) (bw r : Q) : Q :=
  if jitter && violin then 2 * (bw / 4) + - (bw / 4 * r)
  else if jitter then bw / 4 + bw / 4 * 2 * r
  else 2 * (bw / 4).

(** The width of the bands of a band scale. *)
Definition width (X : D3.scaleBand) : Q :=
  D3.band_step X * (1 - D3.band_padding X).

(** The point [d] laid out with the draw [r]. *)
Definition place (scaleLog_apply : D3.scaleLog -> number -> number)
           (jitter violin : bool) (X : D3.scaleBand) (Y : D3.scaleLog)
           (r : Q) (d : Point.t) : Point.t :=
  Point.set_y (scaleLog_apply Y (Point.value d))
    (Point.set_x (add (ToNumber (D3.band_apply X (Point.type d)))
                      (Fin (dx jitter violin (width X) r))) d).

End Layout.

(** ** What a point was loaded with *)

Module Frame.

(** The properties [loadData] writes, without those the passes add. *)
Definition raw (p : Point.t) : Point.t :=
  Point.mk (Point.symbol p) (Point.primaryAccession p) (Point.organism p)
           (Point.value p) (Point.type p) (Point.unit p) None None None None.

(** The point without the colour and the shape the tables give it. *)
Definition placed (p : Point.t) : Point.t :=
  Point.mk (Point.symbol p) (Point.primaryAccession p) (Point.organism p)
           (Point.value p) (Point.type p) (Point.unit p)
           (Point.x p) (Point.y p) None None.

(** The point without the coordinates the layout gives it. *)
Definition dressed (p : Point.t) : Point.t :=
  Point.mk (Point.symbol p) (Point.primaryAccession p) (Point.organism p)
           (Point.value p) (Point.type p) (Point.unit p)
           None None (Point.color p) (Point.shape p).

(** The data contract on the input: every protein with an organism, every
    concentration finite and positive. *)
Definition contract (proteins : list Input.TargetProtein) : Prop :=
  (forall p, In p proteins -> ~ Pairs.lacks_organism p)
  /\ (forall p a, In p proteins -> In a (Input.activities p) ->
                  exists q, Input.conc a = JS.Fin q /\ (0 < q)%Q).

(** The part of the contract class version 1.1 needs: every
    concentration finite and positive. *)
Definition measured (proteins : list Input.TargetProtein) : Prop :=
  forall p a, In p proteins -> In a (Input.activities p) ->
              exists q, Input.conc a = JS.Fin q /\ (0 < q)%Q.

End Frame.

(** ** Drawing the points *)

Module Plot.
Import JS.

(** The options [modalDisplay] offers for a shape. *)
Definition opts : list string :=
  ["Circle"; "Cross"; "Diamond"; "Square"; "Star"; "Triangle"; "Wye"].

(** The array [s] of [plotData]. *)
Definition s : list string :=
  ["Circle"; "Cross"; "Diamond"; "Square"; "Star"; "Triangle"; "Wye"].

(** [a.indexOf(v)] on an array of strings: strict equality, [-1] when
    nothing is equal. *)
Definition indexOf (a : list string) (v : option jsval) : Z :=
  match v with
  | Some (Str x) =>
      match D3.index_of x a with
      | Some i => Z.of_nat i
      | None => (-1)%Z
      end
  | _ => (-1)%Z
  end.

(** The index [plotData] reads [d3.symbols] at for the point [d]. *)
Definition symbolIndex (d : Point.t) : Z := indexOf s (Point.shape d).

(** A dialog event as the page can produce it: a shape is one of the
    options offered. *)
Definition offered (e : BioActivityGraph.event) : Prop :=
  match e with
  | BioActivityGraph.ModalOK type _ (Some upd) => type = "Color" \/ In upd opts
  | _ => True
  end.

(** Every shape of the table and of the points is one [plotData] knows. *)
Definition known (st : BioActivityGraph.state) : Prop :=
  Forall (fun kv => In (snd kv) s) (BioActivityGraph._shapes st)
  /\ Map_has (BioActivityGraph._shapes st) "Default" = true
  /\ forall p, In p (BioActivityGraph._data st) ->
               exists v, Point.shape p = Some (Str v) /\ In v s.

End Plot.

(** ** Drawing the violins *)

Module Violin.
Import JS D3.

(** [d3.max] on an array of lengths: [undefined] for the empty array. *)
Definition d3_max (l : list nat) : option nat :=
  match l with
  | [] => None
  | x :: l' => Some (fold_left Nat.max l' x)
  end.

(** [g.length] for a bin. *)
Definition length (g : Bin) : nat := List.length (contents g).

(** The loop over [this._bins]: the greatest length of a bin of any
    type; [undefined > maxNum] is false. *)
Definition maxNum (bins : Map (list Bin)) : nat :=
  fold_left (fun maxNum d =>
               match d3_max (map length (snd d)) with
               | Some longest => if (maxNum <? longest)%nat then longest else maxNum
               | None => maxNum
               end) bins 0%nat.

(** [d3.scaleLinear().domain([d0, d1]).range([r0, r1])] as a function: a
    domain of no extent is sent to the middle of the range. *)
Definition normalize (a b x : Q) : Q :=
  if Qeq_bool (b - a) 0 then 1 # 2 else (x - a) / (b - a).

Definition interpolateNumber (a b t : Q) : Q := a * (1 - t) + b * t.

Definition scaleLinear (domain range : Q * Q) (x : Q) : Q :=
  let '(d0, d1) := domain in
  let '(r0, r1) := range in
  if negb (Qle_bool d0 d1)
  then interpolateNumber r1 r0 (normalize d1 d0 x)
  else interpolateNumber r0 r1 (normalize d0 d1 x).

(** One vertex of the area of a violin: [x0], [x1] and [y]. *)
Record vertex : Type := mkVertex {
  area_x0 : Q;
  area_x1 : Q;
  area_y : number
}.

(** The group of one type: where it is translated to and the vertices of
    its path, one per bin. *)
Record violin : Type := mkViolin {
  translate : number;
  path : list vertex
}.

Section Draw.

Variable scaleLog_apply : scaleLog -> number -> number.

(** [xNum], the scale of the widths. *)
Definition xNum (X : scaleBand) (bins : Map (list Bin)) : Q -> Q :=
  let m := inject_Z (Z.of_nat (maxNum bins)) in
  scaleLinear (- m, m) (0, Layout.width X).

(** [plotViolins()] of class version 2.0: nothing is drawn ([None]) when
    the box is not checked. *)
Definition plotViolins (c : BioActivityGraph.controls) (s : BioActivityGraph.state)
  : completion (option (list violin)) :=
  if negb (BioActivityGraph.cb_violin c) then Normal None
  else
    let X := BioActivityGraph._xAxis s in
    let Y := BioActivityGraph._yAxis s in
    match BioActivityGraph._bins s with
    | None => Throw (TypeError "Cannot read properties of undefined (reading 'forEach')")
    | Some bins =>
        Normal (Some (map (fun d =>
          mkViolin (add (ToNumber (band_apply X (fst d))) (div (bandwidth X) (Fin 10)))
                   (map (fun g => mkVertex (xNum X bins 0)
                                           (xNum X bins (inject_Z (Z.of_nat (length g))))
                                           (scaleLog_apply Y (x0 g)))
                        (snd d))) bins))
    end.

End Draw.

End Violin.

(** ** The values the dialog offers *)

Module Options.
Import JS.

(** SameValueZero, the equality of [Set]: [NaN] equals itself and a
    string equals a string with the same characters. *)
Definition SameValueZero (a b : jsval) : bool :=
  match a, b with
  | undefined, undefined => true
  | null, null => true
  | Num NaN, Num NaN => true
  | Num NegInf, Num NegInf => true
  | Num PosInf, Num PosInf => true
  | Num (Fin x), Num (Fin y) => Qeq_bool x y
  | Str x, Str y => String.eqb x y
  | _, _ => false
  end.

(** [set.add(v)]: a value the set has is not added again; a new value
    goes last. *)
Definition Set_add (set : list jsval) (v : jsval) : list jsval :=
  if existsb (SameValueZero v) set then set else (set ++ [v])%list.


(** The categories the page of class version 1.1 offers in
    [modal-select-column]. *)
Inductive column : Type :=
| primaryAccession
| symbol
| type.

(** [p[key]] for these categories. *)
Definition get (key : column) (p : Point.t) : jsval :=
  match key with
  | primaryAccession => Point.primaryAccession p
  | symbol => Point.symbol p
  | type => Str (Point.type p)
  end.


(** [updateModalOptions()] of class version 2.0: the data bound to the
    labels, [[...opts]] where [opts] is filled by [reduce]; [key] is the
    read [c[key]] for the category that is checked. *)
Definition updateModalOptions (key : Point.t -> jsval) (s : BioActivityGraph.state)
  : list jsval :=
  fold_left (fun p c => Set_add p (key c)) (BioActivityGraph._data s) [].

End Options.

(** * Properties *)

(** ** The [Map] operations *)

Section MapFacts.
Import JS.
Context {V : Type}.
Implicit Types (m : Map V) (k : string) (v : V).

Lemma Map_get_set_same m k v : Map_get (Map_set m k v) k = Some v.
Proof.
  induction m as [|[k' v'] m IH]; simpl.
  - now rewrite String.eqb_refl.
  - destruct (String.eqb k' k) eqn:E; simpl; rewrite E; auto.
Qed.

Lemma Map_get_set_other m k k' v :
  k' <> k -> Map_get (Map_set m k v) k' = Map_get m k'.
Proof.
  intros Hne. induction m as [|[k0 v0] m IH]; simpl.
  - destruct (String.eqb k k') eqn:E; auto.
    apply String.eqb_eq in E. congruence.
  - destruct (String.eqb k0 k) eqn:E; simpl.
    + apply String.eqb_eq in E. subst k0.
      destruct (String.eqb k k') eqn:E'; auto.
      apply String.eqb_eq in E'. congruence.
    + now rewrite IH.
Qed.

Lemma Map_get_delete_other m k k' :
  k' <> k -> Map_get (Map_delete m k) k' = Map_get m k'.
Proof.
  intros Hne. induction m as [|[k0 v0] m IH]; simpl; auto.
  destruct (String.eqb k0 k) eqn:E; simpl.
  - apply String.eqb_eq in E. subst k0.
    destruct (String.eqb k k') eqn:E'; auto.
    apply String.eqb_eq in E'. congruence.
  - now rewrite IH.
Qed.


Lemma Map_has_set m k k' v :
  Map_has m k' = true -> Map_has (Map_set m k v) k' = true.
Proof.
  unfold Map_has. intros H.
  destruct (string_dec k' k) as [->|Hne].
  - now rewrite Map_get_set_same.
  - now rewrite Map_get_set_other.
Qed.

Lemma Map_has_delete m k k' :
  k' <> k -> Map_has m k' = true -> Map_has (Map_delete m k) k' = true.
Proof.
  unfold Map_has. intros Hne H. now rewrite Map_get_delete_other.
Qed.

Lemma Map_keys_NoDup_set m k v :
  NoDup (Map_keys m) -> NoDup (Map_keys (Map_set m k v)).
Proof.
  induction m as [|[k' v'] m IH]; simpl; intros Hnd.
  - constructor; [intros []|constructor].
  - inversion Hnd as [|? ? Hnotin Hnd']; subst.
    destruct (String.eqb k' k) eqn:E; simpl.
    + constructor; auto.
    + constructor; auto.
      apply String.eqb_neq in E.
      intros Hin. apply Hnotin.
      clear - Hin E. induction m as [|[k0 v0] m IH]; simpl in *.
      * destruct Hin as [H|[]]. congruence.
      * destruct (String.eqb k0 k) eqn:E0; simpl in *; tauto.
Qed.

End MapFacts.

(** ** Classification *)

Section ClassificationFacts.
Import JS Resolve.


(** The scan of [updatePointColors] stops at the first key found among
    the values of the point. *)
Lemma some_color_find colors keys p :
  BioActivityGraph.some_color colors keys p =
    match find (includes (Point.Object_values p)) keys with
    | Some c => Point.set_color (get_value colors c) p
    | None => p
    end.
Proof.
  induction keys as [|c keys IH]; [reflexivity|].
  cbn [BioActivityGraph.some_color find].
  destruct (includes (Point.Object_values p) c); auto.
Qed.

Lemma some_shape_find shapes keys p :
  BioActivityGraph.some_shape shapes keys p =
    match find (includes (Point.Object_values p)) keys with
    | Some c => Point.set_shape (get_value shapes c) p
    | None => p
    end.
Proof.
  induction keys as [|c keys IH]; [reflexivity|].
  cbn [BioActivityGraph.some_shape find].
  destruct (includes (Point.Object_values p) c); auto.
Qed.

Lemma resolveColor_find colors p :
  resolveColor colors p =
    match find (includes (colorScan colors p)) (Map_keys colors) with
    | Some c => Some (get_value colors c)
    | None => Some (get_value colors "Default")
    end.
Proof.
  unfold resolveColor, BioActivityGraph.pointColor, colorScan.
  rewrite some_color_find.
  destruct (find _ _); reflexivity.
Qed.

Lemma resolveShape_find shapes p :
  resolveShape shapes p =
    match find (includes (shapeScan shapes p)) (Map_keys shapes) with
    | Some c => Some (get_value shapes c)
    | None => Some (get_value shapes "Default")
    end.
Proof.
  unfold resolveShape, BioActivityGraph.pointShape, shapeScan.
  rewrite some_shape_find.
  destruct (find _ _); reflexivity.
Qed.



Lemma includes_In vals k : includes vals k = true <-> In (Str k) vals.
Proof.
  unfold includes. rewrite existsb_exists. split.
  - intros (v & Hin & Hv). destruct v; simpl in Hv; try discriminate.
    apply String.eqb_eq in Hv. now subst.
  - intros Hin. exists (Str k). split; auto. simpl. apply String.eqb_refl.
Qed.


End ClassificationFacts.



(** Two rules that match the same point: the one inserted first gives the
    colour. *)
Example addRule_precedence :
  Resolve.resolveColor (JS.Map_set Examples.colors_by_accession "IC50" "#00ff00")
                       Examples.egfr_ic50 = Some (JS.Str "#ff0000")
  /\ Resolve.resolveColor (JS.Map_set [("Default", "#C0C0C0")] "IC50" "#00ff00")
                          Examples.egfr_ic50 = Some (JS.Str "#00ff00").
Proof. split; reflexivity. Qed.

(** ** The tables keep their [Default] entry *)

Section TableFacts.
Import JS BioActivityGraph.

Lemma colors_updatePointColors s : _colors (updatePointColors s) = _colors s.
Proof. reflexivity. Qed.

Lemma shapes_updatePointColors s : _shapes (updatePointColors s) = _shapes s.
Proof. reflexivity. Qed.

Lemma colors_updatePointShapes s : _colors (updatePointShapes s) = _colors s.
Proof. reflexivity. Qed.

Lemma shapes_updatePointShapes s : _shapes (updatePointShapes s) = _shapes s.
Proof. reflexivity. Qed.

Lemma colorRowClose_keeps_Default key s :
  exists s',
    colorRowClose key s = Normal s'
    /\ (Map_has (_colors s) "Default" = true -> Map_has (_colors s') "Default" = true)
    /\ _shapes s' = _shapes s.
Proof.
  unfold colorRowClose. destruct (String.eqb key "Default") eqn:E.
  - exists s. auto.
  - eexists. split; [reflexivity|]. split; [|reflexivity].
    cbn. intros H. apply Map_has_delete; auto.
    apply String.eqb_neq in E. congruence.
Qed.

Lemma shapeRowClose_keeps_Default key s :
  exists s',
    shapeRowClose key s = Normal s'
    /\ (Map_has (_shapes s) "Default" = true -> Map_has (_shapes s') "Default" = true)
    /\ _colors s' = _colors s.
Proof.
  unfold shapeRowClose. destruct (String.eqb key "Default") eqn:E.
  - exists s. auto.
  - eexists. split; [reflexivity|]. split; [|reflexivity].
    cbn. intros H. apply Map_has_delete; auto.
    apply String.eqb_neq in E. congruence.
Qed.

Lemma modalOK_keeps_Default type val upd s :
  exists s',
    modalOK type (Some val) (Some upd) s = Normal s'
    /\ (Map_has (_colors s) "Default" = true -> Map_has (_colors s') "Default" = true)
    /\ (Map_has (_shapes s) "Default" = true -> Map_has (_shapes s') "Default" = true).
Proof.
  unfold modalOK. destruct (String.eqb type "Color").
  - eexists. split; [reflexivity|]. cbn. split; auto using Map_has_set.
  - eexists. split; [reflexivity|]. cbn. split; auto using Map_has_set.
Qed.

End TableFacts.

(** C2. On both tables, closing the row keyed [Default] changes nothing and
    raises nothing: the handler returns the state it was given, so the size
    of the table and the value under [Default] are what they were; and every
    edit of a table, the dialog's OK (add) or the closing of any row
    (remove), leaves a table that has a [Default] entry with that entry. *)
Theorem remove_Default_is_noop :
  forall s : BioActivityGraph.state,
    JS.Map_has (BioActivityGraph._colors s) "Default" = true ->
    JS.Map_has (BioActivityGraph._shapes s) "Default" = true ->
    (exists s',
        BioActivityGraph.colorRowClose "Default" s = JS.Normal s'
        /\ s' = s
        /\ JS.Map_size (BioActivityGraph._colors s') = JS.Map_size (BioActivityGraph._colors s)
        /\ JS.Map_get (BioActivityGraph._colors s') "Default"
           = JS.Map_get (BioActivityGraph._colors s) "Default")
    /\ (exists s',
        BioActivityGraph.shapeRowClose "Default" s = JS.Normal s'
        /\ s' = s
        /\ JS.Map_size (BioActivityGraph._shapes s') = JS.Map_size (BioActivityGraph._shapes s)
        /\ JS.Map_get (BioActivityGraph._shapes s') "Default"
           = JS.Map_get (BioActivityGraph._shapes s) "Default")
    /\ (forall key, exists s',
        BioActivityGraph.colorRowClose key s = JS.Normal s'
        /\ JS.Map_has (BioActivityGraph._colors s') "Default" = true
        /\ JS.Map_has (BioActivityGraph._shapes s') "Default" = true)
    /\ (forall key, exists s',
        BioActivityGraph.shapeRowClose key s = JS.Normal s'
        /\ JS.Map_has (BioActivityGraph._colors s') "Default" = true
        /\ JS.Map_has (BioActivityGraph._shapes s') "Default" = true)
    /\ (forall type val upd, exists s',
        BioActivityGraph.modalOK type (Some val) (Some upd) s = JS.Normal s'
        /\ JS.Map_has (BioActivityGraph._colors s') "Default" = true
        /\ JS.Map_has (BioActivityGraph._shapes s') "Default" = true).
Proof.
  intros s Hc Hs. repeat split.
  - exists s. auto.
  - exists s. auto.
  - intros key. destruct (colorRowClose_keeps_Default key s) as (s' & H1 & H2 & H3).
    exists s'. rewrite H3. auto.
  - intros key. destruct (shapeRowClose_keeps_Default key s) as (s' & H1 & H2 & H3).
    exists s'. rewrite H3. auto.
  - intros type val upd.
    destruct (modalOK_keeps_Default type val upd s) as (s' & H1 & H2 & H3).
    exists s'. auto.
Qed.

Lemma remove_Default_is_noop_witness :
  BioActivityGraph.colorRowClose "Default" Examples.sample_state
    = JS.Normal Examples.sample_state
  /\ BioActivityGraph.shapeRowClose "Default" Examples.sample_state
     = JS.Normal Examples.sample_state.
Proof.
  destruct (remove_Default_is_noop Examples.sample_state eq_refl eq_refl)
    as ((s1 & H1 & E1 & _) & (s2 & H2 & E2 & _) & _).
  split.
  - rewrite H1, E1. reflexivity.
  - rewrite H2, E2. reflexivity.
Defined.

(** ** Every point gets a colour and a shape *)

Section ResolvedFacts.
Import JS Resolve BioActivityGraph.

Lemma Map_get_key (m : Map string) k :
  In k (Map_keys m) -> exists v, Map_get m k = Some v.
Proof.
  induction m as [|[k' v'] m IH]; simpl; [tauto|].
  intros [H|H].
  - subst. rewrite String.eqb_refl. eauto.
  - destruct (String.eqb k' k); eauto.
Qed.

Lemma get_value_key (m : Map string) k :
  In k (Map_keys m) -> exists v, get_value m k = Str v.
Proof.
  intros H. destruct (Map_get_key m k H) as (v & Hv).
  exists v. unfold get_value. now rewrite Hv.
Qed.

Lemma get_value_has (m : Map string) k :
  Map_has m k = true -> exists v, get_value m k = Str v.
Proof.
  unfold Map_has, get_value. destruct (Map_get m k); [eauto|discriminate].
Qed.

Lemma resolveColor_defined colors p :
  Map_has colors "Default" = true -> defined (resolveColor colors p).
Proof.
  intros Hd. rewrite resolveColor_find.
  destruct (find _ _) as [c|] eqn:Hf.
  - apply find_some in Hf. destruct Hf as [Hin _].
    destruct (get_value_key colors c Hin) as (v & ->). now exists v.
  - destruct (get_value_has colors _ Hd) as (v & ->). now exists v.
Qed.

Lemma resolveShape_defined shapes p :
  Map_has shapes "Default" = true -> defined (resolveShape shapes p).
Proof.
  intros Hd. rewrite resolveShape_find.
  destruct (find _ _) as [c|] eqn:Hf.
  - apply find_some in Hf. destruct Hf as [Hin _].
    destruct (get_value_key shapes c Hin) as (v & ->). now exists v.
  - destruct (get_value_has shapes _ Hd) as (v & ->). now exists v.
Qed.

(** Colouring does not touch the shape, shaping does not touch the
    colour. *)
Lemma shape_pointColor colors p : Point.shape (pointColor colors p) = Point.shape p.
Proof.
  unfold pointColor. rewrite some_color_find.
  destruct (find _ _); reflexivity.
Qed.

Lemma color_pointShape shapes p : Point.color (pointShape shapes p) = Point.color p.
Proof.
  unfold pointShape. rewrite some_shape_find.
  destruct (find _ _); reflexivity.
Qed.

End ResolvedFacts.

(** C3. Whatever the points and whatever the two tables, as long as each
    table has its [Default] entry: once [updatePointColors] and
    [updatePointShapes] have run (in the constructor's order or in the
    other), every point holds a string as colour and a string as shape. *)
Theorem every_point_resolved :
  forall s : BioActivityGraph.state,
    JS.Map_has (BioActivityGraph._colors s) "Default" = true ->
    JS.Map_has (BioActivityGraph._shapes s) "Default" = true ->
    (forall p,
        In p (BioActivityGraph._data
                (BioActivityGraph.updatePointShapes (BioActivityGraph.updatePointColors s))) ->
        Resolve.defined (Point.color p) /\ Resolve.defined (Point.shape p))
    /\ (forall p,
        In p (BioActivityGraph._data
                (BioActivityGraph.updatePointColors (BioActivityGraph.updatePointShapes s))) ->
        Resolve.defined (Point.color p) /\ Resolve.defined (Point.shape p)).
Proof.
  intros s Hc Hs. split; intros p Hin; cbn in Hin; rewrite map_map in Hin;
    apply in_map_iff in Hin; destruct Hin as (q & <- & _).
  - split.
    + rewrite color_pointShape. now apply resolveColor_defined.
    + now apply resolveShape_defined.
  - split.
    + now apply resolveColor_defined.
    + rewrite shape_pointColor. now apply resolveShape_defined.
Qed.

Lemma every_point_resolved_witness :
  Forall (fun p => Resolve.defined (Point.color p) /\ Resolve.defined (Point.shape p))
         (BioActivityGraph._data
            (BioActivityGraph.updatePointShapes
               (BioActivityGraph.updatePointColors Examples.sample_state))).
Proof.
  apply Forall_forall.
  exact (proj1 (every_point_resolved Examples.sample_state eq_refl eq_refl)).
Defined.

(** Without the [Default] entry the fallback is [undefined]: the entry is
    what makes the colour defined. *)
Example color_without_Default :
  Resolve.resolveColor [] Examples.egfr_ic50 = Some JS.undefined.
Proof. reflexivity. Qed.

(** ** The chart over its lifetime *)

Section LifetimeFacts.
Import JS D3 BioActivityGraph Resolve.

Lemma well_formed_colors s :
  Map_has (_colors s) "Default" = true ->
  Map_has (_shapes s) "Default" = true ->
  (forall p, In p (_data s) -> Resolve.defined (Point.shape p)) ->
  well_formed (updatePointColors s).
Proof.
  intros Hc Hs Hsh. repeat split; auto.
  - cbn in H. apply in_map_iff in H. destruct H as (q & <- & _).
    now apply resolveColor_defined.
  - cbn in H. apply in_map_iff in H. destruct H as (q & <- & Hq).
    rewrite shape_pointColor. now apply Hsh.
Qed.

Lemma well_formed_shapes s :
  Map_has (_colors s) "Default" = true ->
  Map_has (_shapes s) "Default" = true ->
  (forall p, In p (_data s) -> Resolve.defined (Point.color p)) ->
  well_formed (updatePointShapes s).
Proof.
  intros Hc Hs Hco. repeat split; auto.
  - cbn in H. apply in_map_iff in H. destruct H as (q & <- & Hq).
    rewrite color_pointShape. now apply Hco.
  - cbn in H. apply in_map_iff in H. destruct H as (q & <- & _).
    now apply resolveShape_defined.
Qed.

Lemma well_formed_dispatch s e : well_formed s -> well_formed (dispatch s e).
Proof.
  intros (Hc & Hs & Hp). unfold dispatch.
  destruct e as [type val upd|key|key]; cbn [handler].
  - unfold modalOK. destruct val as [val|]; [|repeat split; auto; apply Hp; auto].
    destruct upd as [upd|]; [|repeat split; auto; apply Hp; auto].
    destruct (String.eqb type "Color").
    + apply well_formed_colors; cbn; auto using Map_has_set.
      intros p H. now apply Hp.
    + apply well_formed_shapes; cbn; auto using Map_has_set.
      intros p H. now apply Hp.
  - unfold colorRowClose. destruct (String.eqb key "Default") eqn:E.
    + repeat split; auto; apply Hp; auto.
    + apply String.eqb_neq in E.
      apply well_formed_colors; cbn; auto.
      * apply Map_has_delete; congruence.
      * intros p H. now apply Hp.
  - unfold shapeRowClose. destruct (String.eqb key "Default") eqn:E.
    + repeat split; auto; apply Hp; auto.
    + apply String.eqb_neq in E.
      apply well_formed_shapes; cbn; auto.
      * apply Map_has_delete; congruence.
      * intros p H. now apply Hp.
Qed.

(** Whatever the events, the tables keep [Default] and the points keep a
    colour and a shape. *)
Lemma well_formed_run events : forall s, well_formed s -> well_formed (run events s).
Proof.
  induction events as [|e events IH]; intros s H; [exact H|].
  cbn. apply IH. now apply well_formed_dispatch.
Qed.

(** The constructor, when it builds a chart, builds a well-formed one. *)
Lemma well_formed_constructor Math_log10 scaleLog_apply scaleLog_ticks random chemblObj c i s j :
  constructor Math_log10 scaleLog_apply scaleLog_ticks random chemblObj c i = (Normal (Some s), j) ->
  well_formed s.
Proof.
  unfold constructor. destruct chemblObj as [obj|]; [|discriminate].
  destruct (Input.targetProteins obj) as [|p proteins]; [discriminate|].
  destruct (loadData (p :: proteins)) as [data|e]; [|discriminate].
  unfold rbind, ret.
  destruct (updatePointPositions _ _ _ _ i) as [s1 j1] eqn:E1.
  unfold initHistogramBins.
  destruct (rollup _ _ _) as [bins|e]; cbn [bind]; [|discriminate].
  intros H. inversion H. subst.
  assert (Hc : _colors s1 = [("Default", "#C0C0C0")]
               /\ _shapes s1 = [("Default", "Circle")]).
  { unfold updatePointPositions, rbind, ret in E1.
    destruct (mapM _ _ i). inversion E1. split; reflexivity. }
  destruct Hc as [Hc Hs].
  assert (W : well_formed (updatePointShapes (updatePointColors s1))).
  { apply well_formed_shapes; cbn; rewrite ?Hc, ?Hs; auto.
    intros q Hq. apply in_map_iff in Hq. destruct Hq as (q0 & <- & _).
    now apply resolveColor_defined. }
  exact W.
Qed.

End LifetimeFacts.

(** C10. The scan compares every key of the table, [Default] included,
    with every own property value of the point: the loaded fields with the
    numeric [value], the coordinates [x] and [y], the colour and the shape
    (the attribute being resolved holds the default at that moment). So a
    rule keyed by the default colour, or a colour rule keyed by a shape name
    once shapes are assigned, colours a point none of whose symbol,
    accession, organism and type equals a key of the table; and a point
    with an attribute reading [Default] stops the scan on the [Default]
    entry. The same holds in both class versions. *)
Theorem resolution_compares_every_property :
  (forall (table : JS.Map string) (p : Point.t),
      Resolve.colorScan table p =
        ([Point.symbol p; Point.primaryAccession p] ++ Point.own id (Point.organism p)
         ++ [JS.Num (Point.value p); JS.Str (Point.type p); Point.unit p]
         ++ Point.own JS.Num (Point.x p) ++ Point.own JS.Num (Point.y p)
         ++ [JS.get_value table "Default"] ++ Point.own id (Point.shape p))%list
      /\ Resolve.shapeScan table p =
        ([Point.symbol p; Point.primaryAccession p] ++ Point.own id (Point.organism p)
         ++ [JS.Num (Point.value p); JS.Str (Point.type p); Point.unit p]
         ++ Point.own JS.Num (Point.x p) ++ Point.own JS.Num (Point.y p)
         ++ Point.own id (Point.color p) ++ [JS.get_value table "Default"])%list
      /\ Resolve.resolveColor table p =
           Some (JS.get_value table
                   match find (JS.includes (Resolve.colorScan table p)) (JS.Map_keys table) with
                   | Some k => k
                   | None => "Default"
                   end)
      /\ Resolve.resolveShape table p =
           Some (JS.get_value table
                   match find (JS.includes (Resolve.shapeScan table p)) (JS.Map_keys table) with
                   | Some k => k
                   | None => "Default"
                   end))
  /\ (exists (colors : JS.Map string) (p : Point.t) (k : string),
         Resolve.unlisted (JS.Map_keys colors) p
         /\ k <> "Default"
         /\ In k (JS.Map_keys colors)
         /\ Resolve.resolveColor colors p = Some (JS.get_value colors k)
         /\ JS.get_value colors k <> JS.get_value colors "Default")
  /\ (Resolve.unlisted (JS.Map_keys Examples.colors_by_default_color) Examples.egfr_ic50
      /\ Resolve.resolveColor Examples.colors_by_default_color Examples.egfr_ic50
         = Some (JS.Str "#ff0000"))
  /\ (Resolve.unlisted (JS.Map_keys Examples.colors_by_shape_name) Examples.egfr_ic50
      /\ Resolve.resolveColor Examples.colors_by_shape_name Examples.egfr_ic50
         = Some (JS.Str "#00ff00"))
  /\ (Resolve.unlisted (JS.Map_keys Examples.shapes_by_default_shape) Examples.egfr_ic50
      /\ Resolve.resolveShape Examples.shapes_by_default_shape Examples.egfr_ic50
         = Some (JS.Str "Star"))
  /\ (JS.includes (Resolve.colorScan Examples.colors_by_type Examples.default_ic50) "IC50"
      = true
      /\ Resolve.resolveColor Examples.colors_by_type Examples.default_ic50
         = Some (JS.Str "#C0C0C0"))
  /\ (Resolve.unlisted (BioActivityGraphV1.Object_keys Examples.colors_by_default_color)
                        Examples.egfr_ic50_v1
      /\ Point.color (BioActivityGraphV1.pointColor Examples.colors_by_default_color
                                                    Examples.egfr_ic50_v1)
         = Some (JS.Str "#ff0000")).
Proof.
  assert (Hun : forall keys p,
             forallb (fun k => negb (JS.includes (Resolve.listed_attributes p) k)) keys = true ->
             Resolve.unlisted keys p).
  { intros keys p H k Hin Hk. rewrite forallb_forall in H.
    specialize (H k Hin). apply includes_In in Hk. rewrite Hk in H. discriminate. }
  split; [|split; [|repeat split]].
  - intros table p. repeat split.
    + rewrite resolveColor_find. destruct (find _ _); reflexivity.
    + rewrite resolveShape_find. destruct (find _ _); reflexivity.
  - exists Examples.colors_by_default_color, Examples.egfr_ic50, "#C0C0C0".
    repeat split.
    + now apply Hun.
    + discriminate.
    + simpl. auto.
    + discriminate.
  - now apply Hun.
  - now apply Hun.
  - now apply Hun.
  - now apply Hun.
Qed.

(** ** Loading *)

Section LoadFacts.
Import JS.

(** The inner loop of class version 2.0 on one protein. *)
Lemma loadData_inner p acts points :
  forEach (BioActivityGraph.pushPoint p) acts points =
  match Input.organism (Input.protein p), acts with
  | None, _ :: _ =>
      Throw (TypeError "Cannot read properties of undefined (reading 'name')")
  | _, _ => Normal (points ++ map (Pairs.point_of (Pairs.organism_name p) p) acts)%list
  end.
Proof.
  unfold Pairs.organism_name.
  revert points. induction acts as [|a acts IH]; intros points.
  - simpl. rewrite app_nil_r. now destruct (Input.organism _).
  - cbn [forEach]. unfold BioActivityGraph.pushPoint at 1.
    destruct (Input.organism (Input.protein p)) as [o|] eqn:E; [|reflexivity].
    cbn [bind]. rewrite IH. cbn [map]. rewrite <- app_assoc. reflexivity.
Qed.

Lemma loadData_from_ok proteins : forall points,
  (forall p, In p proteins -> ~ Pairs.lacks_organism p) ->
  forEach BioActivityGraph.pushProtein proteins points =
    Normal (points ++ Pairs.flatten Pairs.organism_name proteins)%list.
Proof.
  induction proteins as [|p proteins IH]; intros points Hok.
  - simpl. now rewrite app_nil_r.
  - cbn [forEach]. unfold BioActivityGraph.pushProtein at 1. rewrite loadData_inner.
    assert (Hp : ~ Pairs.lacks_organism p) by (apply Hok; now left).
    unfold Pairs.lacks_organism in Hp.
    assert (Hrest : forall q, In q proteins -> ~ Pairs.lacks_organism q)
      by (intros q Hq; apply Hok; now right).
    unfold Pairs.flatten. cbn [flat_map]. fold (Pairs.flatten Pairs.organism_name proteins).
    destruct (Input.organism (Input.protein p)) as [o|] eqn:E.
    + cbn [bind]. rewrite IH by assumption. now rewrite <- app_assoc.
    + destruct (Input.activities p) as [|a acts] eqn:Ea.
      * cbn [bind]. rewrite IH by assumption. now rewrite <- app_assoc.
      * exfalso. apply Hp. split; [reflexivity|discriminate].
Qed.

Lemma loadData_from_throw proteins : forall points,
  (exists p, In p proteins /\ Pairs.lacks_organism p) ->
  forEach BioActivityGraph.pushProtein proteins points =
    Throw (TypeError "Cannot read properties of undefined (reading 'name')").
Proof.
  induction proteins as [|p proteins IH]; intros points (q & Hin & Hq).
  - destruct Hin.
  - cbn [forEach]. unfold BioActivityGraph.pushProtein at 1. rewrite loadData_inner.
    destruct (Input.organism (Input.protein p)) as [o|] eqn:E.
    + cbn [bind]. apply IH. destruct Hin as [->|Hin]; [|eauto].
      destruct Hq as [Hq _]. congruence.
    + destruct (Input.activities p) as [|a acts] eqn:Ea; [|reflexivity].
      cbn [bind]. apply IH. destruct Hin as [->|Hin]; [|eauto].
      destruct Hq as [_ Hq]. congruence.
Qed.

Lemma lacks_organism_dec proteins :
  (exists p, In p proteins /\ Pairs.lacks_organism p)
  \/ (forall p, In p proteins -> ~ Pairs.lacks_organism p).
Proof.
  induction proteins as [|p proteins [(q & Hin & Hq)|IH]].
  - right. intros p [].
  - left. exists q. split; [now right|assumption].
  - unfold Pairs.lacks_organism.
    destruct (Input.organism (Input.protein p)) as [o|] eqn:E.
    + right. intros q [<-|Hq]; [rewrite E; intros [H _]; discriminate|now apply IH].
    + destruct (Input.activities p) as [|a acts] eqn:Ea.
      * right. intros q [<-|Hq]; [rewrite Ea; intros [_ H]; congruence|now apply IH].
      * left. exists p. split; [now left|]. rewrite E, Ea. split; [reflexivity|discriminate].
Qed.

(** Class version 1.1: the two loops lay the pairs out in order. *)
Lemma loadData_v1_inner p acts points :
  fold_left (BioActivityGraphV1.pushPoint p) acts points =
  (points ++ map (Pairs.point_of None p) acts)%list.
Proof.
  revert points. induction acts as [|a acts IH]; intros points; simpl.
  - now rewrite app_nil_r.
  - rewrite IH. unfold BioActivityGraphV1.pushPoint. rewrite <- app_assoc. reflexivity.
Qed.

Lemma loadData_v1_from proteins : forall points,
  fold_left BioActivityGraphV1.pushProtein proteins points =
  (points ++ Pairs.flatten (fun _ => None) proteins)%list.
Proof.
  induction proteins as [|p proteins IH]; intros points; simpl.
  - now rewrite app_nil_r.
  - rewrite IH. unfold BioActivityGraphV1.pushProtein.
    rewrite loadData_v1_inner, <- app_assoc. reflexivity.
Qed.

Lemma flatten_length org proteins :
  List.length (Pairs.flatten org proteins) = Pairs.count proteins.
Proof.
  unfold Pairs.flatten, Pairs.count.
  induction proteins as [|p proteins IH]; simpl; auto.
  now rewrite length_app, length_map, IH.
Qed.

Lemma flatten_nil org proteins :
  Pairs.flatten org proteins = [] <->
  (forall p, In p proteins -> Input.activities p = []).
Proof.
  unfold Pairs.flatten. induction proteins as [|p proteins IH]; simpl.
  - split; auto. intros _ p [].
  - split.
    + intros H. apply app_eq_nil in H. destruct H as [H1 H2].
      intros q [<-|Hq].
      * destruct (Input.activities p); [reflexivity|discriminate].
      * now apply IH.
    + intros H. rewrite (H p) by now left. simpl. apply IH.
      intros q Hq. apply H. now right.
Qed.

Lemma flatten_unset org proteins pt :
  In pt (Pairs.flatten org proteins) ->
  Point.x pt = None /\ Point.y pt = None
  /\ Point.color pt = None /\ Point.shape pt = None.
Proof.
  unfold Pairs.flatten. rewrite in_flat_map.
  intros (p & _ & Hin). apply in_map_iff in Hin.
  destruct Hin as (a & <- & _). repeat split.
Qed.

End LoadFacts.

(** C4, as the code has it. [loadData] lays out one point per (protein,
    activity) pair, proteins outer and activities inner, with the raw fields
    copied and [x], [y], [color] and [shape] not yet set: always in class
    version 1.1, and in class version 2.0 whenever every protein that has
    an activity has an organism. The result is empty exactly when no protein
    record carries an activity, which includes the empty input. *)
Theorem loadData_one_point_per_pair :
  (forall proteins : list Input.TargetProtein,
      BioActivityGraphV1.loadData proteins = Pairs.flatten (fun _ => None) proteins
      /\ List.length (BioActivityGraphV1.loadData proteins) = Pairs.count proteins
      /\ (forall pt, In pt (BioActivityGraphV1.loadData proteins) ->
                     Point.x pt = None /\ Point.y pt = None
                     /\ Point.color pt = None /\ Point.shape pt = None)
      /\ (BioActivityGraphV1.loadData proteins = [] <->
          forall p, In p proteins -> Input.activities p = []))
  /\ (forall proteins : list Input.TargetProtein,
      (forall p, In p proteins -> ~ Pairs.lacks_organism p) ->
      exists points,
        BioActivityGraph.loadData proteins = JS.Normal points
        /\ points = Pairs.flatten Pairs.organism_name proteins
        /\ List.length points = Pairs.count proteins
        /\ (forall pt, In pt points ->
                       Point.x pt = None /\ Point.y pt = None
                       /\ Point.color pt = None /\ Point.shape pt = None)
        /\ (points = [] <-> forall p, In p proteins -> Input.activities p = [])).
Proof.
  split.
  - intros proteins.
    assert (E : BioActivityGraphV1.loadData proteins
                = Pairs.flatten (fun _ => None) proteins).
    { unfold BioActivityGraphV1.loadData. now rewrite loadData_v1_from. }
    rewrite E. repeat split.
    + apply flatten_length.
    + apply (flatten_unset _ _ _ H).
    + apply (flatten_unset _ _ _ H).
    + apply (flatten_unset _ _ _ H).
    + apply (flatten_unset _ _ _ H).
    + apply flatten_nil.
    + apply flatten_nil.
  - intros proteins Hok.
    exists (Pairs.flatten Pairs.organism_name proteins).
    split; [|split; [reflexivity|split; [apply flatten_length|split]]].
    + unfold BioActivityGraph.loadData. now rewrite loadData_from_ok.
    + intros pt Hpt. apply (flatten_unset _ _ _ Hpt).
    + apply flatten_nil.
Qed.

Lemma loadData_one_point_per_pair_witness :
  exists points,
    BioActivityGraph.loadData [Examples.silent_protein; Examples.measured_protein]
      = JS.Normal points
    /\ points = Pairs.flatten Pairs.organism_name
                              [Examples.silent_protein; Examples.measured_protein]
    /\ List.length points = 2%nat.
Proof.
  destruct (proj2 loadData_one_point_per_pair
              [Examples.silent_protein; Examples.measured_protein])
    as (points & H1 & H2 & H3 & _).
  - intros p [<-|[<-|[]]]; intros [H _]; discriminate.
  - exists points. auto.
Defined.

(** C4, as stated, fails: a protein record without activities makes a
    non-empty input that loads to the empty list, in both class versions. *)
Lemma loadData_empty_on_nonempty_input :
  BioActivityGraph.loadData [Examples.silent_protein] = JS.Normal []
  /\ BioActivityGraphV1.loadData [Examples.silent_protein] = []
  /\ [Examples.silent_protein] <> [].
Proof. repeat split. discriminate. Qed.

Lemma flatten_units org proteins :
  map Point.unit (Pairs.flatten org proteins)
  = map Input.unit (flat_map Input.activities proteins).
Proof.
  unfold Pairs.flatten. induction proteins as [|p proteins IH]; [reflexivity|].
  cbn [flat_map]. rewrite !map_app, IH, map_map. reflexivity.
Qed.

(** C5, as the code has it. Class version 1.1 does not read the organism:
    it loads every input, one point per (protein, activity) pair in order.
    Class version 2.0 reads [p.protein.organism.name], which its own query
    selects: it loads the same pairs, each with the name of its organism,
    when every protein record with an activity has an organism, and throws
    a [TypeError] for the whole input otherwise; this is the only way it
    throws. In both the unit of an activity is copied as it is,
    [undefined] where the activity has none. *)
Theorem loadData_missing_organism :
  (forall proteins,
      BioActivityGraphV1.loadData proteins = Pairs.flatten (fun _ => None) proteins)
  /\ (forall proteins,
        (forall p, In p proteins -> ~ Pairs.lacks_organism p) ->
        BioActivityGraph.loadData proteins
        = JS.Normal (Pairs.flatten Pairs.organism_name proteins))
  /\ (forall proteins,
        (exists p, In p proteins /\ Pairs.lacks_organism p) ->
        BioActivityGraph.loadData proteins
        = JS.Throw (JS.TypeError "Cannot read properties of undefined (reading 'name')"))
  /\ (forall proteins e,
        BioActivityGraph.loadData proteins = JS.Throw e ->
        exists p, In p proteins /\ Pairs.lacks_organism p)
  /\ (forall org proteins,
        map Point.unit (Pairs.flatten org proteins)
        = map Input.unit (flat_map Input.activities proteins))
  /\ BioActivityGraph.loadData [Examples.measured_protein]
     = JS.Normal [Pairs.point_of (Some (JS.Str "Homo sapiens")) Examples.measured_protein
                                 Examples.ic50_5;
                  Pairs.point_of (Some (JS.Str "Homo sapiens")) Examples.measured_protein
                                 Examples.ki_50_without_unit]
  /\ Point.unit (Pairs.point_of (Some (JS.Str "Homo sapiens")) Examples.measured_protein
                                Examples.ki_50_without_unit) = JS.undefined
  /\ BioActivityGraphV1.loadData [Examples.measured_without_organism]
     = [Pairs.point_of None Examples.measured_without_organism Examples.ic50_5;
        Pairs.point_of None Examples.measured_without_organism
                       Examples.ki_50_without_unit].
Proof.
  split; [|split; [|split; [|split; [|split]]]].
  - intros proteins. unfold BioActivityGraphV1.loadData. now rewrite loadData_v1_from.
  - intros proteins H. unfold BioActivityGraph.loadData.
    now rewrite loadData_from_ok.
  - intros proteins H. unfold BioActivityGraph.loadData.
    now rewrite loadData_from_throw.
  - intros proteins e He.
    destruct (lacks_organism_dec proteins) as [H|H]; [assumption|].
    unfold BioActivityGraph.loadData in He.
    rewrite loadData_from_ok in He by assumption. discriminate.
  - intros org proteins. apply flatten_units.
  - repeat split.
Qed.

(** C5, as stated, fails for the organism: a protein record with two
    activities and no organism makes [loadData] of class version 2.0 throw,
    and no point is produced. *)
Lemma loadData_throws_without_organism :
  Input.organism (Input.protein Examples.measured_without_organism) = None
  /\ BioActivityGraph.loadData [Examples.measured_without_organism]
     = JS.Throw (JS.TypeError "Cannot read properties of undefined (reading 'name')")
  /\ forall points,
       BioActivityGraph.loadData [Examples.measured_without_organism] <> JS.Normal points.
Proof. split; [reflexivity|]. split; [reflexivity|]. intros points. discriminate. Qed.

(** ** Decimal exponents *)

Section Log10Facts.
Import JS D3.
Local Open Scope Z_scope.

Lemma pow10_pos (k : Z) : 0 < 10 ^ k \/ k < 0.
Proof.
  destruct (Z.lt_ge_cases k 0); [now right|left].
  apply Z.pow_pos_nonneg; lia.
Qed.

Lemma pow10_succ (k : Z) : 0 <= k -> 10 ^ (k + 1) = 10 * 10 ^ k.
Proof. intros H. rewrite Z.pow_add_r by lia. lia. Qed.

(** Enough fuel: ten to the binary length exceeds the number. *)
Lemma pow10_log2_gt (n : Z) : 0 < n -> n < 10 ^ Z.of_nat (S (Z.to_nat (Z.log2 n))).
Proof.
  intros Hn.
  pose proof (Z.log2_nonneg n) as Hl.
  rewrite Nat2Z.inj_succ, Z2Nat.id by assumption.
  destruct (Z.log2_spec n Hn) as [_ Hlt].
  apply Z.lt_le_trans with (1 := Hlt).
  apply Z.pow_le_mono_l. lia.
Qed.

Lemma log10_up_spec (fuel : nat) : forall n m k,
  0 < m -> m <= n -> n < m * 10 ^ Z.of_nat fuel ->
  k <= Decimal.log10_up fuel n m k
  /\ m * 10 ^ (Decimal.log10_up fuel n m k - k) <= n
  /\ n < m * 10 ^ (Decimal.log10_up fuel n m k - k + 1).
Proof.
  induction fuel as [|fuel IH]; intros n m k Hm Hle Hlt.
  - simpl in Hlt. lia.
  - cbn [Decimal.log10_up]. destruct (10 * m <=? n) eqn:E.
    + apply Z.leb_le in E.
      destruct (IH n (10 * m) (k + 1)) as (H1 & H2 & H3); [lia|lia| |].
      * rewrite Nat2Z.inj_succ, <- Z.add_1_r, pow10_succ in Hlt by lia. lia.
      * set (r := Decimal.log10_up fuel n (10 * m) (k + 1)) in *.
        replace (r - k) with ((r - (k + 1)) + 1) by lia.
        rewrite pow10_succ by lia.
        replace (r - (k + 1) + 1 + 1) with ((r - (k + 1) + 1) + 1) by lia.
        rewrite (pow10_succ (r - (k + 1) + 1)) by lia.
        rewrite (pow10_succ (r - (k + 1))) in * by lia.
        repeat split; lia.
    + apply Z.leb_gt in E. rewrite Z.sub_diag. simpl. lia.
Qed.

Lemma log10_down_spec (fuel : nat) : forall m d j,
  0 < m -> m < 10 * d -> 10 * d <= m * 10 ^ Z.of_nat fuel ->
  j <= Decimal.log10_down fuel m d j
  /\ d <= m * 10 ^ (Decimal.log10_down fuel m d j - j)
  /\ m * 10 ^ (Decimal.log10_down fuel m d j - j) < 10 * d.
Proof.
  induction fuel as [|fuel IH]; intros m d j Hm Hlt Hle.
  - change (Z.of_nat 0) with 0 in Hle. rewrite Z.pow_0_r in Hle. lia.
  - cbn [Decimal.log10_down]. destruct (d <=? m) eqn:E.
    + apply Z.leb_le in E. rewrite Z.sub_diag, Z.pow_0_r. lia.
    + apply Z.leb_gt in E.
      destruct (IH (10 * m) d (j + 1)) as (H1 & H2 & H3); [lia|lia| |].
      * rewrite Nat2Z.inj_succ, <- Z.add_1_r, pow10_succ in Hle by lia. lia.
      * set (r := Decimal.log10_down fuel (10 * m) d (j + 1)) in *.
        replace (r - j) with ((r - (j + 1)) + 1) by lia.
        rewrite pow10_succ by lia.
        repeat split; lia.
Qed.

Lemma pow10Q_nonneg (k : Z) : 0 <= k -> pow10Q k = inject_Z (10 ^ k).
Proof.
  intros H. unfold pow10Q. apply Z.leb_le in H. now rewrite H.
Qed.

Lemma pow10Q_neg (k : Z) : k < 0 -> pow10Q k = Qmake 1 (Z.to_pos (10 ^ (- k))).
Proof.
  intros H. unfold pow10Q. apply Z.leb_gt in H. now rewrite H.
Qed.

Lemma Zpos_pow10 (k : Z) : 0 <= k -> Zpos (Z.to_pos (10 ^ k)) = 10 ^ k.
Proof.
  intros H. apply Z2Pos.id. apply Z.pow_pos_nonneg; lia.
Qed.



(** [decade] is the integer part of the decimal logarithm. *)
Lemma decade_spec (q : Q) :
  (0 < q)%Q ->
  (pow10Q (Decimal.decade q) <= q)%Q /\ (q < pow10Q (Decimal.decade q + 1))%Q.
Proof.
  destruct q as [n d]. unfold Qlt at 1. simpl. rewrite Z.mul_1_r. intros Hn.
  unfold Decimal.decade. simpl Qnum. simpl Qden.
  destruct (Z.pos d <=? n) eqn:E.
  - apply Z.leb_le in E.
    destruct (log10_up_spec (S (Z.to_nat (Z.log2 n))) n (Z.pos d) 0)
      as (H1 & H2 & H3); [lia|lia| |].
    + pose proof (pow10_log2_gt n Hn). nia.
    + set (r := Decimal.log10_up _ n (Z.pos d) 0) in *.
      rewrite Z.sub_0_r in *.
      rewrite !pow10Q_nonneg by lia.
      unfold Qle, Qlt. simpl. split; lia.
  - apply Z.leb_gt in E.
    destruct (log10_down_spec (S (Z.to_nat (Z.log2 (Z.pos d)))) (10 * n) (Z.pos d) 1)
      as (H1 & H2 & H3); [lia|lia| |].
    + pose proof (pow10_log2_gt (Z.pos d) ltac:(lia)). nia.
    + set (r := Decimal.log10_down _ (10 * n) (Z.pos d) 1) in *.
      assert (Hr : 10 * 10 ^ (r - 1) = 10 ^ r).
      { replace r with ((r - 1) + 1) at 2 by lia. rewrite pow10_succ by lia. lia. }
      split.
      * rewrite pow10Q_neg by lia.
        unfold Qle. simpl. rewrite Z.opp_involutive, Zpos_pow10 by lia. nia.
      * destruct (Z.eq_dec r 1) as [Hr1|Hr1].
        -- rewrite Hr1. simpl. unfold Qlt. simpl. lia.
        -- rewrite pow10Q_neg by lia.
           unfold Qlt. simpl.
           replace (- (- r + 1)) with (r - 1) by lia.
           rewrite Zpos_pow10 by lia. nia.
Qed.

(** Floor and ceiling of a rational, by their bounds. *)
Lemma Qfloor_bounds (x : Q) (k : Z) :
  (inject_Z k <= x)%Q -> (x < inject_Z (k + 1))%Q -> Qfloor x = k.
Proof.
  intros Hlo Hhi.
  pose proof (Qfloor_le x) as F1. pose proof (Qlt_floor x) as F2.
  assert (A : (inject_Z k < inject_Z (Qfloor x + 1))%Q) by (eapply Qle_lt_trans; eauto).
  assert (B : (inject_Z (Qfloor x) < inject_Z (k + 1))%Q) by (eapply Qle_lt_trans; eauto).
  rewrite <- Zlt_Qlt in A, B. lia.
Qed.

Lemma Qceiling_bounds (x : Q) (k : Z) :
  (inject_Z (k - 1) < x)%Q -> (x <= inject_Z k)%Q -> Qceiling x = k.
Proof.
  intros Hlo Hhi.
  pose proof (Qle_ceiling x) as F1. pose proof (Qceiling_lt x) as F2.
  assert (A : (inject_Z (k - 1) < inject_Z (Qceiling x))%Q) by (eapply Qlt_le_trans; eauto).
  assert (B : (inject_Z (Qceiling x - 1) < inject_Z k)%Q) by (eapply Qlt_le_trans; eauto).
  rewrite <- Zlt_Qlt in A, B. lia.
Qed.








(** The sample logarithm has the floor and the ceiling of the decimal
    logarithm, and so puts every positive number in its decade. *)
Lemma sample_log10_floor (q : Q) : Qfloor (Decimal.log10 q) = Decimal.decade q.
Proof.
  unfold Decimal.log10. destruct (Qeq_bool q _).
  - apply Qfloor_Z.
  - apply Qfloor_bounds.
    + lra.
    + rewrite inject_Z_plus. change (inject_Z 1) with 1%Q. lra.
Qed.

Lemma sample_log10_ceiling (q : Q) :
  Qceiling (Decimal.log10 q)
  = if Qeq_bool q (pow10Q (Decimal.decade q)) then Decimal.decade q
    else Decimal.decade q + 1.
Proof.
  unfold Decimal.log10. destruct (Qeq_bool q _).
  - apply Qceiling_Z.
  - apply Qceiling_bounds.
    + replace (Decimal.decade q + 1 - 1) with (Decimal.decade q) by lia. lra.
    + rewrite inject_Z_plus. change (inject_Z 1) with 1%Q. lra.
Qed.

Lemma sample_log10_brackets (q : Q) : (0 < q)%Q -> Binning.brackets Decimal.log10 q.
Proof.
  intros Hq. destruct (decade_spec q Hq) as [Hlo Hhi].
  unfold Binning.brackets. rewrite sample_log10_floor, sample_log10_ceiling.
  split; [exact Hlo|].
  destruct (Qeq_bool q (pow10Q (Decimal.decade q))) eqn:E.
  - apply Qeq_bool_iff in E. rewrite <- E. apply Qle_refl.
  - now apply Qlt_le_weak.
Qed.

End Log10Facts.

(** ** The vertical scale over a single value *)

Section SingleValueFacts.
Import JS D3.








End SingleValueFacts.




(** ** Layout *)

Section LayoutFacts.
Import JS D3.

(** A pass that draws nothing is a plain [map]. *)
Lemma mapM_ret {A B} (g : A -> B) (l : list A) (i : nat) :
  mapM (fun a => ret (g a)) l i = (map g l, i).
Proof.
  induction l as [|a l IH]; [reflexivity|].
  cbn [mapM map]. unfold rbind, ret in *. now rewrite IH.
Qed.

(** A pass that draws once per element gives the [k]-th element the
    [k]-th draw. *)
Lemma mapM_draw {A B} (random : nat -> Q) (f : A -> rnd B) (g : A -> Q -> B) :
  (forall a i, f a i = (g a (random i), S i)) ->
  forall (l : list A) (i : nat),
    snd (mapM f l i) = (i + List.length l)%nat
    /\ List.length (fst (mapM f l i)) = List.length l
    /\ forall k a, nth_error l k = Some a ->
                   nth_error (fst (mapM f l i)) k = Some (g a (random (i + k)%nat)).
Proof.
  intros Hf. induction l as [|a l IH]; intros i.
  - cbn. repeat split; [lia|]. intros [|k] a H; discriminate.
  - assert (E : mapM f (a :: l) i
                = (g a (random i) :: fst (mapM f l (S i)), snd (mapM f l (S i)))).
    { cbn [mapM]. unfold rbind, ret. rewrite Hf.
      now destruct (mapM f l (S i)). }
    rewrite E. destruct (IH (S i)) as (H1 & H2 & H3).
    cbn [fst snd List.length]. repeat split; [lia|lia|].
    intros [|k] b Hk; cbn [nth_error] in *.
    + inversion Hk. subst. now rewrite Nat.add_0_r.
    + rewrite (H3 k b Hk). now rewrite Nat.add_succ_r.
Qed.

Lemma index_of_In (t : string) (l : list string) :
  In t l -> exists i, index_of t l = Some i.
Proof.
  induction l as [|x l IH]; [intros []|]. intros Hin. cbn [index_of].
  destruct (String.eqb x t) eqn:E; [eauto|].
  apply String.eqb_neq in E. destruct Hin as [H|H]; [contradiction|].
  destruct (IH H) as (i & ->). cbn. eauto.
Qed.

Lemma uniq_In (t : string) (l : list string) : forall seen,
  In t l -> existsb (String.eqb t) seen = false -> In t (uniq seen l).
Proof.
  induction l as [|x l IH]; intros seen Hin Hseen; [destruct Hin|].
  cbn [uniq]. destruct (string_dec x t) as [->|Hne].
  - rewrite Hseen. now left.
  - destruct Hin as [H|H]; [contradiction|].
    destruct (existsb (String.eqb x) seen).
    + now apply IH.
    + right. apply IH; [assumption|].
      cbn [existsb]. rewrite Hseen.
      apply String.eqb_neq in Hne. rewrite String.eqb_sym in Hne. now rewrite Hne.
Qed.

(** Every label given to [scaleBand_make] has a band. *)
Lemma band_apply_label labels range padding t :
  In t labels ->
  exists b, band_apply (scaleBand_make labels range padding) t = Some (Fin b).
Proof.
  intros Hin. unfold band_apply, scaleBand_make. cbn [band_domain].
  destruct (index_of_In t (uniq [] labels)) as (i & ->).
  - now apply uniq_In.
  - eauto.
Qed.

Lemma Qmax1_pos x : (0 < Qmax1 x)%Q.
Proof.
  unfold Qmax1. destruct (Qle_bool 1 x) eqn:E; [|reflexivity].
  apply Qle_bool_iff in E. lra.
Qed.

(** An ascending range of positive length with a padding below one gives
    bands of positive width. *)
Lemma bandwidth_pos (s : scaleBand) :
  (fst (band_range s) < snd (band_range s))%Q ->
  (band_padding s < 1)%Q ->
  exists bw, bandwidth s = Fin bw /\ (0 < bw)%Q.
Proof.
  intros Hr Hp. eexists. split; [reflexivity|].
  assert (Hrev : band_reverse s = false).
  { unfold band_reverse. apply negb_false_iff. apply Qle_bool_iff. lra. }
  unfold band_step, band_hi, band_lo. rewrite Hrev.
  apply Qmult_lt_0_compat; [|lra].
  unfold Qdiv. apply Qmult_lt_0_compat; [lra|].
  apply Qinv_lt_0_compat. apply Qmax1_pos.
Qed.

End LayoutFacts.

Section PositionFacts.
Import JS D3.

Variable scaleLog_apply : scaleLog -> number -> number.
Variable random : nat -> Q.

Lemma updatePointPositions_data c s i :
  BioActivityGraph._data
    (fst (BioActivityGraph.updatePointPositions scaleLog_apply random c s i))
  = fst (mapM (BioActivityGraph.positionPoint scaleLog_apply random
                 (BioActivityGraph.cb_jitter c) (BioActivityGraph.cb_violin c)
                 (BioActivityGraph._xAxis s) (BioActivityGraph._yAxis s)
                 (div (bandwidth (BioActivityGraph._xAxis s)) (Fin 4)))
              (BioActivityGraph._data s) i).
Proof.
  unfold BioActivityGraph.updatePointPositions, rbind, ret.
  now destruct (mapM _ _ i).
Qed.

(** Without jitter every point is moved by twice the quarter band. *)
Lemma positions_no_jitter violin X Y xwidth data i :
  mapM (BioActivityGraph.positionPoint scaleLog_apply random false violin X Y xwidth) data i
  = (map (fun d => Point.set_y (scaleLog_apply Y (Point.value d))
                     (Point.set_x (add (ToNumber (band_apply X (Point.type d)))
                                       (mul (Fin 2) xwidth)) d)) data, i).
Proof.
  exact (mapM_ret (fun d => Point.set_y (scaleLog_apply Y (Point.value d))
                              (Point.set_x (add (ToNumber (band_apply X (Point.type d)))
                                                (mul (Fin 2) xwidth)) d)) data i).
Qed.

(** With jitter and without violin every point makes one draw of its own. *)
Lemma positions_jitter X Y xwidth data i :
  snd (mapM (BioActivityGraph.positionPoint scaleLog_apply random true false X Y xwidth)
            data i) = (i + List.length data)%nat
  /\ List.length (fst (mapM (BioActivityGraph.positionPoint scaleLog_apply random
                               true false X Y xwidth) data i)) = List.length data
  /\ forall k d, nth_error data k = Some d ->
       nth_error (fst (mapM (BioActivityGraph.positionPoint scaleLog_apply random
                               true false X Y xwidth) data i)) k
       = Some (Point.set_y (scaleLog_apply Y (Point.value d))
                 (Point.set_x (add (ToNumber (band_apply X (Point.type d)))
                                   (add xwidth (mul (mul xwidth (Fin 2))
                                                    (Fin (random (i + k)%nat))))) d)).
Proof.
  apply (mapM_draw random
           (BioActivityGraph.positionPoint scaleLog_apply random true false X Y xwidth)
           (fun d r => Point.set_y (scaleLog_apply Y (Point.value d))
                         (Point.set_x (add (ToNumber (band_apply X (Point.type d)))
                                           (add xwidth (mul (mul xwidth (Fin 2)) (Fin r)))) d))).
  reflexivity.
Qed.

(** Class version 1.1 without jitter: the offset never changes. *)
Lemma positions_v1_no_jitter X Y dx points i :
  BioActivityGraphV1.positions scaleLog_apply random false X Y dx points i
  = (map (fun d => Point.set_y (scaleLog_apply Y (Point.value d))
                     (Point.set_x (add (ToNumber (band_apply X (Point.type d))) dx) d))
         points, i).
Proof.
  revert i. induction points as [|d points IH]; intros i; [reflexivity|].
  cbn [BioActivityGraphV1.positions map]. unfold rbind, ret in *.
  now rewrite IH.
Qed.

(** Class version 1.1 with jitter: the [k]-th point receives
    [offset_v1 _ _ _ k], which its own draw does not enter. *)
Lemma positions_v1_jitter X Y bw points : forall i0 j i,
  i = (i0 + j)%nat ->
  snd (BioActivityGraphV1.positions scaleLog_apply random true X Y
         (Fin (Jitter.offset_v1 random bw i0 j)) points i) = (i + List.length points)%nat
  /\ forall k d, nth_error points k = Some d ->
       nth_error (fst (BioActivityGraphV1.positions scaleLog_apply random true X Y
                         (Fin (Jitter.offset_v1 random bw i0 j)) points i)) k
       = Some (Point.set_y (scaleLog_apply Y (Point.value d))
                 (Point.set_x (add (ToNumber (band_apply X (Point.type d)))
                                   (Fin (Jitter.offset_v1 random bw i0 (j + k)))) d)).
Proof.
  induction points as [|d points IH]; intros i0 j i Hi.
  - cbn. split; [lia|]. intros [|k] d H; discriminate.
  - assert (E : BioActivityGraphV1.positions scaleLog_apply random true X Y
                  (Fin (Jitter.offset_v1 random bw i0 j)) (d :: points) i
                = (Point.set_y (scaleLog_apply Y (Point.value d))
                     (Point.set_x (add (ToNumber (band_apply X (Point.type d)))
                                       (Fin (Jitter.offset_v1 random bw i0 j))) d)
                   :: fst (BioActivityGraphV1.positions scaleLog_apply random true X Y
                             (Fin (Jitter.offset_v1 random bw i0 (S j))) points (S i)),
                   snd (BioActivityGraphV1.positions scaleLog_apply random true X Y
                          (Fin (Jitter.offset_v1 random bw i0 (S j))) points (S i)))).
    { cbn [BioActivityGraphV1.positions]. unfold rbind, ret, Math_random.
      assert (Hdx : sub (Fin (Jitter.offset_v1 random bw i0 j))
                        (mul (div (Fin (Jitter.offset_v1 random bw i0 j)) (Fin 2))
                             (Fin (random i)))
                    = Fin (Jitter.offset_v1 random bw i0 (S j))).
      { subst i. reflexivity. }
      rewrite Hdx. now destruct (BioActivityGraphV1.positions _ _ _ _ _ _ _ _). }
    rewrite E. destruct (IH i0 (S j) (S i) ltac:(lia)) as [H1 H2].
    cbn [fst snd List.length]. split; [lia|].
    intros [|k] p Hk; cbn [nth_error] in *.
    + inversion Hk. subst. now rewrite Nat.add_0_r.
    + rewrite (H2 k p Hk). now rewrite Nat.add_succ_r.
Qed.

Lemma updatePointPositions_v1_points jitter s i :
  BioActivityGraphV1._points
    (fst (BioActivityGraphV1.updatePointPositions scaleLog_apply random jitter s i))
  = fst (BioActivityGraphV1.positions scaleLog_apply random jitter
           (BioActivityGraphV1._xAxis s) (BioActivityGraphV1._yAxis s)
           (div (bandwidth (BioActivityGraphV1._xAxis s)) (Fin 2))
           (BioActivityGraphV1._points s) i).
Proof.
  unfold BioActivityGraphV1.updatePointPositions, rbind, ret.
  now destruct (BioActivityGraphV1.positions _ _ _ _ _ _ _ i).
Qed.

End PositionFacts.

(** C8. With both boxes unchecked, two points of one activity type get the
    same [x], and that [x] is the start of the type's band plus half the
    band width, the centre of the band. Class version 1.1 without jitter
    does the same. On the chart's own axis every point has a band. *)
Theorem no_jitter_band_center :
  forall (scaleLog_apply : D3.scaleLog -> JS.number -> JS.number)
         (random : nat -> Q) (i : nat),
    (forall (c : BioActivityGraph.controls) (s : BioActivityGraph.state),
        BioActivityGraph.cb_jitter c = false ->
        BioActivityGraph.cb_violin c = false ->
        let data' :=
          BioActivityGraph._data
            (fst (BioActivityGraph.updatePointPositions scaleLog_apply random c s i)) in
        (forall p1 p2, In p1 data' -> In p2 data' ->
                       Point.type p1 = Point.type p2 -> Point.x p1 = Point.x p2)
        /\ (forall p b bw,
               In p data' ->
               D3.band_apply (BioActivityGraph._xAxis s) (Point.type p) = Some (JS.Fin b) ->
               D3.bandwidth (BioActivityGraph._xAxis s) = JS.Fin bw ->
               exists xq, Point.x p = Some (JS.Fin xq) /\ (xq == b + bw / 2)%Q)
        /\ map Point.type data' = map Point.type (BioActivityGraph._data s))
    /\ (forall s : BioActivityGraphV1.state,
        let points' :=
          BioActivityGraphV1._points
            (fst (BioActivityGraphV1.updatePointPositions scaleLog_apply random false s i)) in
        (forall p1 p2, In p1 points' -> In p2 points' ->
                       Point.type p1 = Point.type p2 -> Point.x p1 = Point.x p2)
        /\ (forall p b bw,
               In p points' ->
               D3.band_apply (BioActivityGraphV1._xAxis s) (Point.type p) = Some (JS.Fin b) ->
               D3.bandwidth (BioActivityGraphV1._xAxis s) = JS.Fin bw ->
               exists xq, Point.x p = Some (JS.Fin xq) /\ (xq == b + bw / 2)%Q)
        /\ map Point.type points' = map Point.type (BioActivityGraphV1._points s))
    /\ (forall (data : list Point.t) (p : Point.t),
        In p data ->
        exists b bw,
          D3.band_apply (BioActivityGraph.initXAxis data) (Point.type p) = Some (JS.Fin b)
          /\ D3.bandwidth (BioActivityGraph.initXAxis data) = JS.Fin bw
          /\ (0 < bw)%Q).
Proof.
  intros scaleLog_apply random i. split; [|split].
  - intros c s Hj Hv data'. subst data'.
    rewrite updatePointPositions_data, Hj, Hv, positions_no_jitter. cbn [fst].
    split; [|split].
    + intros p1 p2 H1 H2 Ht.
      apply in_map_iff in H1. destruct H1 as (d1 & <- & _).
      apply in_map_iff in H2. destruct H2 as (d2 & <- & _).
      cbn [Point.x Point.set_x Point.set_y Point.type] in Ht |- *. now rewrite Ht.
    + intros p b bw Hp Hb Hbw.
      apply in_map_iff in Hp. destruct Hp as (d & <- & _).
      cbn [Point.x Point.set_x Point.set_y Point.type] in Hb |- *. rewrite Hb, Hbw.
      exists (b + 2 * (bw / 4))%Q. split; [reflexivity|]. field.
    + rewrite map_map. reflexivity.
  - intros s points'. subst points'.
    rewrite updatePointPositions_v1_points, positions_v1_no_jitter. cbn [fst].
    split; [|split].
    + intros p1 p2 H1 H2 Ht.
      apply in_map_iff in H1. destruct H1 as (d1 & <- & _).
      apply in_map_iff in H2. destruct H2 as (d2 & <- & _).
      cbn [Point.x Point.set_x Point.set_y Point.type] in Ht |- *. now rewrite Ht.
    + intros p b bw Hp Hb Hbw.
      apply in_map_iff in Hp. destruct Hp as (d & <- & _).
      cbn [Point.x Point.set_x Point.set_y Point.type] in Hb |- *. rewrite Hb, Hbw.
      exists (b + bw / 2)%Q. split; reflexivity.
    + rewrite map_map. reflexivity.
  - intros data p Hp.
    destruct (band_apply_label (map Point.type data)
                (0, BioActivityGraph._width - BioActivityGraph.margin_left
                    - BioActivityGraph.margin_right)%Q (5 # 100) (Point.type p))
      as (b & Hb); [now apply in_map|].
    destruct (bandwidth_pos (BioActivityGraph.initXAxis data)) as (bw & Hbw & Hpos);
      [reflexivity|reflexivity|].
    exists b, bw. auto.
Qed.


Lemma no_jitter_band_center_witness :
  exists xq,
    Point.x (nth 0 (BioActivityGraph._data
                      (fst (BioActivityGraph.updatePointPositions
                              Examples.flat_scale Examples.halves
                              (BioActivityGraph.mkControls false false)
                              Examples.two_points_state 0%nat)))
                 Examples.egfr_ic50)
    = Some (JS.Fin xq)
    /\ (xq == 160)%Q.
Proof.
  destruct (no_jitter_band_center Examples.flat_scale Examples.halves 0%nat) as [H _].
  destruct (H (BioActivityGraph.mkControls false false) Examples.two_points_state
              eq_refl eq_refl) as (_ & Hc & _).
  edestruct Hc as (xq & Hx & Hq).
  - left. reflexivity.
  - reflexivity.
  - reflexivity.
  - exists xq. split; [exact Hx|]. rewrite Hq. reflexivity.
Defined.

(** Division by the constants of the layout, as multiplication, for the
    arithmetic solvers. *)
Ltac qdiv :=
  unfold Qdiv in *;
  change (/ 4)%Q with (1 # 4)%Q in *;
  change (/ 2)%Q with (1 # 2)%Q in *.

Section JitterFacts.
Import JS D3.

Variable scaleLog_apply : scaleLog -> number -> number.
Variable random : nat -> Q.

Lemma updatePointPositions_next c s i :
  snd (BioActivityGraph.updatePointPositions scaleLog_apply random c s i)
  = snd (mapM (BioActivityGraph.positionPoint scaleLog_apply random
                 (BioActivityGraph.cb_jitter c) (BioActivityGraph.cb_violin c)
                 (BioActivityGraph._xAxis s) (BioActivityGraph._yAxis s)
                 (div (bandwidth (BioActivityGraph._xAxis s)) (Fin 4)))
              (BioActivityGraph._data s) i).
Proof.
  unfold BioActivityGraph.updatePointPositions, rbind, ret.
  now destruct (mapM _ _ i).
Qed.

(** The offset of class version 2.0 sweeps the half band that starts a
    quarter band after the band's start. *)
Lemma offset_v2_range bw r :
  (0 < bw)%Q -> (0 <= r)%Q -> (r < 1)%Q ->
  (bw / 4 <= Jitter.offset_v2 bw r)%Q
  /\ (Jitter.offset_v2 bw r < bw / 4 + bw / 2)%Q
  /\ (0 < Jitter.offset_v2 bw r)%Q
  /\ (Jitter.offset_v2 bw r < bw)%Q.
Proof.
  intros Hbw Hr0 Hr1. unfold Jitter.offset_v2. qdiv.
  repeat split; nra.
Qed.

(** The offset is one-to-one in the draw: distinct draws, distinct places. *)
Lemma offset_v2_injective bw r r' :
  (0 < bw)%Q -> (Jitter.offset_v2 bw r == Jitter.offset_v2 bw r')%Q -> (r == r')%Q.
Proof.
  unfold Jitter.offset_v2. intros Hbw H. qdiv. nra.
Qed.

Lemma jitter_v2 (c : BioActivityGraph.controls) (s : BioActivityGraph.state) (i : nat) :
  BioActivityGraph.cb_jitter c = true ->
  BioActivityGraph.cb_violin c = false ->
  (forall n, (0 <= random n)%Q /\ (random n < 1)%Q) ->
  snd (BioActivityGraph.updatePointPositions scaleLog_apply random c s i)
  = (i + List.length (BioActivityGraph._data s))%nat
  /\ List.length (BioActivityGraph._data
                   (fst (BioActivityGraph.updatePointPositions scaleLog_apply random c s i)))
     = List.length (BioActivityGraph._data s)
  /\ forall k d,
      nth_error (BioActivityGraph._data s) k = Some d ->
      exists p,
        nth_error (BioActivityGraph._data
                     (fst (BioActivityGraph.updatePointPositions
                             scaleLog_apply random c s i))) k = Some p
        /\ Point.type p = Point.type d
        /\ forall b bw,
            band_apply (BioActivityGraph._xAxis s) (Point.type d) = Some (Fin b) ->
            bandwidth (BioActivityGraph._xAxis s) = Fin bw ->
            (0 < bw)%Q ->
            exists xq,
              Point.x p = Some (Fin xq)
              /\ (xq == b + Jitter.offset_v2 bw (random (i + k)%nat))%Q
              /\ (b + bw / 4 <= xq)%Q /\ (xq < b + bw / 4 + bw / 2)%Q
              /\ (b < xq)%Q /\ (xq < b + bw)%Q.
Proof.
  intros Hj Hv Hr.
  rewrite updatePointPositions_next, updatePointPositions_data, Hj, Hv.
  destruct (positions_jitter scaleLog_apply random
              (BioActivityGraph._xAxis s) (BioActivityGraph._yAxis s)
              (div (bandwidth (BioActivityGraph._xAxis s)) (Fin 4))
              (BioActivityGraph._data s) i) as (H1 & H2 & H3).
  split; [exact H1|]. split; [exact H2|].
  intros k d Hk. eexists. split; [exact (H3 k d Hk)|]. split; [reflexivity|].
  intros b bw Hb Hbw Hpos.
  cbn [Point.x Point.set_x Point.set_y]. rewrite Hb, Hbw.
  exists (b + (bw / 4 + bw / 4 * 2 * random (i + k)%nat))%Q.
  split; [reflexivity|].
  destruct (Hr (i + k)%nat) as [Hr0 Hr1].
  destruct (offset_v2_range bw (random (i + k)%nat) Hpos Hr0 Hr1) as (R1 & R2 & R3 & R4).
  assert (E : (b + (bw / 4 + bw / 4 * 2 * random (i + k)%nat)
               == b + Jitter.offset_v2 bw (random (i + k)%nat))%Q).
  { unfold Jitter.offset_v2. field. }
  rewrite E. qdiv. repeat split; try reflexivity; lra.
Qed.

(** Class version 1.1: the offsets stay positive and at most half a band,
    each being the previous one shrunk by the previous draw. *)
Lemma offset_v1_range bw i k :
  (0 < bw)%Q ->
  (forall n, (0 <= random n)%Q /\ (random n < 1)%Q) ->
  (0 < Jitter.offset_v1 random bw i k)%Q
  /\ (Jitter.offset_v1 random bw i k <= bw / 2)%Q.
Proof.
  intros Hbw Hr. induction k as [|k [IH0 IH1]]; cbn [Jitter.offset_v1].
  - qdiv. split; lra.
  - destruct (Hr (i + k)%nat) as [Hr0 Hr1].
    set (d := Jitter.offset_v1 random bw i k) in *.
    set (r := random (i + k)%nat) in *.
    qdiv. split; nra.
Qed.

(** The place of the [k]-th point depends on the draws made before it
    only. *)
Lemma offset_v1_past (random' : nat -> Q) bw i k :
  (forall n, (n < k)%nat -> random (i + n)%nat = random' (i + n)%nat) ->
  Jitter.offset_v1 random bw i k = Jitter.offset_v1 random' bw i k.
Proof.
  induction k as [|k IH]; intros H; [reflexivity|].
  cbn [Jitter.offset_v1]. rewrite IH by (intros n Hn; apply H; lia).
  rewrite (H k) by lia. reflexivity.
Qed.

Lemma jitter_v1 (s : BioActivityGraphV1.state) (i : nat) (bw : Q) :
  bandwidth (BioActivityGraphV1._xAxis s) = Fin bw ->
  forall k d,
    nth_error (BioActivityGraphV1._points s) k = Some d ->
    exists p,
      nth_error (BioActivityGraphV1._points
                   (fst (BioActivityGraphV1.updatePointPositions
                           scaleLog_apply random true s i))) k = Some p
      /\ Point.type p = Point.type d
      /\ forall b,
          band_apply (BioActivityGraphV1._xAxis s) (Point.type d) = Some (Fin b) ->
          Point.x p = Some (Fin (b + Jitter.offset_v1 random bw i k)).
Proof.
  intros Hbw k d Hk.
  rewrite updatePointPositions_v1_points, Hbw.
  change (div (Fin bw) (Fin 2)) with (Fin (Jitter.offset_v1 random bw i 0)).
  destruct (positions_v1_jitter scaleLog_apply random
              (BioActivityGraphV1._xAxis s) (BioActivityGraphV1._yAxis s) bw
              (BioActivityGraphV1._points s) i 0%nat i ltac:(lia)) as [_ H].
  eexists. split; [exact (H k d Hk)|]. split; [reflexivity|].
  intros b Hb. cbn [Point.x Point.set_x Point.set_y]. rewrite Hb. reflexivity.
Qed.

End JitterFacts.

(** C9. Class version 2.0, jitter checked and violin unchecked: every
    point makes one draw of its own, its offset from the start of its band
    is a quarter band plus the draw times half a band, so it sweeps a
    half-band interval as the draw sweeps [[0, 1)], one-to-one, and [x]
    lies strictly inside the band. Class version 1.1 under jitter does
    otherwise: one offset is shared by the loop, the first point receives
    half a band whatever the draws, and each later point receives the
    previous offset shrunk by the previous draw, so that its own draw does
    not enter its place; the points do stay inside their bands. *)
Theorem jitter_offset_per_point :
  (forall (scaleLog_apply : D3.scaleLog -> JS.number -> JS.number) (random : nat -> Q)
          (c : BioActivityGraph.controls) (s : BioActivityGraph.state) (i : nat),
      BioActivityGraph.cb_jitter c = true ->
      BioActivityGraph.cb_violin c = false ->
      (forall n, (0 <= random n)%Q /\ (random n < 1)%Q) ->
      snd (BioActivityGraph.updatePointPositions scaleLog_apply random c s i)
      = (i + List.length (BioActivityGraph._data s))%nat
      /\ forall k d,
          nth_error (BioActivityGraph._data s) k = Some d ->
          exists p,
            nth_error (BioActivityGraph._data
                         (fst (BioActivityGraph.updatePointPositions
                                 scaleLog_apply random c s i))) k = Some p
            /\ Point.type p = Point.type d
            /\ forall b bw,
                D3.band_apply (BioActivityGraph._xAxis s) (Point.type d) = Some (JS.Fin b) ->
                D3.bandwidth (BioActivityGraph._xAxis s) = JS.Fin bw ->
                (0 < bw)%Q ->
                exists xq,
                  Point.x p = Some (JS.Fin xq)
                  /\ (xq == b + Jitter.offset_v2 bw (random (i + k)%nat))%Q
                  /\ (b + bw / 4 <= xq)%Q /\ (xq < b + bw / 4 + bw / 2)%Q
                  /\ (b < xq)%Q /\ (xq < b + bw)%Q)
  /\ (forall bw r r', (0 < bw)%Q ->
        (Jitter.offset_v2 bw r == Jitter.offset_v2 bw r')%Q -> (r == r')%Q)
  /\ (forall (scaleLog_apply : D3.scaleLog -> JS.number -> JS.number) (random : nat -> Q)
             (s : BioActivityGraphV1.state) (i : nat) (bw : Q),
        D3.bandwidth (BioActivityGraphV1._xAxis s) = JS.Fin bw ->
        forall k d,
          nth_error (BioActivityGraphV1._points s) k = Some d ->
          exists p,
            nth_error (BioActivityGraphV1._points
                         (fst (BioActivityGraphV1.updatePointPositions
                                 scaleLog_apply random true s i))) k = Some p
            /\ Point.type p = Point.type d
            /\ forall b,
                D3.band_apply (BioActivityGraphV1._xAxis s) (Point.type d)
                = Some (JS.Fin b) ->
                Point.x p = Some (JS.Fin (b + Jitter.offset_v1 random bw i k)))
  /\ (forall (random : nat -> Q) (bw : Q) (i : nat),
        Jitter.offset_v1 random bw i 0 = (bw / 2)%Q)
  /\ (forall (random random' : nat -> Q) (bw : Q) (i k : nat),
        (forall n, (n < k)%nat -> random (i + n)%nat = random' (i + n)%nat) ->
        Jitter.offset_v1 random bw i k = Jitter.offset_v1 random' bw i k)
  /\ (forall (random : nat -> Q) (bw : Q) (i k : nat),
        (0 < bw)%Q ->
        (forall n, (0 <= random n)%Q /\ (random n < 1)%Q) ->
        (0 < Jitter.offset_v1 random bw i k)%Q
        /\ (Jitter.offset_v1 random bw i k <= bw / 2)%Q)
  /\ Forall2 (fun px q => exists xq, px = Some (JS.Fin xq) /\ (xq == q)%Q)
       (map Point.x
            (BioActivityGraphV1._points
               (fst (BioActivityGraphV1.updatePointPositions
                       Examples.flat_scale Examples.halves true
                       Examples.three_points_state_v1 0%nat))))
       [160; 2600 # 21; 290 # 3]%Q.
Proof.
  split; [|split; [|split; [|split; [|split; [|split]]]]].
  - intros scaleLog_apply random c s i Hj Hv Hr.
    destruct (jitter_v2 scaleLog_apply random c s i Hj Hv Hr) as (H1 & _ & H3).
    split; assumption.
  - exact offset_v2_injective.
  - exact jitter_v1.
  - reflexivity.
  - intros random random' bw i k. apply offset_v1_past.
  - intros random bw i k. apply offset_v1_range.
  - repeat constructor; eexists; split; reflexivity.
Qed.

Lemma jitter_offset_per_point_witness :
  exists p,
    nth_error (BioActivityGraph._data
                 (fst (BioActivityGraph.updatePointPositions
                         Examples.flat_scale Examples.halves
                         (BioActivityGraph.mkControls true false)
                         Examples.two_points_state 0%nat))) 1 = Some p
    /\ Point.type p = "IC50".
Proof.
  destruct (proj1 jitter_offset_per_point Examples.flat_scale Examples.halves
              (BioActivityGraph.mkControls true false) Examples.two_points_state 0%nat
              eq_refl eq_refl) as [_ H].
  - intros n. split; [discriminate|reflexivity].
  - destruct (H 1%nat Examples.egfr_ic50_b eq_refl) as (p & Hp & Ht & _).
    exists p. split; assumption.
Defined.

(** ** Binning *)

Section OrderFacts.
Import JS.

Lemma le_trans a b c : le a b = true -> le b c = true -> le a c = true.
Proof.
  destruct a, b, c; cbn; try discriminate; try reflexivity.
  rewrite !Qle_bool_iff. apply Qle_trans.
Qed.

Lemma le_not_lt a b : le a b = true -> lt b a = false.
Proof.
  destruct a, b; cbn; try discriminate; try reflexivity.
  intros ->. reflexivity.
Qed.

End OrderFacts.

Section HistogramFacts.
Import JS D3.

Lemma above_le x l : (above x l <= List.length l)%nat.
Proof.
  induction l as [|t l IH]; cbn; [lia|]. destruct (lt x t); cbn; lia.
Qed.

Lemma above_app x l1 l2 :
  above x (l1 ++ l2) =
    if (above x l1 =? List.length l1)%nat
    then (List.length l1 + above x l2)%nat
    else above x l1.
Proof.
  induction l1 as [|t l1 IH]; [reflexivity|].
  cbn [app above List.length]. destruct (lt x t); [|reflexivity].
  rewrite IH. cbn [Nat.eqb]. destruct (above x l1 =? List.length l1)%nat; reflexivity.
Qed.

Lemma trailing_cons x t l :
  trailing x (t :: l) =
    if (trailing x l =? List.length l)%nat
    then (List.length l + (if lt x t then 1 else 0))%nat
    else trailing x l.
Proof.
  unfold trailing. cbn [rev]. rewrite above_app, length_rev.
  cbn [above]. destruct (lt x t); reflexivity.
Qed.

Lemma trailing_le x l : (trailing x l <= List.length l)%nat.
Proof.
  unfold trailing. rewrite <- (length_rev l). apply above_le.
Qed.

(** With an ascending domain the thresholds dropped at the two ends do
    not overlap. *)
Lemma leading_trailing x0 x1 tz :
  le x0 x1 = true ->
  (leading x0 tz + trailing x1 tz <= List.length tz)%nat.
Proof.
  intros Hle. induction tz as [|t tz IH]; [cbn; lia|].
  cbn [leading List.length]. rewrite trailing_cons.
  pose proof (trailing_le x1 tz) as Ht.
  destruct (le t x0) eqn:E.
  - rewrite (le_not_lt t x1) by (eapply le_trans; eassumption).
    destruct (trailing x1 tz =? List.length tz)%nat eqn:E'; [|lia].
    apply Nat.eqb_eq in E'. lia.
  - destruct (trailing x1 tz =? List.length tz)%nat; [|lia].
    destruct (lt x1 t); lia.
Qed.

Lemma div2_mid lo hi :
  (lo < hi)%nat -> (lo <= Nat.div2 (lo + hi) /\ Nat.div2 (lo + hi) < hi)%nat.
Proof.
  intros H. rewrite Nat.div2_div.
  split.
  - apply Nat.div_le_lower_bound; lia.
  - apply Nat.Div0.div_lt_upper_bound; lia.
Qed.

Lemma bisect_loop_bounds a x fuel : forall lo hi,
  (lo <= hi)%nat ->
  (lo <= bisect_loop fuel a x lo hi /\ bisect_loop fuel a x lo hi <= hi)%nat.
Proof.
  induction fuel as [|fuel IH]; intros lo hi Hle; cbn [bisect_loop]; [lia|].
  destruct (lo <? hi)%nat eqn:E; [|lia].
  apply Nat.ltb_lt in E. destruct (div2_mid lo hi E) as [H1 H2].
  destruct (le (nth (Nat.div2 (lo + hi)) a NaN) x).
  - destruct (IH (S (Nat.div2 (lo + hi))) hi ltac:(lia)). lia.
  - destruct (IH lo (Nat.div2 (lo + hi)) ltac:(lia)). lia.
Qed.

(** The loop runs until the bounds meet: more fuel than the width of the
    interval changes nothing. *)
Lemma bisect_loop_fuel a x fuel : forall lo hi,
  (hi - lo <= fuel)%nat ->
  bisect_loop (S fuel) a x lo hi = bisect_loop fuel a x lo hi.
Proof.
  induction fuel as [|fuel IH]; intros lo hi Hf.
  - cbn [bisect_loop]. destruct (lo <? hi)%nat eqn:E; [|reflexivity].
    apply Nat.ltb_lt in E. lia.
  - cbn [bisect_loop]. destruct (lo <? hi)%nat eqn:E; [|reflexivity].
    apply Nat.ltb_lt in E. destruct (div2_mid lo hi E) as [H1 H2].
    destruct (le (nth (Nat.div2 (lo + hi)) a NaN) x).
    + apply (IH (S (Nat.div2 (lo + hi))) hi). lia.
    + apply (IH lo (Nat.div2 (lo + hi))). lia.
Qed.

Lemma bisectRight_bounds a x m :
  (0 <= m)%Z -> (0 <= bisectRight a x 0 m <= m)%Z.
Proof.
  intros Hm. unfold bisectRight.
  destruct (0 <? m)%Z eqn:E; [|lia].
  destruct (is_NaN x); [lia|].
  destruct (bisect_loop_bounds a x (Z.to_nat m) (Z.to_nat 0) (Z.to_nat m) ltac:(lia)).
  lia.
Qed.

Lemma push_at_count bins : forall i x,
  (i < List.length bins)%nat ->
  exists bins',
    push_at bins i x = Normal bins'
    /\ List.length bins' = List.length bins
    /\ Binning.count bins' = S (Binning.count bins).
Proof.
  induction bins as [|b bins IH]; intros i x Hi; [cbn in Hi; lia|].
  destruct i as [|i]; cbn [push_at].
  - eexists. split; [reflexivity|]. split; [reflexivity|].
    unfold Binning.count. cbn [map list_sum contents].
    rewrite length_app. cbn. lia.
  - destruct (IH i x) as (bins' & -> & Hl & Hc); [cbn in Hi; lia|].
    cbn [bind]. eexists. split; [reflexivity|]. split; [cbn; lia|].
    unfold Binning.count in *. cbn [map list_sum fold_right]. 
    change (fold_right Nat.add 0%nat) with list_sum. lia.
Qed.

(** The loop that assigns the values: every value inside the domain adds
    one to the bins, the others add nothing. *)
Lemma assign_count dom tz m data : forall bins,
  (0 <= m)%Z ->
  List.length bins = Z.to_nat (m + 1) ->
  exists bins',
    forEach (fun bins x =>
               if le (fst dom) x && le x (snd dom)
               then push_at bins (Z.to_nat (bisectRight tz x 0 m)) x
               else Normal bins) data bins = Normal bins'
    /\ List.length bins' = List.length bins
    /\ Binning.count bins'
       = (Binning.count bins + List.length (filter (Binning.in_domain dom) data))%nat.
Proof.
  induction data as [|x data IH]; intros bins Hm Hl.
  - exists bins. cbn. repeat split; lia.
  - cbn [forEach filter]. unfold Binning.in_domain at 1.
    destruct (le (fst dom) x && le x (snd dom)) eqn:E.
    + destruct (push_at_count bins (Z.to_nat (bisectRight tz x 0 m)) x)
        as (bins1 & -> & Hl1 & Hc1).
      { pose proof (bisectRight_bounds tz x m Hm). lia. }
      cbn [bind]. destruct (IH bins1 Hm ltac:(lia)) as (bins' & -> & Hl' & Hc').
      exists bins'. split; [reflexivity|]. split; [lia|]. cbn [List.length]. lia.
    + cbn [bind]. destruct (IH bins Hm Hl) as (bins' & -> & Hl' & Hc').
      exists bins'. repeat split; lia.
Qed.

Lemma init_bins_count x0 x1 tz m n :
  Binning.count (map (init_bin x0 x1 tz m) (seq 0 n)) = 0%nat.
Proof.
  unfold Binning.count.
  assert (H : forall k, list_sum (map (fun b => List.length (contents b))
                                      (map (init_bin x0 x1 tz m) (seq k n))) = 0%nat).
  { induction n as [|n IH]; intros k; [reflexivity|].
    cbn [seq map]. change (list_sum (?x :: ?l)) with (x + list_sum l)%nat.
    rewrite IH. reflexivity. }
  apply H.
Qed.

(** Over an ascending domain [histogram] returns, and its bins hold as
    many values as lie inside the domain. *)
Lemma histogram_count dom thresholds data :
  le (fst dom) (snd dom) = true ->
  exists bins,
    histogram dom thresholds data = Normal bins
    /\ Binning.count bins = List.length (filter (Binning.in_domain dom) data).
Proof.
  intros Hle. destruct dom as [x0 x1]. cbn [fst snd] in Hle.
  unfold histogram.
  pose proof (leading_trailing x0 x1 thresholds Hle) as Hlt.
  set (m := List.length thresholds) in *.
  set (a := leading x0 thresholds) in *.
  set (b := (m - trailing x1 thresholds)%nat) in *.
  set (trimmed := negb ((a =? 0)%nat && negb (b <? m)%nat)).
  set (tz := if trimmed then slice a b thresholds else thresholds).
  set (m' := if trimmed then (Z.of_nat b - Z.of_nat a)%Z else Z.of_nat m).
  assert (Hm' : (0 <= m')%Z) by (subst m' b; destruct trimmed; lia).
  destruct (m' + 1 <? 0)%Z eqn:E; [apply Z.ltb_lt in E; lia|].
  destruct (assign_count (x0, x1) tz m' data
              (map (init_bin x0 x1 tz (Z.to_nat m')) (seq 0 (Z.to_nat (m' + 1)))) Hm')
    as (bins & Hb & _ & Hc).
  { now rewrite length_map, length_seq. }
  exists bins. split; [exact Hb|].
  rewrite Hc, init_bins_count. reflexivity.
Qed.

End HistogramFacts.

Section RollupFacts.
Import JS D3.
Context {A : Type}.
Variable key : A -> string.

Lemma group_add_get k v (groups : Map (list A)) t :
  Map_get (group_add k v groups) t =
    if String.eqb k t
    then Some (match Map_get groups k with
               | Some vs => vs ++ [v]
               | None => [v]
               end)%list
    else Map_get groups t.
Proof.
  induction groups as [|[k' vs] groups IH]; cbn [group_add Map_get].
  - reflexivity.
  - destruct (String.eqb k' k) eqn:E; cbn [Map_get].
    + apply String.eqb_eq in E. subst k'.
      destruct (String.eqb k t); reflexivity.
    + rewrite IH. destruct (String.eqb k t) eqn:Ekt; [|reflexivity].
      apply String.eqb_eq in Ekt. subst t. now rewrite E.
Qed.

Lemma group_fold (rest : list A) : forall groups done,
  (forall t, Map_get groups t = nonempty (filter (fun v => String.eqb (key v) t) done)) ->
  forall t,
    Map_get (fold_left (fun groups v => group_add (key v) v groups) rest groups) t
    = nonempty (filter (fun v => String.eqb (key v) t) (done ++ rest)).
Proof.
  induction rest as [|v rest IH]; intros groups done H t.
  - cbn. rewrite app_nil_r. apply H.
  - cbn [fold_left].
    replace (done ++ v :: rest)%list with ((done ++ [v]) ++ rest)%list
      by (rewrite <- app_assoc; reflexivity).
    apply IH. clear t. intros t.
    rewrite group_add_get, filter_app. cbn [filter].
    destruct (String.eqb (key v) t) eqn:E.
    + apply String.eqb_eq in E. subst t. rewrite H.
      destruct (filter _ done); reflexivity.
    + rewrite app_nil_r. apply H.
Qed.

(** [group] files every value under its key, in the order of the input. *)
Lemma group_get (values : list A) t :
  Map_get (group values key) t
  = nonempty (filter (fun v => String.eqb (key v) t) values).
Proof.
  unfold group. apply (group_fold values [] []). reflexivity.
Qed.

Lemma rollup_groups_get {B} (reduce : list A -> completion B) (f : list A -> B)
      (groups : Map (list A)) :
  (forall vs, reduce vs = Normal (f vs)) ->
  exists res,
    rollup_groups reduce groups = Normal res
    /\ forall t, Map_get res t = option_map f (Map_get groups t).
Proof.
  intros Hr. induction groups as [|[k vs] groups (res & Hres & Hget)].
  - exists []. split; reflexivity.
  - cbn [rollup_groups]. rewrite Hr, Hres. cbn [bind].
    eexists. split; [reflexivity|].
    intros t. cbn [Map_get]. rewrite Hget. destruct (String.eqb k t); reflexivity.
Qed.

End RollupFacts.

Section CoverFacts.
Import JS D3.

Lemma min_max_fold (rest : list Point.t) : forall lo hi,
  (0 < lo)%Q -> (lo <= hi)%Q ->
  Binning.positive rest ->
  exists lo' hi',
    fold_left (fun p c => (Math_min (Point.value c) (fst p),
                           Math_max (Point.value c) (snd p)))
              rest (Fin lo, Fin hi) = (Fin lo', Fin hi')
    /\ (0 < lo')%Q /\ (lo' <= lo)%Q /\ (hi <= hi')%Q
    /\ forall p, In p rest ->
                 exists q, Point.value p = Fin q /\ (lo' <= q)%Q /\ (q <= hi')%Q.
Proof.
  induction rest as [|c rest IH]; intros lo hi Hlo Hle Hpos.
  - exists lo, hi. cbn. repeat split; try lra. intros p [].
  - destruct (Hpos c (or_introl eq_refl)) as (q & Hq & Hq0).
    cbn [fold_left fst snd]. rewrite Hq.
    assert (Hrest : Binning.positive rest) by (intros p Hp; apply Hpos; now right).
    assert (Hmin : exists lo1, Math_min (Fin q) (Fin lo) = Fin lo1
                               /\ (0 < lo1)%Q /\ (lo1 <= lo)%Q /\ (lo1 <= q)%Q).
    { unfold Math_min, lt. destruct (Qle_bool q lo) eqn:E; cbn [negb].
      - apply Qle_bool_iff in E. exists q. repeat split; lra.
      - exists lo. repeat split; try lra.
        destruct (Qlt_le_dec lo q) as [H|H]; [lra|].
        apply Qle_bool_iff in H. congruence. }
    assert (Hmax : exists hi1, Math_max (Fin q) (Fin hi) = Fin hi1
                               /\ (hi <= hi1)%Q /\ (q <= hi1)%Q).
    { unfold Math_max, lt. destruct (Qle_bool hi q) eqn:E; cbn [negb].
      - apply Qle_bool_iff in E. exists q. repeat split; lra.
      - exists hi. repeat split; try lra.
        destruct (Qlt_le_dec q hi) as [H|H]; [lra|].
        apply Qle_bool_iff in H. congruence. }
    destruct Hmin as (lo1 & -> & H1 & H2 & H3).
    destruct Hmax as (hi1 & -> & H4 & H5).
    destruct (IH lo1 hi1 H1 ltac:(lra) Hrest) as (lo' & hi' & Hf & G1 & G2 & G3 & G4).
    exists lo', hi'. split; [exact Hf|]. repeat split; try lra.
    intros p [<-|Hp].
    + exists q. repeat split; [assumption|lra|lra].
    + apply G4, Hp.
Qed.

(** Over positive concentrations the least and the greatest value are
    finite, positive and bound every value. *)
Lemma min_max_bounds (data : list Point.t) :
  data <> [] ->
  Binning.positive data ->
  exists lo hi,
    BioActivityGraph.min_max data = (Fin lo, Fin hi)
    /\ (0 < lo)%Q /\ (lo <= hi)%Q
    /\ forall p, In p data ->
                 exists q, Point.value p = Fin q /\ (lo <= q)%Q /\ (q <= hi)%Q.
Proof.
  destruct data as [|c rest]; [congruence|]. intros _ Hpos.
  destruct (Hpos c (or_introl eq_refl)) as (q & Hq & Hq0).
  unfold BioActivityGraph.min_max. cbn [fold_left fst snd]. rewrite Hq.
  change (Math_min (Fin q) PosInf) with (Fin q).
  change (Math_max (Fin q) NegInf) with (Fin q).
  destruct (min_max_fold rest q q Hq0 ltac:(lra)) as (lo & hi & Hf & G1 & G2 & G3 & G4).
  { intros p Hp. apply Hpos. now right. }
  exists lo, hi. split; [exact Hf|]. repeat split; try lra.
  intros p [<-|Hp].
  - exists q. repeat split; [assumption|lra|lra].
  - apply G4, Hp.
Qed.

(** The least and the greatest value are values of the chart: what holds
    of every value holds of them. *)
Lemma min_max_fold_among (S : Q -> Prop) (rest : list Point.t) : forall lo hi lo' hi',
  S lo -> S hi ->
  (forall p, In p rest -> exists q, Point.value p = Fin q /\ S q) ->
  fold_left (fun p c => (Math_min (Point.value c) (fst p),
                         Math_max (Point.value c) (snd p)))
            rest (Fin lo, Fin hi) = (Fin lo', Fin hi') ->
  S lo' /\ S hi'.
Proof.
  induction rest as [|c rest IH]; intros lo hi lo' hi' Hlo Hhi Hall.
  - cbn. intros H. inversion H. subst. auto.
  - destruct (Hall c (or_introl eq_refl)) as (q & Hq & Sq).
    cbn [fold_left fst snd]. rewrite Hq.
    assert (Hmin : exists lo1, Math_min (Fin q) (Fin lo) = Fin lo1 /\ S lo1).
    { unfold Math_min. destruct (lt (Fin lo) (Fin q)); eauto. }
    assert (Hmax : exists hi1, Math_max (Fin q) (Fin hi) = Fin hi1 /\ S hi1).
    { unfold Math_max. destruct (lt (Fin q) (Fin hi)); eauto. }
    destruct Hmin as (lo1 & -> & S1). destruct Hmax as (hi1 & -> & S2).
    apply IH; auto. intros p Hp. apply Hall. now right.
Qed.

Lemma bracketed_positive Math_log10 data :
  Binning.bracketed Math_log10 data -> Binning.positive data.
Proof.
  intros H p Hp. destruct (H p Hp) as (q & Hq & Hq0 & _). eauto.
Qed.

(** The niced domain of the chart's own scale covers the concentrations
    of the chart when the logarithm puts each of them in its decade. *)
Lemma initYAxis_covers Math_log10 (data : list Point.t) :
  Binning.bracketed Math_log10 data ->
  forall p, In p data ->
    Binning.in_domain (log_domain (BioActivityGraph.initYAxis Math_log10 data))
                      (Point.value p) = true.
Proof.
  intros Hbr p Hp.
  pose proof (bracketed_positive _ _ Hbr) as Hpos.
  assert (Hne : data <> []) by (intros ->; destruct Hp).
  destruct (min_max_bounds data Hne Hpos) as (lo & hi & Hmm & Hlo & Hle & Hall).
  destruct (Hall p Hp) as (q & Hq & Hq1 & Hq2).
  assert (Hhi : (0 < hi)%Q) by lra.
  assert (Hends : Binning.brackets Math_log10 lo /\ Binning.brackets Math_log10 hi).
  { destruct data as [|c rest]; [congruence|].
    destruct (Hbr c (or_introl eq_refl)) as (q0 & Hq0 & _ & B0).
    unfold BioActivityGraph.min_max in Hmm. cbn [fold_left fst snd] in Hmm.
    rewrite Hq0 in Hmm.
    change (Math_min (Fin q0) PosInf) with (Fin q0) in Hmm.
    change (Math_max (Fin q0) NegInf) with (Fin q0) in Hmm.
    apply (min_max_fold_among (Binning.brackets Math_log10) rest q0 q0 lo hi B0 B0);
      [|exact Hmm].
    intros r Hr. destruct (Hbr r (or_intror Hr)) as (qr & Hqr & _ & Br). eauto. }
  destruct Hends as [[Hfl _] [_ Hce]].
  unfold BioActivityGraph.initYAxis. rewrite Hmm.
  unfold scaleLog_nice, scaleLog_range, scaleLog_domain.
  cbn [log_domain log_range log_reflect fst snd].
  assert (Hneg : lt (Fin lo) (Fin 0) = false).
  { unfold lt. apply negb_false_iff. apply Qle_bool_iff. lra. }
  assert (Hasc : lt (Fin hi) (Fin lo) = false).
  { unfold lt. apply negb_false_iff. now apply Qle_bool_iff. }
  rewrite Hneg. unfold nice_interval. rewrite Hasc.
  unfold nice_floor, nice_ceil, floor_log10, ceil_log10.
  rewrite (proj1 (Qgt_alt lo 0) Hlo), (proj1 (Qgt_alt hi 0) Hhi).
  unfold Binning.in_domain. cbn [fst snd pow10]. rewrite Hq. cbn [le].
  apply andb_true_intro. split; apply Qle_bool_iff; lra.
Qed.

End CoverFacts.

Section BinFacts.
Import JS D3.

Variable scaleLog_ticks : scaleLog -> nat -> list number.

Lemma points_of_type_nil t data :
  Binning.points_of_type t data = [] <-> ~ In t (map Point.type data).
Proof.
  unfold Binning.points_of_type. induction data as [|p data IH]; cbn [filter map].
  - split; auto.
  - destruct (String.eqb (Point.type p) t) eqn:E.
    + apply String.eqb_eq in E. split; [discriminate|]. intros H. elim H. now left.
    + apply String.eqb_neq in E. rewrite IH. cbn [In]. tauto.
Qed.

(** When the domain of the vertical scale covers the values, binning
    returns, and the bins of every type hold as many values as the chart
    has points of that type. *)
Lemma bins_conserve (nBins : nat) (s : BioActivityGraph.state) :
  (forall p, In p (BioActivityGraph._data s) ->
             Binning.in_domain (log_domain (BioActivityGraph._yAxis s)) (Point.value p)
             = true) ->
  exists s' table,
    BioActivityGraph.initHistogramBins scaleLog_ticks nBins s = Normal s'
    /\ BioActivityGraph._bins s' = Some table
    /\ BioActivityGraph._data s' = BioActivityGraph._data s
    /\ (forall t, In t (map Point.type (BioActivityGraph._data s)) ->
          exists bins,
            Map_get table t = Some bins
            /\ Binning.count bins
               = List.length (Binning.points_of_type t (BioActivityGraph._data s)))
    /\ (forall t, ~ In t (map Point.type (BioActivityGraph._data s)) ->
          Map_get table t = None).
Proof.
  intros Hcov. unfold BioActivityGraph.initHistogramBins.
  set (dom := log_domain (BioActivityGraph._yAxis s)) in *.
  set (tz := scaleLog_ticks (BioActivityGraph._yAxis s) nBins).
  destruct (BioActivityGraph._data s) as [|p0 data0] eqn:Edata.
  - exists (BioActivityGraph.set_bins [] s), []. cbn. rewrite Edata.
    repeat split; auto. intros t [].
  - rewrite <- Edata in *.
    assert (Hle : le (fst dom) (snd dom) = true).
    { specialize (Hcov p0). rewrite Edata in Hcov. specialize (Hcov (or_introl eq_refl)).
      unfold Binning.in_domain in Hcov. apply andb_prop in Hcov.
      destruct Hcov as [H1 H2]. eapply le_trans; eassumption. }
    set (f := fun vs : list Point.t =>
                match histogram dom tz (map Point.value vs) with
                | Normal bins => bins
                | Throw _ => []
                end).
    assert (Hr : forall vs, histogram dom tz (map Point.value vs) = Normal (f vs)).
    { intros vs. subst f. cbv beta.
      destruct (histogram_count dom tz (map Point.value vs) Hle) as (bins & -> & _).
      reflexivity. }
    unfold rollup.
    destruct (rollup_groups_get (fun vs => histogram dom tz (map Point.value vs)) f
                (group (BioActivityGraph._data s) Point.type) Hr) as (res & Hres & Hget).
    rewrite Hres. cbn [bind].
    exists (BioActivityGraph.set_bins res s), res.
    split; [reflexivity|]. split; [reflexivity|]. split; [reflexivity|].
    split.
    + intros t Ht. rewrite Hget, group_get.
      fold (Binning.points_of_type t (BioActivityGraph._data s)).
      destruct (Binning.points_of_type t (BioActivityGraph._data s)) as [|v vs] eqn:Evs.
      * apply points_of_type_nil in Evs. contradiction.
      * cbn [nonempty option_map]. eexists. split; [reflexivity|].
        destruct (histogram_count dom tz (map Point.value (v :: vs)) Hle)
          as (bins & Hb & Hc).
        subst f. cbv beta. rewrite Hb, Hc.
        rewrite forallb_filter_id, length_map; [reflexivity|].
        apply forallb_forall. intros x Hx. apply in_map_iff in Hx. destruct Hx as (p & <- & Hp).
        apply Hcov. rewrite <- Evs in Hp.
        unfold Binning.points_of_type in Hp. apply filter_In in Hp. tauto.
    + intros t Ht. rewrite Hget, group_get.
      fold (Binning.points_of_type t (BioActivityGraph._data s)).
      apply points_of_type_nil in Ht. now rewrite Ht.
Qed.

Lemma filter_map_length {A B} (f : B -> bool) (g : A -> B) (l : list A) :
  List.length (filter f (map g l)) = List.length (filter (fun a => f (g a)) l).
Proof.
  induction l as [|a l IH]; [reflexivity|].
  cbn [map filter]. destruct (f (g a)); cbn [List.length]; now rewrite IH.
Qed.

Lemma filter_length_all {A} (f : A -> bool) (l : list A) :
  List.length (filter f l) = List.length l <-> forall a, In a l -> f a = true.
Proof.
  induction l as [|a l IH]; cbn [filter List.length In].
  - split; [intros _ a []|reflexivity].
  - pose proof (filter_length_le f l) as Hle. destruct (f a) eqn:E; cbn [List.length].
    + split.
      * intros H a' [<-|Ha]; [exact E|]. apply IH; [lia|exact Ha].
      * intros H. f_equal. apply IH. intros a' Ha. apply H. now right.
    + split; [lia|]. intros H. specialize (H a (or_introl eq_refl)). congruence.
Qed.

(** Over an ascending domain binning returns, and the bins of every type
    hold as many values as the chart has points of that type inside the
    domain. *)
Lemma bins_count (nBins : nat) (s : BioActivityGraph.state) :
  le (fst (log_domain (BioActivityGraph._yAxis s)))
     (snd (log_domain (BioActivityGraph._yAxis s))) = true ->
  exists s' table,
    BioActivityGraph.initHistogramBins scaleLog_ticks nBins s = Normal s'
    /\ BioActivityGraph._bins s' = Some table
    /\ BioActivityGraph._data s' = BioActivityGraph._data s
    /\ (forall t, In t (map Point.type (BioActivityGraph._data s)) ->
          exists bins,
            Map_get table t = Some bins
            /\ Binning.count bins
               = List.length
                   (Binning.inside (log_domain (BioActivityGraph._yAxis s))
                      (Binning.points_of_type t (BioActivityGraph._data s))))
    /\ (forall t, ~ In t (map Point.type (BioActivityGraph._data s)) ->
          Map_get table t = None).
Proof.
  intros Hle. unfold BioActivityGraph.initHistogramBins.
  set (dom := log_domain (BioActivityGraph._yAxis s)) in *.
  set (tz := scaleLog_ticks (BioActivityGraph._yAxis s) nBins).
  set (f := fun vs : list Point.t =>
              match histogram dom tz (map Point.value vs) with
              | Normal bins => bins
              | Throw _ => []
              end).
  assert (Hr : forall vs, histogram dom tz (map Point.value vs) = Normal (f vs)).
  { intros vs. subst f. cbv beta.
    destruct (histogram_count dom tz (map Point.value vs) Hle) as (bins & -> & _).
    reflexivity. }
  unfold rollup.
  destruct (rollup_groups_get (fun vs => histogram dom tz (map Point.value vs)) f
              (group (BioActivityGraph._data s) Point.type) Hr) as (res & Hres & Hget).
  rewrite Hres. cbn [bind].
  exists (BioActivityGraph.set_bins res s), res.
  split; [reflexivity|]. split; [reflexivity|]. split; [reflexivity|].
  split.
  - intros t Ht. rewrite Hget, group_get.
    fold (Binning.points_of_type t (BioActivityGraph._data s)).
    destruct (Binning.points_of_type t (BioActivityGraph._data s)) as [|v vs] eqn:Evs.
    + apply points_of_type_nil in Evs. contradiction.
    + cbn [nonempty option_map]. eexists. split; [reflexivity|].
      destruct (histogram_count dom tz (map Point.value (v :: vs)) Hle)
        as (bins & Hb & Hc).
      subst f. cbv beta. rewrite Hb, Hc.
      unfold Binning.inside. apply filter_map_length.
  - intros t Ht. rewrite Hget, group_get.
    fold (Binning.points_of_type t (BioActivityGraph._data s)).
    apply points_of_type_nil in Ht. now rewrite Ht.
Qed.

End BinFacts.

(** C7, as the code has it. [bin] files a value under a bin only when the
    value lies inside the domain of the scale. Over an ascending domain
    binning returns, and for each activity type of the chart the counts of
    the type's bins add up to the number of points of that type whose
    value lies inside the domain: to the number of all points of the type
    exactly when the domain covers them. *)
Theorem binning_conserves_points
  (scaleLog_ticks : D3.scaleLog -> nat -> list JS.number) (nBins : nat)
  (s : BioActivityGraph.state)
  (Hdomain : JS.le (fst (D3.log_domain (BioActivityGraph._yAxis s)))
                   (snd (D3.log_domain (BioActivityGraph._yAxis s))) = true) :
  exists s' table,
    BioActivityGraph.initHistogramBins scaleLog_ticks nBins s = JS.Normal s'
    /\ BioActivityGraph._bins s' = Some table
    /\ BioActivityGraph._data s' = BioActivityGraph._data s
    /\ (forall t, In t (map Point.type (BioActivityGraph._data s)) ->
          exists bins,
            JS.Map_get table t = Some bins
            /\ Binning.count bins
               = List.length
                   (Binning.inside (D3.log_domain (BioActivityGraph._yAxis s))
                      (Binning.points_of_type t (BioActivityGraph._data s)))
            /\ (Binning.count bins
                = List.length (Binning.points_of_type t (BioActivityGraph._data s))
                <-> forall p, In p (Binning.points_of_type t (BioActivityGraph._data s)) ->
                              Binning.in_domain
                                (D3.log_domain (BioActivityGraph._yAxis s))
                                (Point.value p) = true))
    /\ (forall t, ~ In t (map Point.type (BioActivityGraph._data s)) ->
          JS.Map_get table t = None).
Proof.
  destruct (bins_count scaleLog_ticks nBins s Hdomain)
    as (s' & table & Hinit & Hbins & Hdata & Hcount & Hnone).
  exists s', table. repeat (split; [assumption|]). split; [|exact Hnone].
  intros t Ht. destruct (Hcount t Ht) as (bins & Hget & Hc).
  exists bins. split; [exact Hget|]. split; [exact Hc|].
  rewrite Hc. unfold Binning.inside. apply filter_length_all.
Qed.

Lemma binning_conserves_points_witness :
  exists s' table,
    BioActivityGraph.initHistogramBins Examples.decade_ticks 10 Examples.two_points_state
    = JS.Normal s'
    /\ BioActivityGraph._bins s' = Some table
    /\ exists bins,
        JS.Map_get table "IC50" = Some bins
        /\ Binning.count bins = 2%nat.
Proof.
  destruct (binning_conserves_points Examples.decade_ticks 10 Examples.two_points_state)
    as (s' & table & Hs & Ht & _ & Hb & _).
  - reflexivity.
  - exists s', table. split; [exact Hs|]. split; [exact Ht|].
    destruct (Hb "IC50") as (bins & Hget & Hc & _); [left; reflexivity|].
    exists bins. split; [exact Hget|]. rewrite Hc. reflexivity.
Defined.

(** C7, as stated, fails: on a scale whose domain runs from one to ten a
    chart with measurements at three and at a hundred gets bins that hold
    one value for its two points. *)
Lemma binning_drops_value_outside_domain :
  exists s' table bins,
    BioActivityGraph.initHistogramBins Examples.decade_ticks 10 Samples.chart_beyond_scale
    = JS.Normal s'
    /\ BioActivityGraph._bins s' = Some table
    /\ JS.Map_get table "IC50" = Some bins
    /\ Binning.count bins = 1%nat
    /\ List.length (Binning.points_of_type "IC50"
                      (BioActivityGraph._data Samples.chart_beyond_scale)) = 2%nat.
Proof. do 3 eexists. repeat split. Qed.

(** A value outside the domain of the scale is dropped by [bin]: the
    cover is what the conservation rests on. *)
Example value_outside_domain_dropped :
  D3.histogram (JS.Fin 1, JS.Fin 10) [JS.Fin 2; JS.Fin 5] [JS.Fin 3; JS.Fin 100]
  = JS.Normal [D3.mkBin (JS.Fin 1) (JS.Fin 2) [];
               D3.mkBin (JS.Fin 2) (JS.Fin 5) [JS.Fin 3];
               D3.mkBin (JS.Fin 5) (JS.Fin 10) []].
Proof. reflexivity. Qed.

(** * Further properties of the code *)

(** ** The passes over the points *)

Section PassFacts.
Import JS Resolve.

(** The colour pass does not look at the colour the point had. *)
Lemma pointColor_forgets colors v p :
  BioActivityGraph.pointColor colors (Point.set_color v p)
  = BioActivityGraph.pointColor colors p.
Proof. reflexivity. Qed.

Lemma pointShape_forgets shapes v p :
  BioActivityGraph.pointShape shapes (Point.set_shape v p)
  = BioActivityGraph.pointShape shapes p.
Proof. reflexivity. Qed.

(** The colour pass writes [color] and nothing else. *)
Lemma pointColor_writes colors p :
  exists v, BioActivityGraph.pointColor colors p = Point.set_color v p.
Proof.
  unfold BioActivityGraph.pointColor. rewrite some_color_find.
  destruct (find _ _); eexists; reflexivity.
Qed.

Lemma pointShape_writes shapes p :
  exists v, BioActivityGraph.pointShape shapes p = Point.set_shape v p.
Proof.
  unfold BioActivityGraph.pointShape. rewrite some_shape_find.
  destruct (find _ _); eexists; reflexivity.
Qed.

Lemma pointColor_again colors colors' p :
  BioActivityGraph.pointColor colors (BioActivityGraph.pointColor colors' p)
  = BioActivityGraph.pointColor colors p.
Proof.
  destruct (pointColor_writes colors' p) as (v & ->). apply pointColor_forgets.
Qed.

Lemma pointShape_again shapes shapes' p :
  BioActivityGraph.pointShape shapes (BioActivityGraph.pointShape shapes' p)
  = BioActivityGraph.pointShape shapes p.
Proof.
  destruct (pointShape_writes shapes' p) as (v & ->). apply pointShape_forgets.
Qed.

Lemma some_color_v1_find colors keys p :
  BioActivityGraphV1.some_color colors keys p =
    match find (includes (Point.Object_values p)) keys with
    | Some c => Point.set_color (BioActivityGraphV1.Obj_get colors c) p
    | None => p
    end.
Proof.
  induction keys as [|c keys IH]; [reflexivity|].
  cbn [BioActivityGraphV1.some_color find].
  destruct (includes (Point.Object_values p) c); auto.
Qed.

Lemma some_shape_v1_find shapes keys p :
  BioActivityGraphV1.some_shape shapes keys p =
    match find (includes (Point.Object_values p)) keys with
    | Some c => Point.set_shape (BioActivityGraphV1.Obj_get shapes c) p
    | None => p
    end.
Proof.
  induction keys as [|c keys IH]; [reflexivity|].
  cbn [BioActivityGraphV1.some_shape find].
  destruct (includes (Point.Object_values p) c); auto.
Qed.

Lemma pointColor_v1_writes colors p :
  exists v, BioActivityGraphV1.pointColor colors p = Point.set_color v p.
Proof.
  unfold BioActivityGraphV1.pointColor. rewrite some_color_v1_find.
  destruct (find _ _); eexists; reflexivity.
Qed.

Lemma pointShape_v1_writes shapes p :
  exists v, BioActivityGraphV1.pointShape shapes p = Point.set_shape v p.
Proof.
  unfold BioActivityGraphV1.pointShape. rewrite some_shape_v1_find.
  destruct (find _ _); eexists; reflexivity.
Qed.

Lemma pointColor_v1_again colors colors' p :
  BioActivityGraphV1.pointColor colors (BioActivityGraphV1.pointColor colors' p)
  = BioActivityGraphV1.pointColor colors p.
Proof.
  destruct (pointColor_v1_writes colors' p) as (v & ->). reflexivity.
Qed.

Lemma pointShape_v1_again shapes shapes' p :
  BioActivityGraphV1.pointShape shapes (BioActivityGraphV1.pointShape shapes' p)
  = BioActivityGraphV1.pointShape shapes p.
Proof.
  destruct (pointShape_v1_writes shapes' p) as (v & ->). reflexivity.
Qed.

Lemma map_again {A} (f g : A -> A) (l : list A) :
  (forall a, f (g a) = f a) -> map f (map g l) = map f l.
Proof.
  intros H. rewrite map_map. apply map_ext. exact H.
Qed.

End PassFacts.

(** X1. Running the colour pass a second time changes nothing, and the
    pass writes the [color] property only: every other property of every
    point is what it was. The same holds of the shape pass and its [shape]
    property, in both class versions. *)
Theorem passes_idempotent_and_local :
  (forall s : BioActivityGraph.state,
      BioActivityGraph.updatePointColors (BioActivityGraph.updatePointColors s)
      = BioActivityGraph.updatePointColors s
      /\ BioActivityGraph.updatePointShapes (BioActivityGraph.updatePointShapes s)
         = BioActivityGraph.updatePointShapes s)
  /\ (forall s : BioActivityGraphV1.state,
      BioActivityGraphV1.updatePointColors (BioActivityGraphV1.updatePointColors s)
      = BioActivityGraphV1.updatePointColors s
      /\ BioActivityGraphV1.updatePointShapes (BioActivityGraphV1.updatePointShapes s)
         = BioActivityGraphV1.updatePointShapes s)
  /\ (forall (table : JS.Map string) (p : Point.t),
      (exists v, BioActivityGraph.pointColor table p = Point.set_color v p)
      /\ (exists v, BioActivityGraph.pointShape table p = Point.set_shape v p)
      /\ (exists v, BioActivityGraphV1.pointColor table p = Point.set_color v p)
      /\ (exists v, BioActivityGraphV1.pointShape table p = Point.set_shape v p)).
Proof.
  split; [|split].
  - intros [data X Y bins colors shapes]. split.
    + unfold BioActivityGraph.updatePointColors, BioActivityGraph.set_data. cbn.
      f_equal. apply map_again. intros p. apply pointColor_again.
    + unfold BioActivityGraph.updatePointShapes, BioActivityGraph.set_data. cbn.
      f_equal. apply map_again. intros p. apply pointShape_again.
  - intros [points labels X Y bins colors shapes]. split.
    + unfold BioActivityGraphV1.updatePointColors, BioActivityGraphV1.set_points. cbn.
      f_equal. apply map_again. intros p. apply pointColor_v1_again.
    + unfold BioActivityGraphV1.updatePointShapes, BioActivityGraphV1.set_points. cbn.
      f_equal. apply map_again. intros p. apply pointShape_v1_again.
  - intros table p. split; [|split; [|split]].
    + apply pointColor_writes.
    + apply pointShape_writes.
    + apply pointColor_v1_writes.
    + apply pointShape_v1_writes.
Qed.

(** ** Adding a rule and closing its row *)

Section RoundTripFacts.
Import JS BioActivityGraph.

Lemma Map_delete_set_fresh {V} (m : Map V) k v :
  ~ In k (Map_keys m) -> Map_delete (Map_set m k v) k = m.
Proof.
  induction m as [|[k' v'] m IH]; cbn [Map_set Map_delete Map_keys map fst In]; intros Hn.
  - now rewrite String.eqb_refl.
  - destruct (String.eqb k' k) eqn:E.
    + apply String.eqb_eq in E. tauto.
    + cbn [Map_delete]. rewrite E. f_equal. apply IH. tauto.
Qed.

Lemma Map_keys_delete_incl {V} (m : Map V) k k' :
  In k' (Map_keys (Map_delete m k)) -> In k' (Map_keys m).
Proof.
  induction m as [|[k0 v0] m IH]; cbn [Map_delete Map_keys map fst In]; auto.
  destruct (String.eqb k0 k); cbn [map fst In]; tauto.
Qed.

Lemma Map_keys_NoDup_delete {V} (m : Map V) k :
  NoDup (Map_keys m) -> NoDup (Map_keys (Map_delete m k)).
Proof.
  induction m as [|[k0 v0] m IH]; cbn [Map_delete Map_keys map fst]; intros Hnd; auto.
  inversion Hnd as [|? ? Hnotin Hnd']; subst.
  destruct (String.eqb k0 k); auto.
  cbn [map fst]. constructor; auto.
  intros Hin. apply Hnotin. eapply Map_keys_delete_incl. exact Hin.
Qed.

(** With distinct keys, a deleted key is gone. *)
Lemma Map_delete_gone {V} (m : Map V) k :
  NoDup (Map_keys m) -> ~ In k (Map_keys (Map_delete m k)).
Proof.
  induction m as [|[k0 v0] m IH]; cbn [Map_delete Map_keys map fst]; intros Hnd; auto.
  inversion Hnd as [|? ? Hnotin Hnd']; subst.
  destruct (String.eqb k0 k) eqn:E.
  - apply String.eqb_eq in E. now subst k0.
  - apply String.eqb_neq in E. cbn [map fst In]. intros [H|H]; [congruence|].
    now apply IH.
Qed.

Lemma Map_keys_head_set {V} (m : Map V) k v h rest :
  Map_keys m = h :: rest -> exists rest', Map_keys (Map_set m k v) = h :: rest'.
Proof.
  destruct m as [|[k0 v0] m]; [discriminate|].
  cbn [Map_keys map fst Map_set]. intros H. inversion H. subst.
  destruct (String.eqb h k); cbn [map fst]; eauto.
Qed.

Lemma Map_keys_head_delete {V} (m : Map V) k h rest :
  k <> h -> Map_keys m = h :: rest ->
  exists rest', Map_keys (Map_delete m k) = h :: rest'.
Proof.
  intros Hne. destruct m as [|[k0 v0] m]; [discriminate|].
  cbn [Map_keys map fst Map_delete]. intros H. inversion H. subst.
  destruct (String.eqb h k) eqn:E.
  - apply String.eqb_eq in E. congruence.
  - cbn [map fst]. eauto.
Qed.

Lemma set_colors_pass colors colors' s :
  updatePointColors (set_colors colors (updatePointColors (set_colors colors' s)))
  = updatePointColors (set_colors colors s).
Proof.
  destruct s as [data X Y bins c sh].
  unfold updatePointColors, set_colors, set_data. cbn.
  f_equal. apply map_again. intros p. apply pointColor_again.
Qed.

Lemma set_shapes_pass shapes shapes' s :
  updatePointShapes (set_shapes shapes (updatePointShapes (set_shapes shapes' s)))
  = updatePointShapes (set_shapes shapes s).
Proof.
  destruct s as [data X Y bins c sh].
  unfold updatePointShapes, set_shapes, set_data. cbn.
  f_equal. apply map_again. intros p. apply pointShape_again.
Qed.

Lemma set_colors_same s : set_colors (_colors s) s = s.
Proof. now destruct s. Qed.

Lemma set_shapes_same s : set_shapes (_shapes s) s = s.
Proof. now destruct s. Qed.

End RoundTripFacts.

(** X2. Adding a colour rule under a key the colour table does not have
    and then closing the row of that key leaves the chart exactly as one
    colour pass over the chart before the two events: the table is the one
    before, and no point keeps a trace of the rule. The same holds of a
    shape rule under a key the shape table does not have. Only the table
    being edited has to lack the key. *)
Theorem add_then_close_restores
  (s : BioActivityGraph.state) (key upd : string)
  (Hkey : key <> "Default") :
  (~ In key (JS.Map_keys (BioActivityGraph._colors s)) ->
   JS.bind (BioActivityGraph.modalOK "Color" (Some key) (Some upd) s)
           (BioActivityGraph.colorRowClose key)
   = JS.Normal (BioActivityGraph.updatePointColors s))
  /\ (forall type : string,
        type <> "Color" ->
        ~ In key (JS.Map_keys (BioActivityGraph._shapes s)) ->
        JS.bind (BioActivityGraph.modalOK type (Some key) (Some upd) s)
                (BioActivityGraph.shapeRowClose key)
        = JS.Normal (BioActivityGraph.updatePointShapes s)).
Proof.
  apply String.eqb_neq in Hkey.
  split.
  - intros Hcolor. unfold BioActivityGraph.modalOK.
    change (String.eqb "Color" "Color") with true.
    cbn [JS.bind]. unfold BioActivityGraph.colorRowClose.
    rewrite Hkey. f_equal.
    change (BioActivityGraph._colors
              (BioActivityGraph.updatePointColors
                 (BioActivityGraph.set_colors
                    (JS.Map_set (BioActivityGraph._colors s) key upd) s)))
      with (JS.Map_set (BioActivityGraph._colors s) key upd).
    rewrite Map_delete_set_fresh by assumption.
    rewrite set_colors_pass. now rewrite set_colors_same.
  - intros type Htype Hshape. apply String.eqb_neq in Htype.
    unfold BioActivityGraph.modalOK. rewrite Htype.
    cbn [JS.bind]. unfold BioActivityGraph.shapeRowClose.
    rewrite Hkey. f_equal.
    change (BioActivityGraph._shapes
              (BioActivityGraph.updatePointShapes
                 (BioActivityGraph.set_shapes
                    (JS.Map_set (BioActivityGraph._shapes s) key upd) s)))
      with (JS.Map_set (BioActivityGraph._shapes s) key upd).
    rewrite Map_delete_set_fresh by assumption.
    rewrite set_shapes_pass. now rewrite set_shapes_same.
Qed.

(** On a chart whose shape table already has a rule under [IC50], a colour
    rule under [IC50] is added and closed without a trace; and the other
    way round. *)
Lemma add_then_close_restores_witness :
  JS.bind (BioActivityGraph.modalOK "Color" (Some "IC50") (Some "#00ff00")
             Samples.chart_with_shape_rule)
          (BioActivityGraph.colorRowClose "IC50")
  = JS.Normal (BioActivityGraph.updatePointColors Samples.chart_with_shape_rule)
  /\ JS.bind (BioActivityGraph.modalOK "Shape" (Some "EGFR") (Some "Star")
                Samples.chart_with_shape_rule)
             (BioActivityGraph.shapeRowClose "EGFR")
     = JS.Normal (BioActivityGraph.updatePointShapes Samples.chart_with_shape_rule).
Proof.
  assert (Hin : forall (k : string) (l : list string),
             forallb (fun k' => negb (String.eqb k k')) l = true -> ~ In k l).
  { intros k l H Hin. rewrite forallb_forall in H. specialize (H _ Hin).
    now rewrite String.eqb_refl in H. }
  split.
  - apply (add_then_close_restores Samples.chart_with_shape_rule "IC50" "#00ff00");
      [discriminate | apply Hin; reflexivity].
  - apply (add_then_close_restores Samples.chart_with_shape_rule "EGFR" "Star");
      [discriminate | discriminate | apply Hin; reflexivity].
Defined.

(** ** The tables over the life of a chart *)

Section TidyFacts.
Import JS D3 BioActivityGraph Tables.

Lemma tidy_table_set m k v : tidy_table m -> tidy_table (Map_set m k v).
Proof.
  intros (Hnd & rest & Hk). split.
  - now apply Map_keys_NoDup_set.
  - eapply Map_keys_head_set. exact Hk.
Qed.

Lemma tidy_table_delete m k :
  k <> "Default" -> tidy_table m -> tidy_table (Map_delete m k).
Proof.
  intros Hne (Hnd & rest & Hk). split.
  - now apply Map_keys_NoDup_delete.
  - eapply Map_keys_head_delete; eauto.
Qed.

Lemma tidy_dispatch s e : tidy s -> tidy (dispatch s e).
Proof.
  intros (Hc & Hs). unfold dispatch.
  destruct e as [type val upd|key|key]; cbn [handler].
  - unfold modalOK. destruct val as [val|]; [|split; auto].
    destruct upd as [upd|]; [|split; auto].
    destruct (String.eqb type "Color"); split; cbn; auto using tidy_table_set.
  - unfold colorRowClose. destruct (String.eqb key "Default") eqn:E; [split; auto|].
    apply String.eqb_neq in E. split; cbn; auto using tidy_table_delete.
  - unfold shapeRowClose. destruct (String.eqb key "Default") eqn:E; [split; auto|].
    apply String.eqb_neq in E. split; cbn; auto using tidy_table_delete.
Qed.

Lemma tidy_run events : forall s, tidy s -> tidy (run events s).
Proof.
  induction events as [|e events IH]; intros s H; [exact H|].
  cbn. apply IH. now apply tidy_dispatch.
Qed.

(** The tables of a chart the constructor has built. *)
Lemma constructor_tables Math_log10 scaleLog_apply scaleLog_ticks random chemblObj c i s j :
  constructor Math_log10 scaleLog_apply scaleLog_ticks random chemblObj c i = (Normal (Some s), j) ->
  _colors s = [("Default", "#C0C0C0")] /\ _shapes s = [("Default", "Circle")].
Proof.
  unfold constructor. destruct chemblObj as [obj|]; [|discriminate].
  destruct (Input.targetProteins obj) as [|p proteins]; [discriminate|].
  destruct (loadData (p :: proteins)) as [data|e]; [|discriminate].
  unfold rbind, ret.
  destruct (updatePointPositions _ _ _ _ i) as [s1 j1] eqn:E1.
  unfold initHistogramBins.
  destruct (rollup _ _ _) as [bins|e]; cbn [bind]; [|discriminate].
  intros H. inversion H. subst.
  unfold updatePointPositions, rbind, ret in E1.
  destruct (mapM _ _ i). inversion E1. split; reflexivity.
Qed.

Lemma tidy_table_Default v : tidy_table [("Default", v)].
Proof.
  split.
  - cbn. constructor; [intros []|constructor].
  - exists []. reflexivity.
Qed.

End TidyFacts.

(** X3. From the constructor on and whatever the events, each table lists
    every key once and lists [Default] first; and once the row of a key
    other than [Default] is closed, the key is in the table no more. *)
Theorem tables_stay_tidy
  Math_log10 scaleLog_apply scaleLog_ticks random chemblObj c i s j
  (Hnew : BioActivityGraph.constructor Math_log10 scaleLog_apply scaleLog_ticks random chemblObj c i
          = (JS.Normal (Some s), j)) :
  forall events,
    Tables.tidy (BioActivityGraph.run events s)
    /\ forall key, key <> "Default" ->
         ~ In key (JS.Map_keys (BioActivityGraph._colors
                     (BioActivityGraph.run
                        (events ++ [BioActivityGraph.ColorRowClose key]) s)))
         /\ ~ In key (JS.Map_keys (BioActivityGraph._shapes
                        (BioActivityGraph.run
                           (events ++ [BioActivityGraph.ShapeRowClose key]) s))).
Proof.
  intros events.
  assert (T : Tables.tidy (BioActivityGraph.run events s)).
  { apply tidy_run.
    destruct (constructor_tables _ _ _ _ _ _ _ _ _ Hnew) as [Hc Hs].
    split; [rewrite Hc | rewrite Hs]; apply tidy_table_Default. }
  split; [exact T|].
  intros key Hkey. apply String.eqb_neq in Hkey.
  unfold BioActivityGraph.run in *. rewrite !fold_left_app.
  cbn [fold_left]. unfold BioActivityGraph.dispatch.
  cbn [BioActivityGraph.handler].
  unfold BioActivityGraph.colorRowClose, BioActivityGraph.shapeRowClose.
  rewrite Hkey. destruct T as ((Hc & _) & (Hs & _)).
  split; cbn; now apply Map_delete_gone.
Qed.

Lemma tables_stay_tidy_witness :
  Tables.tidy
    (BioActivityGraph.run
       [BioActivityGraph.ModalOK "Color" (Some "IC50") (Some "#ff0000");
        BioActivityGraph.ModalOK "Color" (Some "IC50") (Some "#00ff00");
        BioActivityGraph.ColorRowClose "IC50";
        BioActivityGraph.ShapeRowClose "Default"]
       Samples.chart).
Proof.
  apply (tables_stay_tidy Decimal.log10 Examples.flat_scale Examples.decade_ticks Examples.halves
           (Some Samples.compound) (BioActivityGraph.mkControls false false) 0%nat
           Samples.chart 0%nat).
  vm_compute. reflexivity.
Defined.

(** ** The layout in every mode *)

Section ModeFacts.
Import JS D3.

Variable scaleLog_apply : scaleLog -> number -> number.
Variable random : nat -> Q.

Lemma positionPoint_draw jitter violin X Y d i :
  BioActivityGraph.positionPoint scaleLog_apply random jitter violin X Y
    (div (bandwidth X) (Fin 4)) d i
  = (Layout.place scaleLog_apply jitter violin X Y (random i) d,
     if jitter then S i else i).
Proof. destruct jitter, violin; reflexivity. Qed.

Lemma nth_error_map_some {A B} (f : A -> B) (l : list A) k a :
  nth_error l k = Some a -> nth_error (map f l) k = Some (f a).
Proof.
  revert k. induction l as [|x l IH]; intros [|k] H; try discriminate.
  - inversion H. reflexivity.
  - cbn. now apply IH.
Qed.

Lemma positions_every_mode jitter violin X Y data i :
  let out := mapM (BioActivityGraph.positionPoint scaleLog_apply random jitter violin X Y
                     (div (bandwidth X) (Fin 4))) data i in
  snd out = (if jitter then i + List.length data else i)%nat
  /\ List.length (fst out) = List.length data
  /\ forall k d, nth_error data k = Some d ->
       nth_error (fst out) k
       = Some (Layout.place scaleLog_apply jitter violin X Y (random (i + k)%nat) d).
Proof.
  destruct jitter.
  - apply (mapM_draw random
             (BioActivityGraph.positionPoint scaleLog_apply random true violin X Y
                (div (bandwidth X) (Fin 4)))
             (fun d r => Layout.place scaleLog_apply true violin X Y r d)).
    intros d j. apply positionPoint_draw.
  - cbv zeta.
    rewrite (positions_no_jitter scaleLog_apply random violin X Y
               (div (bandwidth X) (Fin 4)) data i).
    cbn [fst snd]. split; [reflexivity|]. split; [apply length_map|].
    intros k d Hk.
    apply (nth_error_map_some
             (fun d => Layout.place scaleLog_apply false violin X Y (random (i + k)%nat) d)).
    exact Hk.
Qed.

(** Where the offset lies, mode by mode. *)
Lemma dx_range jitter violin bw r :
  (0 < bw)%Q -> (0 <= r)%Q -> (r < 1)%Q ->
  (0 < Layout.dx jitter violin bw r)%Q
  /\ (Layout.dx jitter violin bw r < bw)%Q
  /\ (jitter = false -> (Layout.dx jitter violin bw r == bw / 2)%Q)
  /\ (violin = true ->
      (bw / 4 < Layout.dx jitter violin bw r)%Q
      /\ (Layout.dx jitter violin bw r <= bw / 2)%Q).
Proof.
  intros Hbw Hr0 Hr1.
  destruct jitter, violin; unfold Layout.dx; cbn [andb]; qdiv;
    (split; [nra|]; split; [nra|]; split; [intros; try discriminate; try nra|]);
    intros; try discriminate; split; nra.
Qed.

Lemma index_of_lt (t : string) (l : list string) :
  forall i, index_of t l = Some i -> (i < List.length l)%nat.
Proof.
  induction l as [|x l IH]; intros i; cbn [index_of List.length]; [discriminate|].
  destruct (String.eqb x t).
  - intros H. inversion H. lia.
  - destruct (index_of t l) as [j|]; [|discriminate].
    cbn. intros H. inversion H. specialize (IH j eq_refl). lia.
Qed.

End ModeFacts.

Section OwnAxisFacts.
Import JS D3.

(** The bands of the chart's own axis: the first starts a twentieth of a
    step after 0, the last ends before 320. *)
Lemma own_axis_band (data : list Point.t) (t : string) :
  In t (map Point.type data) ->
  exists b,
    band_apply (BioActivityGraph.initXAxis data) t = Some (Fin b)
    /\ (0 < Layout.width (BioActivityGraph.initXAxis data))%Q
    /\ (0 < b)%Q
    /\ (b + Layout.width (BioActivityGraph.initXAxis data) < 320)%Q.
Proof.
  intros Hin.
  set (X := BioActivityGraph.initXAxis data).
  destruct (index_of_In t (band_domain X)) as (i & Hi).
  { apply uniq_In; [exact Hin | reflexivity]. }
  pose proof (index_of_lt _ _ _ Hi) as Hlt.
  assert (Hrev : band_reverse X = false) by reflexivity.
  unfold band_apply. rewrite Hi, Hrev. cbv zeta.
  eexists. split; [reflexivity|].
  unfold Layout.width, band_start, band_step, band_hi, band_lo, band_n.
  rewrite Hrev.
  change (band_padding X) with (5 # 100)%Q.
  change (fst (band_range X)) with 0%Q.
  change (snd (band_range X)) with (400 - 40 - 40)%Q.
  set (n := inject_Z (Z.of_nat (List.length (band_domain X)))).
  set (k := inject_Z (Z.of_nat i)).
  assert (Hk0 : (0 <= k)%Q).
  { unfold k. change 0%Q with (inject_Z 0). rewrite <- Zle_Qle. lia. }
  assert (Hkn : (k + 1 <= n)%Q).
  { unfold k, n. change 1%Q with (inject_Z 1). rewrite <- inject_Z_plus.
    rewrite <- Zle_Qle. lia. }
  assert (Hmax : Qmax1 (n - (5 # 100) + (5 # 100) * 2) = (n - (5 # 100) + (5 # 100) * 2)%Q).
  { unfold Qmax1. destruct (Qle_bool 1 _) eqn:E; [reflexivity|].
    assert (H : (1 <= n - (5 # 100) + (5 # 100) * 2)%Q) by lra.
    apply Qle_bool_iff in H. congruence. }
  rewrite Hmax.
  set (m := (n - (5 # 100) + (5 # 100) * 2)%Q).
  assert (Hm : (m == n + (1 # 20))%Q) by (unfold m; lra).
  set (S := ((400 - 40 - 40 - 0) / m)%Q).
  assert (HS : (S * m == 320)%Q).
  { unfold S. field. lra. }
  assert (HS0 : (0 < S)%Q).
  { unfold S. apply Qlt_shift_div_l; lra. }
  rewrite Hm in HS.
  repeat split; nra.
Qed.

End OwnAxisFacts.

(** X4. Whatever the two boxes, [updatePointPositions] keeps the points in
    their order and touches [x] and [y] only; the point at index [k] is
    placed with the draw of index [i + k] when jitter is checked, and no
    draw is made when it is not; [y] is the scaled value of the point and
    owes nothing to the boxes or the draws; the scales and the tables are
    left alone. *)
Theorem layout_by_index :
  forall (scaleLog_apply : D3.scaleLog -> JS.number -> JS.number) (random : nat -> Q)
         (c : BioActivityGraph.controls) (s : BioActivityGraph.state) (i : nat),
    let out := BioActivityGraph.updatePointPositions scaleLog_apply random c s i in
    snd out = (if BioActivityGraph.cb_jitter c
               then i + List.length (BioActivityGraph._data s) else i)%nat
    /\ List.length (BioActivityGraph._data (fst out))
       = List.length (BioActivityGraph._data s)
    /\ (forall k d,
          nth_error (BioActivityGraph._data s) k = Some d ->
          exists xv,
            nth_error (BioActivityGraph._data (fst out)) k
            = Some (Point.set_y (scaleLog_apply (BioActivityGraph._yAxis s) (Point.value d))
                      (Point.set_x xv d))
            /\ xv = JS.add (JS.ToNumber (D3.band_apply (BioActivityGraph._xAxis s)
                                           (Point.type d)))
                           (JS.Fin (Layout.dx (BioActivityGraph.cb_jitter c)
                                      (BioActivityGraph.cb_violin c)
                                      (Layout.width (BioActivityGraph._xAxis s))
                                      (random (i + k)%nat))))
    /\ BioActivityGraph.set_data (BioActivityGraph._data s) (fst out) = s.
Proof.
  intros scaleLog_apply random c s i out. subst out.
  rewrite updatePointPositions_next, updatePointPositions_data.
  destruct (positions_every_mode scaleLog_apply random
              (BioActivityGraph.cb_jitter c) (BioActivityGraph.cb_violin c)
              (BioActivityGraph._xAxis s) (BioActivityGraph._yAxis s)
              (BioActivityGraph._data s) i) as (H1 & H2 & H3).
  split; [exact H1|]. split; [exact H2|]. split.
  - intros k d Hk. eexists. split; [exact (H3 k d Hk)|reflexivity].
  - unfold BioActivityGraph.updatePointPositions, JS.rbind, JS.ret.
    destruct (JS.mapM _ _ i). destruct s. reflexivity.
Qed.

Section InsideFacts.
Import JS D3.

Lemma In_nth_error_of {A} (l l' : list A) (a' : A) :
  List.length l' = List.length l ->
  In a' l' ->
  exists k a, nth_error l k = Some a /\ nth_error l' k = Some a'.
Proof.
  intros Hlen Hin. apply In_nth_error in Hin. destruct Hin as (k & Hk).
  assert (Hlt : (k < List.length l)%nat).
  { rewrite <- Hlen. apply nth_error_Some. congruence. }
  destruct (nth_error l k) as [a|] eqn:E.
  - exists k, a. auto.
  - apply nth_error_None in E. lia.
Qed.

End InsideFacts.

(** X5. On the axis the chart builds from its own points, and with draws
    in [[0, 1)], every point is placed strictly inside the band of its
    type, in every mode, and therefore strictly between 0 and 320, the
    width of the plot; with the violin box checked it is placed in the
    left half of its band, between the first quarter and the centre. *)
Theorem points_inside_plot
  (scaleLog_apply : D3.scaleLog -> JS.number -> JS.number) (random : nat -> Q)
  (c : BioActivityGraph.controls) (s : BioActivityGraph.state) (i : nat)
  (Haxis : BioActivityGraph._xAxis s = BioActivityGraph.initXAxis (BioActivityGraph._data s))
  (Hdraws : forall n, (0 <= random n)%Q /\ (random n < 1)%Q) :
  Forall (fun p =>
            exists b xq,
              D3.band_apply (BioActivityGraph._xAxis s) (Point.type p) = Some (JS.Fin b)
              /\ Point.x p = Some (JS.Fin xq)
              /\ (b < xq)%Q
              /\ (xq < b + Layout.width (BioActivityGraph._xAxis s))%Q
              /\ (0 < xq)%Q /\ (xq < 320)%Q
              /\ (BioActivityGraph.cb_violin c = true ->
                  (b + Layout.width (BioActivityGraph._xAxis s) / 4 < xq)%Q
                  /\ (xq <= b + Layout.width (BioActivityGraph._xAxis s) / 2)%Q))
         (BioActivityGraph._data
            (fst (BioActivityGraph.updatePointPositions scaleLog_apply random c s i))).
Proof.
  apply Forall_forall. intros p Hp.
  rewrite updatePointPositions_data in Hp.
  destruct (positions_every_mode scaleLog_apply random
              (BioActivityGraph.cb_jitter c) (BioActivityGraph.cb_violin c)
              (BioActivityGraph._xAxis s) (BioActivityGraph._yAxis s)
              (BioActivityGraph._data s) i) as (_ & H2 & H3).
  destruct (In_nth_error_of _ _ _ H2 Hp) as (k & d & Hd & Hk).
  rewrite (H3 k d Hd) in Hk. inversion Hk as [Ep]. clear Hk.
  assert (Hin : In (Point.type d) (map Point.type (BioActivityGraph._data s))).
  { apply in_map. eapply nth_error_In. exact Hd. }
  destruct (own_axis_band _ _ Hin) as (b & Hb & Hw & Hb0 & Hb1).
  rewrite <- Haxis in Hb, Hw, Hb1.
  destruct (Hdraws (i + k)%nat) as [Hr0 Hr1].
  destruct (dx_range (BioActivityGraph.cb_jitter c) (BioActivityGraph.cb_violin c)
              (Layout.width (BioActivityGraph._xAxis s)) (random (i + k)%nat)
              Hw Hr0 Hr1) as (D0 & D1 & _ & Dv).
  exists b. eexists.
  unfold Layout.place.
  cbn [Point.type Point.x Point.set_x Point.set_y]. rewrite Hb.
  split; [reflexivity|]. split; [reflexivity|].
  repeat split; try lra.
  - apply Dv in H. lra.
  - apply Dv in H. lra.
Qed.

Lemma points_inside_plot_witness :
  Forall (fun p =>
            exists b xq,
              D3.band_apply (BioActivityGraph._xAxis Examples.two_points_state)
                            (Point.type p) = Some (JS.Fin b)
              /\ Point.x p = Some (JS.Fin xq)
              /\ (b < xq)%Q
              /\ (xq < b + Layout.width (BioActivityGraph._xAxis Examples.two_points_state))%Q
              /\ (0 < xq)%Q /\ (xq < 320)%Q
              /\ (true = true ->
                  (b + Layout.width (BioActivityGraph._xAxis Examples.two_points_state) / 4
                   < xq)%Q
                  /\ (xq <= b + Layout.width
                                  (BioActivityGraph._xAxis Examples.two_points_state) / 2)%Q))
         (BioActivityGraph._data
            (fst (BioActivityGraph.updatePointPositions Examples.flat_scale Examples.halves
                    (BioActivityGraph.mkControls true true)
                    Examples.two_points_state 0%nat))).
Proof.
  apply (points_inside_plot Examples.flat_scale Examples.halves
           (BioActivityGraph.mkControls true true) Examples.two_points_state 0%nat).
  - reflexivity.
  - intros n. split; [discriminate|reflexivity].
Defined.

(** ** The scales of class version 1.1, read off the points *)

Section ScanFacts.
Import JS D3.

Lemma fold_flat_map {A B S} (f : S -> B -> S) (g : A -> list B) (l : list A) :
  forall s, fold_left (fun s a => fold_left f (g a) s) l s = fold_left f (flat_map g l) s.
Proof.
  induction l as [|a l IH]; intros s; [reflexivity|].
  cbn [fold_left flat_map]. now rewrite fold_left_app, IH.
Qed.

Lemma fold_through_map {A B S} (f : S -> B -> S) (h : A -> B) (l : list A) :
  forall s, fold_left (fun s a => f s (h a)) l s = fold_left f (map h l) s.
Proof.
  induction l as [|a l IH]; intros s; [reflexivity|]. cbn. apply IH.
Qed.

(** One step of [extractXLabels] on the type of an activity. *)
Lemma labels_fold (l : list string) : forall labels seen,
  (forall x, existsb (String.eqb x) labels = existsb (String.eqb x) seen) ->
  fold_left (fun labels t =>
               if existsb (String.eqb t) labels then labels else (labels ++ [t])%list)
            l labels
  = (labels ++ uniq seen l)%list.
Proof.
  induction l as [|t l IH]; intros labels seen H; cbn [fold_left uniq].
  - now rewrite app_nil_r.
  - rewrite <- (H t). destruct (existsb (String.eqb t) labels) eqn:E.
    + now apply IH.
    + rewrite (IH (labels ++ [t])%list (t :: seen)).
      * now rewrite <- app_assoc.
      * intros x. rewrite existsb_app. cbn [existsb]. rewrite (H x).
        rewrite orb_false_r. apply orb_comm.
Qed.

Lemma flatten_types org proteins :
  map Point.type (Pairs.flatten org proteins)
  = map Input.type (flat_map Input.activities proteins).
Proof.
  unfold Pairs.flatten. induction proteins as [|p proteins IH]; [reflexivity|].
  cbn [flat_map]. rewrite !map_app, IH, map_map. reflexivity.
Qed.

Lemma extractXLabels_uniq proteins :
  BioActivityGraphV1.extractXLabels proteins
  = uniq [] (map Input.type (flat_map Input.activities proteins)).
Proof.
  unfold BioActivityGraphV1.extractXLabels.
  rewrite (fold_flat_map
             (fun labels act =>
                if existsb (String.eqb (Input.type act)) labels then labels
                else (labels ++ [Input.type act])%list)
             Input.activities proteins []).
  rewrite (fold_through_map
             (fun labels t =>
                if existsb (String.eqb t) labels then labels else (labels ++ [t])%list)
             Input.type).
  now rewrite (labels_fold _ [] []).
Qed.

(** [uniq] leaves out what was seen, and lists nothing twice. *)
Lemma uniq_not_seen (l : list string) : forall seen x,
  In x (uniq seen l) -> existsb (String.eqb x) seen = false /\ In x l.
Proof.
  induction l as [|t l IH]; intros seen x; cbn [uniq]; [intros []|].
  destruct (existsb (String.eqb t) seen) eqn:E.
  - intros H. destruct (IH _ _ H). split; [assumption|now right].
  - intros [<-|H]; [split; [assumption|now left]|].
    destruct (IH _ _ H) as [Hs Hin]. split; [|now right].
    cbn [existsb] in Hs. now apply orb_false_iff in Hs.
Qed.

Lemma uniq_NoDup (l : list string) : forall seen, NoDup (uniq seen l).
Proof.
  induction l as [|t l IH]; intros seen; cbn [uniq]; [constructor|].
  destruct (existsb (String.eqb t) seen); [apply IH|].
  constructor; [|apply IH].
  intros H. apply uniq_not_seen in H. destruct H as [H _].
  cbn [existsb] in H. now rewrite String.eqb_refl in H.
Qed.

Lemma uniq_again (l : list string) : forall seen,
  uniq seen (uniq seen l) = uniq seen l.
Proof.
  induction l as [|t l IH]; intros seen; cbn [uniq]; [reflexivity|].
  destruct (existsb (String.eqb t) seen) eqn:E; [apply IH|].
  cbn [uniq]. rewrite E. now rewrite IH.
Qed.

Lemma min_max_agree org proteins : forall mm,
  fold_left (fun p c => (Math_min (Point.value c) (fst p),
                         Math_max (Point.value c) (snd p)))
            (Pairs.flatten org proteins) mm
  = fold_left (fun mm p =>
      fold_left (fun mm a =>
                   let max := Math_max (Input.conc a) (snd mm) in
                   let min := Math_min (Input.conc a) (fst mm) in
                   (min, max)) (Input.activities p) mm) proteins mm.
Proof.
  unfold Pairs.flatten.
  induction proteins as [|p proteins IH]; intros mm; [reflexivity|].
  cbn [flat_map fold_left]. rewrite fold_left_app, IH. f_equal.
  generalize (Input.activities p). intros acts. revert mm.
  induction acts as [|a acts IHa]; intros mm; [reflexivity|].
  cbn [map fold_left]. apply IHa.
Qed.

End ScanFacts.

(** X6. Class version 1.1 reads its labels and its value range off the
    input with two scans of their own; class version 2.0 reads them off
    the loaded points. The two give the same axes: the labels are the
    distinct types of the points in order of first appearance, each once,
    and the horizontal and the vertical scale are those class version 2.0
    builds from the points, whatever the organisms. *)
Theorem scans_agree_with_points :
  forall (Math_log10 : Q -> Q) (proteins : list Input.TargetProtein)
         (org : Input.TargetProtein -> option JS.jsval),
    BioActivityGraphV1.extractXLabels proteins
    = D3.uniq [] (map Point.type (BioActivityGraphV1.loadData proteins))
    /\ NoDup (BioActivityGraphV1.extractXLabels proteins)
    /\ (forall t, In t (BioActivityGraphV1.extractXLabels proteins)
                  <-> exists p, In p (BioActivityGraphV1.loadData proteins)
                                /\ Point.type p = t)
    /\ BioActivityGraphV1.initXAxis (BioActivityGraphV1.extractXLabels proteins)
       = BioActivityGraph.initXAxis (Pairs.flatten org proteins)
    /\ BioActivityGraphV1.initYAxis Math_log10 proteins
       = BioActivityGraph.initYAxis Math_log10 (Pairs.flatten org proteins).
Proof.
  intros Math_log10 proteins org.
  assert (Hload : BioActivityGraphV1.loadData proteins
                  = Pairs.flatten (fun _ => None) proteins).
  { unfold BioActivityGraphV1.loadData. now rewrite loadData_v1_from. }
  assert (Hlab : BioActivityGraphV1.extractXLabels proteins
                 = D3.uniq [] (map Point.type (Pairs.flatten org proteins))).
  { now rewrite extractXLabels_uniq, flatten_types. }
  split; [|split; [|split; [|split]]].
  - rewrite Hload, extractXLabels_uniq, flatten_types. reflexivity.
  - rewrite Hlab. apply uniq_NoDup.
  - intros t. rewrite extractXLabels_uniq, Hload, <- (flatten_types (fun _ => None)).
    split.
    + intros H. apply uniq_not_seen in H. destruct H as [_ H].
      apply in_map_iff in H. destruct H as (p & Ht & Hp). eauto.
    + intros (p & Hp & <-). apply uniq_In; [now apply in_map|reflexivity].
  - unfold BioActivityGraphV1.initXAxis, BioActivityGraph.initXAxis, D3.scaleBand_make.
    rewrite Hlab. now rewrite uniq_again.
  - unfold BioActivityGraphV1.initYAxis, BioActivityGraph.initYAxis.
    unfold BioActivityGraph.min_max, BioActivityGraphV1.min_max.
    now rewrite (min_max_agree org).
Qed.

(** ** The chart the constructor builds *)

Section BuildFacts.
Import JS D3 BioActivityGraph.

Variable Math_log10 : Q -> Q.
Variable scaleLog_apply : scaleLog -> number -> number.
Variable scaleLog_ticks : scaleLog -> nat -> list number.
Variable random : nat -> Q.

(** A pass that draws keeps what its callback keeps. *)
Lemma mapM_keeps {A B C} (f : A -> rnd B) (h : B -> C) (h' : A -> C) :
  (forall a i, h (fst (f a i)) = h' a) ->
  forall l i, map h (fst (mapM f l i)) = map h' l.
Proof.
  intros H. induction l as [|a l IH]; intros i; [reflexivity|].
  cbn [mapM map]. unfold rbind, ret.
  destruct (f a i) as [b j] eqn:E. specialize (IH j).
  destruct (mapM f l j) as [bs j']. cbn [fst map] in *.
  rewrite IH. f_equal. specialize (H a i). now rewrite E in H.
Qed.

Lemma updatePointPositions_fields c s i :
  fst (updatePointPositions scaleLog_apply random c s i)
  = set_data (fst (mapM (positionPoint scaleLog_apply random (cb_jitter c) (cb_violin c)
                           (_xAxis s) (_yAxis s) (div (bandwidth (_xAxis s)) (Fin 4)))
                        (_data s) i)) s.
Proof.
  unfold updatePointPositions, rbind, ret. now destruct (mapM _ _ i).
Qed.

Lemma updatePointPositions_raw c s i :
  map Frame.raw (_data (fst (updatePointPositions scaleLog_apply random c s i)))
  = map Frame.raw (_data s).
Proof.
  rewrite updatePointPositions_fields. cbn [_data set_data].
  apply mapM_keeps. intros d j. now destruct (cb_jitter c), (cb_violin c).
Qed.

Lemma raw_pointColor colors p : Frame.raw (pointColor colors p) = Frame.raw p.
Proof. destruct (pointColor_writes colors p) as (v & ->). reflexivity. Qed.

Lemma raw_pointShape shapes p : Frame.raw (pointShape shapes p) = Frame.raw p.
Proof. destruct (pointShape_writes shapes p) as (v & ->). reflexivity. Qed.

Lemma raw_flatten org proteins :
  map Frame.raw (Pairs.flatten org proteins) = Pairs.flatten org proteins.
Proof.
  unfold Pairs.flatten. induction proteins as [|p proteins IH]; [reflexivity|].
  cbn [flat_map]. rewrite map_app, IH. f_equal.
  rewrite map_map. reflexivity.
Qed.

(** With the first table of a chart every point gets the default. *)
Lemma pointColor_first v p :
  Point.color (pointColor [("Default", v)] p) = Some (Str v).
Proof.
  unfold pointColor. cbn [Map_keys map fst some_color].
  destruct (includes _ _); reflexivity.
Qed.

Lemma pointShape_first v p :
  Point.shape (pointShape [("Default", v)] p) = Some (Str v).
Proof.
  unfold pointShape. cbn [Map_keys map fst some_shape].
  destruct (includes _ _); reflexivity.
Qed.

(** The scales read the types and the values only. *)
Lemma initXAxis_raw data data' :
  map Frame.raw data = map Frame.raw data' -> initXAxis data = initXAxis data'.
Proof.
  intros H. unfold initXAxis. f_equal.
  apply (f_equal (map Point.type)) in H. rewrite !map_map in H.
  exact H.
Qed.

Lemma initYAxis_raw data data' :
  map Frame.raw data = map Frame.raw data' ->
  initYAxis Math_log10 data = initYAxis Math_log10 data'.
Proof.
  intros H. unfold initYAxis, min_max.
  rewrite (fold_through_map
             (fun p v => (Math_min v (fst p), Math_max v (snd p))) Point.value data).
  rewrite (fold_through_map
             (fun p v => (Math_min v (fst p), Math_max v (snd p))) Point.value data').
  apply (f_equal (map Point.value)) in H. rewrite !map_map in H.
  change (map Point.value data = map Point.value data') in H. now rewrite H.
Qed.

Lemma contract_positive proteins org :
  Frame.contract proteins -> Binning.positive (Pairs.flatten org proteins).
Proof.
  intros [_ H] pt Hin. unfold Pairs.flatten in Hin.
  apply in_flat_map in Hin. destruct Hin as (p & Hp & Hin).
  apply in_map_iff in Hin. destruct Hin as (a & <- & Ha).
  exact (H p a Hp Ha).
Qed.

(** The stand-in logarithm of the examples puts every positive value in
    its decade. *)
Lemma positive_bracketed data :
  Binning.positive data -> Binning.bracketed Decimal.log10 data.
Proof.
  intros H p Hp. destruct (H p Hp) as (q & Hq & Hpos).
  exists q. split; [exact Hq|]. split; [exact Hpos|].
  now apply sample_log10_brackets.
Qed.

(** The constructor past its two guards. *)
Lemma constructor_steps obj c i data :
  Input.targetProteins obj <> [] ->
  loadData (Input.targetProteins obj) = Normal data ->
  let s0 := mkState data (initXAxis data) (initYAxis Math_log10 data) None
                    [("Default", "#C0C0C0")] [("Default", "Circle")] in
  constructor Math_log10 scaleLog_apply scaleLog_ticks random (Some obj) c i
  = (bind (initHistogramBins scaleLog_ticks 10
             (updatePointShapes (updatePointColors
                (fst (updatePointPositions scaleLog_apply random c s0 i)))))
          (fun s => Normal (Some s)),
     snd (updatePointPositions scaleLog_apply random c s0 i)).
Proof.
  intros Hne Hload s0. unfold constructor.
  destruct (Input.targetProteins obj) as [|p proteins]; [congruence|].
  rewrite Hload. unfold rbind, ret. fold s0.
  now destruct (updatePointPositions scaleLog_apply random c s0 i).
Qed.

End BuildFacts.

Section BuiltFacts.
Import JS D3 BioActivityGraph.

Variable Math_log10 : Q -> Q.
Variable scaleLog_apply : scaleLog -> number -> number.
Variable random : nat -> Q.

(** After the layout every point has its two coordinates. *)
Lemma updatePointPositions_placed c s i p :
  In p (_data (fst (updatePointPositions scaleLog_apply random c s i))) ->
  Point.x p <> None /\ Point.y p = Some (scaleLog_apply (_yAxis s) (Point.value p)).
Proof.
  intros Hp. rewrite updatePointPositions_data in Hp.
  destruct (positions_every_mode scaleLog_apply random (cb_jitter c) (cb_violin c)
              (_xAxis s) (_yAxis s) (_data s) i) as (_ & H2 & H3).
  destruct (In_nth_error_of _ _ _ H2 Hp) as (k & d & Hd & Hk).
  rewrite (H3 k d Hd) in Hk. inversion Hk. split; [discriminate|reflexivity].
Qed.

Lemma coordinates_pointColor colors p :
  Point.x (pointColor colors p) = Point.x p
  /\ Point.y (pointColor colors p) = Point.y p
  /\ Point.value (pointColor colors p) = Point.value p.
Proof. destruct (pointColor_writes colors p) as (v & ->). repeat split. Qed.

Lemma coordinates_pointShape shapes p :
  Point.x (pointShape shapes p) = Point.x p
  /\ Point.y (pointShape shapes p) = Point.y p
  /\ Point.value (pointShape shapes p) = Point.value p.
Proof. destruct (pointShape_writes shapes p) as (v & ->). repeat split. Qed.

Lemma initHistogramBins_fields scaleLog_ticks nBins s s' :
  initHistogramBins scaleLog_ticks nBins s = Normal s' ->
  exists bins, s' = set_bins bins s.
Proof.
  unfold initHistogramBins. destruct (rollup _ _ _) as [bins|e]; cbn [bind]; [|discriminate].
  intros H. inversion H. eauto.
Qed.

End BuiltFacts.

(** X7. Under the data contract (a protein list that is not empty, every
    protein with an organism, every concentration finite and positive),
    and where the logarithm of the engine puts every concentration in its
    decade, the constructor returns a chart. Its points are the (protein,
    activity) pairs in order, each with its two coordinates, the default
    colour and the default shape; its axes are those of its points; jitter
    draws once per point; and the bins of every type hold as many values as
    the chart has points of that type. *)
Theorem constructor_builds
  (Math_log10 : Q -> Q)
  (scaleLog_apply : D3.scaleLog -> JS.number -> JS.number)
  (scaleLog_ticks : D3.scaleLog -> nat -> list JS.number)
  (random : nat -> Q)
  (obj : Input.ChemblCompound) (c : BioActivityGraph.controls) (i : nat)
  (Hne : Input.targetProteins obj <> [])
  (Hok : Frame.contract (Input.targetProteins obj))
  (Hlog : Binning.bracketed Math_log10
            (Pairs.flatten Pairs.organism_name (Input.targetProteins obj))) :
  exists s table,
    BioActivityGraph.constructor Math_log10 scaleLog_apply scaleLog_ticks random (Some obj) c i
    = (JS.Normal (Some s),
       if BioActivityGraph.cb_jitter c
       then (i + Pairs.count (Input.targetProteins obj))%nat else i)
    /\ map Frame.raw (BioActivityGraph._data s)
       = Pairs.flatten Pairs.organism_name (Input.targetProteins obj)
    /\ Forall (fun p =>
                 Point.color p = Some (JS.Str "#C0C0C0")
                 /\ Point.shape p = Some (JS.Str "Circle")
                 /\ Point.x p <> None
                 /\ Point.y p
                    = Some (scaleLog_apply (BioActivityGraph._yAxis s) (Point.value p)))
              (BioActivityGraph._data s)
    /\ BioActivityGraph._xAxis s = BioActivityGraph.initXAxis (BioActivityGraph._data s)
    /\ BioActivityGraph._yAxis s
       = BioActivityGraph.initYAxis Math_log10 (BioActivityGraph._data s)
    /\ BioActivityGraph._bins s = Some table
    /\ (forall t, In t (map Point.type (BioActivityGraph._data s)) ->
          exists bins,
            JS.Map_get table t = Some bins
            /\ Binning.count bins
               = List.length (Binning.points_of_type t (BioActivityGraph._data s)))
    /\ (forall t, ~ In t (map Point.type (BioActivityGraph._data s)) ->
          JS.Map_get table t = None).
Proof.
  set (proteins := Input.targetProteins obj) in *.
  set (data := Pairs.flatten Pairs.organism_name proteins).
  assert (Hload : BioActivityGraph.loadData proteins = JS.Normal data).
  { unfold BioActivityGraph.loadData. rewrite loadData_from_ok by apply Hok. reflexivity. }
  rewrite (constructor_steps Math_log10 scaleLog_apply scaleLog_ticks random obj c i data Hne Hload).
  set (s0 := BioActivityGraph.mkState data (BioActivityGraph.initXAxis data)
               (BioActivityGraph.initYAxis Math_log10 data) None
               [("Default", "#C0C0C0")] [("Default", "Circle")]).
  set (s1 := fst (BioActivityGraph.updatePointPositions scaleLog_apply random c s0 i)).
  set (s2 := BioActivityGraph.updatePointShapes (BioActivityGraph.updatePointColors s1)).
  assert (F1 : BioActivityGraph.set_data (BioActivityGraph._data s0) s1 = s0).
  { unfold s1. rewrite updatePointPositions_fields. reflexivity. }
  assert (R1 : map Frame.raw (BioActivityGraph._data s1) = data).
  { unfold s1. rewrite updatePointPositions_raw. apply raw_flatten. }
  assert (T1 : BioActivityGraph._colors s1 = [("Default", "#C0C0C0")]
               /\ BioActivityGraph._shapes s1 = [("Default", "Circle")]
               /\ BioActivityGraph._xAxis s1 = BioActivityGraph.initXAxis data
               /\ BioActivityGraph._yAxis s1 = BioActivityGraph.initYAxis Math_log10 data
               /\ BioActivityGraph._bins s1 = None).
  { unfold s1. rewrite updatePointPositions_fields. repeat split. }
  destruct T1 as (Tc & Ts & Tx & Ty & Tb).
  assert (D2 : BioActivityGraph._data s2
               = map (fun p => BioActivityGraph.pointShape [("Default", "Circle")]
                                 (BioActivityGraph.pointColor [("Default", "#C0C0C0")] p))
                     (BioActivityGraph._data s1)).
  { unfold s2. cbn [BioActivityGraph.updatePointShapes BioActivityGraph.updatePointColors
                    BioActivityGraph._data BioActivityGraph.set_data
                    BioActivityGraph._shapes BioActivityGraph._colors].
    rewrite Tc, Ts. now rewrite map_map. }
  assert (R2 : map Frame.raw (BioActivityGraph._data s2) = data).
  { rewrite D2, map_map, <- R1. apply map_ext. intros p.
    now rewrite raw_pointShape, raw_pointColor. }
  assert (Hcover : forall p, In p (BioActivityGraph._data s2) ->
             Binning.in_domain (D3.log_domain (BioActivityGraph._yAxis s2)) (Point.value p)
             = true).
  { intros p Hp.
    change (BioActivityGraph._yAxis s2) with (BioActivityGraph._yAxis s1). rewrite Ty.
    change (Point.value p) with (Point.value (Frame.raw p)).
    apply initYAxis_covers; [exact Hlog|].
    rewrite <- R2. now apply in_map. }
  destruct (bins_conserve scaleLog_ticks 10 s2 Hcover)
    as (s & table & Hinit & Hbins & Hdata & Hcount & Hnone).
  destruct (initHistogramBins_fields _ _ _ _ Hinit) as (b & Hs).
  exists s, table. rewrite Hinit. cbn [JS.bind].
  split.
  { f_equal. unfold s0. rewrite updatePointPositions_next.
    destruct (positions_every_mode scaleLog_apply random
                (BioActivityGraph.cb_jitter c) (BioActivityGraph.cb_violin c)
                (BioActivityGraph.initXAxis data) (BioActivityGraph.initYAxis Math_log10 data)
                data i) as (H1 & _).
    cbn [BioActivityGraph._xAxis BioActivityGraph._yAxis BioActivityGraph._data].
    rewrite H1. unfold data. now rewrite flatten_length. }
  rewrite Hdata.
  assert (Ys : BioActivityGraph._yAxis s = BioActivityGraph.initYAxis Math_log10 data)
    by (rewrite Hs; exact Ty).
  assert (Xs : BioActivityGraph._xAxis s = BioActivityGraph.initXAxis data)
    by (rewrite Hs; exact Tx).
  split; [exact R2|]. split.
  { apply Forall_forall. intros p Hp. rewrite D2 in Hp.
    apply in_map_iff in Hp. destruct Hp as (d1 & <- & Hd1).
    destruct (updatePointPositions_placed scaleLog_apply random c s0 i d1 Hd1) as [Hx Hy].
    destruct (coordinates_pointShape [("Default", "Circle")]
                (BioActivityGraph.pointColor [("Default", "#C0C0C0")] d1))
      as (Sx & Sy & Sv).
    destruct (coordinates_pointColor [("Default", "#C0C0C0")] d1) as (Cx & Cy & Cv).
    rewrite color_pointShape, pointColor_first, pointShape_first.
    rewrite Sx, Sy, Sv, Cx, Cy, Cv, Ys.
    repeat split; assumption. }
  split; [rewrite Xs; apply initXAxis_raw; rewrite R2; exact (raw_flatten _ _)|].
  split; [rewrite Ys; apply initYAxis_raw; rewrite R2; exact (raw_flatten _ _)|].
  split; [exact Hbins|]. split; assumption.
Qed.

Lemma constructor_builds_witness :
  exists s table,
    BioActivityGraph.constructor Decimal.log10 Examples.flat_scale Examples.decade_ticks Examples.halves
      (Some Samples.compound) (BioActivityGraph.mkControls true false) 0%nat
    = (JS.Normal (Some s), 3%nat)
    /\ BioActivityGraph._bins s = Some table
    /\ List.length (BioActivityGraph._data s) = 3%nat.
Proof.
  assert (Hok : Frame.contract (Input.targetProteins Samples.compound)).
  { split.
    + intros p [<-|[<-|[<-|[]]]] [H _]; discriminate.
    + intros p a [<-|[<-|[<-|[]]]]; cbn.
      * intros [<-|[<-|[]]]; eexists; split; reflexivity.
      * intros [].
      * intros [<-|[]]; eexists; split; reflexivity. }
  destruct (constructor_builds Decimal.log10 Examples.flat_scale Examples.decade_ticks
              Examples.halves
              Samples.compound (BioActivityGraph.mkControls true false) 0%nat)
    as (s & table & Hnew & Hraw & _ & _ & _ & Hbins & _).
  - discriminate.
  - exact Hok.
  - apply positive_bracketed. now apply contract_positive.
  - exists s, table. split; [exact Hnew|]. split; [exact Hbins|].
    apply (f_equal (@List.length _)) in Hraw. rewrite length_map in Hraw. exact Hraw.
Defined.

(** X8. The other ways out of the constructor. Without a compound, or
    with an empty protein list, it returns before it creates any field and
    makes no draw; these are the only cases in which it does so. A protein
    with an activity and no organism makes it throw a [TypeError] before
    any draw. A list of proteins none of which has an activity passes the
    guard: the chart is built with no point, a horizontal scale without
    labels and an empty table of bins. *)
Theorem constructor_edges :
  forall (Math_log10 : Q -> Q)
         (scaleLog_apply : D3.scaleLog -> JS.number -> JS.number)
         (scaleLog_ticks : D3.scaleLog -> nat -> list JS.number)
         (random : nat -> Q) (c : BioActivityGraph.controls) (i : nat),
    (forall chemblObj,
        (chemblObj = None
         \/ exists obj, chemblObj = Some obj /\ Input.targetProteins obj = [])
        <-> exists j,
            BioActivityGraph.constructor Math_log10 scaleLog_apply scaleLog_ticks random chemblObj c i
            = (JS.Normal None, j))
    /\ (forall chemblObj j,
          BioActivityGraph.constructor Math_log10 scaleLog_apply scaleLog_ticks random chemblObj c i
          = (JS.Normal None, j) -> j = i)
    /\ (forall obj,
          (exists p, In p (Input.targetProteins obj) /\ Pairs.lacks_organism p) ->
          BioActivityGraph.constructor Math_log10 scaleLog_apply scaleLog_ticks random (Some obj) c i
          = (JS.Throw (JS.TypeError "Cannot read properties of undefined (reading 'name')"),
             i))
    /\ (forall obj,
          Input.targetProteins obj <> [] ->
          (forall p, In p (Input.targetProteins obj) -> Input.activities p = []) ->
          exists s,
            BioActivityGraph.constructor Math_log10 scaleLog_apply scaleLog_ticks random (Some obj) c i
            = (JS.Normal (Some s), i)
            /\ BioActivityGraph._data s = []
            /\ D3.band_domain (BioActivityGraph._xAxis s) = []
            /\ BioActivityGraph._bins s = Some []).
Proof.
  intros Math_log10 scaleLog_apply scaleLog_ticks random c i.
  assert (Hnone : forall chemblObj j,
             BioActivityGraph.constructor Math_log10 scaleLog_apply scaleLog_ticks random chemblObj c i
             = (JS.Normal None, j) ->
             j = i /\ (chemblObj = None
                       \/ exists obj, chemblObj = Some obj /\ Input.targetProteins obj = [])).
  { intros [obj|] j; [|intros H; inversion H; auto].
    unfold BioActivityGraph.constructor.
    destruct (Input.targetProteins obj) as [|p proteins] eqn:Ep.
    - intros H. inversion H. split; [reflexivity|]. right. eauto.
    - destruct (BioActivityGraph.loadData (p :: proteins)) as [data|e]; [|discriminate].
      unfold JS.rbind, JS.ret.
      destruct (BioActivityGraph.updatePointPositions _ _ _ _ i) as [s1 j1].
      destruct (BioActivityGraph.initHistogramBins _ _ _); discriminate. }
  split; [|split; [|split]].
  - intros chemblObj. split.
    + intros [->|(obj & -> & Hp)]; exists i; [reflexivity|].
      unfold BioActivityGraph.constructor. now rewrite Hp.
    + intros (j & H). now apply Hnone in H.
  - intros chemblObj j H. now apply Hnone in H.
  - intros obj Hlack. unfold BioActivityGraph.constructor.
    destruct (Input.targetProteins obj) as [|p proteins] eqn:Ep.
    + destruct Hlack as (q & [] & _).
    + unfold BioActivityGraph.loadData. now rewrite loadData_from_throw.
  - intros obj Hne Hsilent.
    assert (Hload : BioActivityGraph.loadData (Input.targetProteins obj) = JS.Normal []).
    { unfold BioActivityGraph.loadData. rewrite loadData_from_ok.
      - cbn [app]. f_equal. now apply flatten_nil.
      - intros p Hp [_ Ha]. now apply Ha, Hsilent. }
    rewrite (constructor_steps Math_log10 scaleLog_apply scaleLog_ticks random obj c i [] Hne Hload).
    eexists. split; [reflexivity|]. repeat split.
Qed.

(** ** What the events and the layout leave alone *)

Section FrameFacts.
Import JS D3 BioActivityGraph.

Lemma placed_pointColor colors p : Frame.placed (pointColor colors p) = Frame.placed p.
Proof. destruct (pointColor_writes colors p) as (v & ->). reflexivity. Qed.

Lemma placed_pointShape shapes p : Frame.placed (pointShape shapes p) = Frame.placed p.
Proof. destruct (pointShape_writes shapes p) as (v & ->). reflexivity. Qed.

(** What a state is apart from its tables and the colours and shapes. *)
Lemma dispatch_frame s e :
  map Frame.placed (_data (dispatch s e)) = map Frame.placed (_data s)
  /\ _xAxis (dispatch s e) = _xAxis s
  /\ _yAxis (dispatch s e) = _yAxis s
  /\ _bins (dispatch s e) = _bins s.
Proof.
  assert (Hc : forall colors,
             map Frame.placed (map (pointColor colors) (_data s))
             = map Frame.placed (_data s)).
  { intros colors. rewrite map_map. apply map_ext. intros p. apply placed_pointColor. }
  assert (Hs : forall shapes,
             map Frame.placed (map (pointShape shapes) (_data s))
             = map Frame.placed (_data s)).
  { intros shapes. rewrite map_map. apply map_ext. intros p. apply placed_pointShape. }
  unfold dispatch. destruct e as [type val upd|key|key]; cbn [handler].
  - unfold modalOK. destruct val as [val|]; [|auto]. destruct upd as [upd|]; [|auto].
    destruct (String.eqb type "Color"); cbn; auto.
  - unfold colorRowClose. destruct (String.eqb key "Default"); cbn; auto.
  - unfold shapeRowClose. destruct (String.eqb key "Default"); cbn; auto.
Qed.

Lemma run_frame events : forall s,
  map Frame.placed (_data (run events s)) = map Frame.placed (_data s)
  /\ _xAxis (run events s) = _xAxis s
  /\ _yAxis (run events s) = _yAxis s
  /\ _bins (run events s) = _bins s.
Proof.
  induction events as [|e events IH]; intros s; [auto|].
  cbn [run fold_left]. fold (run events (dispatch s e)).
  destruct (IH (dispatch s e)) as (H1 & H2 & H3 & H4).
  destruct (dispatch_frame s e) as (G1 & G2 & G3 & G4).
  repeat split; congruence.
Qed.

Lemma placed_raw data data' :
  map Frame.placed data = map Frame.placed data' ->
  map Frame.raw data = map Frame.raw data'.
Proof.
  intros H. apply (f_equal (map Frame.raw)) in H. rewrite !map_map in H. exact H.
Qed.

End FrameFacts.

(** X9. The events of the tables touch the tables, the colours and the
    shapes, and nothing else: whatever the events, the points are the same
    in number and order, each with the properties it was loaded with and
    the coordinates it had, and the two scales and the bins are untouched.
    In particular a chart whose axes are those of its points keeps axes
    that are those of its points. *)
Theorem events_keep_the_layout :
  forall (events : list BioActivityGraph.event) (s : BioActivityGraph.state),
    let s' := BioActivityGraph.run events s in
    map Frame.placed (BioActivityGraph._data s') = map Frame.placed (BioActivityGraph._data s)
    /\ BioActivityGraph._xAxis s' = BioActivityGraph._xAxis s
    /\ BioActivityGraph._yAxis s' = BioActivityGraph._yAxis s
    /\ BioActivityGraph._bins s' = BioActivityGraph._bins s
    /\ (BioActivityGraph._xAxis s = BioActivityGraph.initXAxis (BioActivityGraph._data s) ->
        BioActivityGraph._xAxis s' = BioActivityGraph.initXAxis (BioActivityGraph._data s'))
    /\ (forall Math_log10 : Q -> Q,
          BioActivityGraph._yAxis s
          = BioActivityGraph.initYAxis Math_log10 (BioActivityGraph._data s) ->
          BioActivityGraph._yAxis s'
          = BioActivityGraph.initYAxis Math_log10 (BioActivityGraph._data s')).
Proof.
  intros events s s'. subst s'.
  destruct (run_frame events s) as (H1 & H2 & H3 & H4).
  split; [exact H1|]. split; [exact H2|]. split; [exact H3|]. split; [exact H4|].
  apply placed_raw in H1. split.
  - intros H. rewrite H2, H. now apply initXAxis_raw.
  - intros Math_log10 H. rewrite H3, H. now apply initYAxis_raw.
Qed.

Section ForgetFacts.
Import JS D3.

Variable scaleLog_apply : scaleLog -> number -> number.
Variable random : nat -> Q.

Lemma mapM_related {A B} (f : A -> rnd B) (R : A -> A -> Prop) :
  (forall a a' i, R a' a -> f a' i = f a i) ->
  forall l l', Forall2 R l' l -> forall i, mapM f l' i = mapM f l i.
Proof.
  intros Hf l l' H. induction H as [|a' a l' l Ha _ IH]; intros i; [reflexivity|].
  cbn [mapM]. unfold rbind, ret. rewrite (Hf a a' i Ha).
  destruct (f a i) as [b j]. now rewrite IH.
Qed.

Lemma mapM_Forall2 {A B} (f : A -> rnd B) (R : B -> A -> Prop) :
  (forall a i, R (fst (f a i)) a) ->
  forall l i, Forall2 R (fst (mapM f l i)) l.
Proof.
  intros Hf. induction l as [|a l IH]; intros i; [constructor|].
  cbn [mapM]. unfold rbind, ret.
  specialize (Hf a i). destruct (f a i) as [b j].
  specialize (IH j). destruct (mapM f l j) as [bs j']. now constructor.
Qed.

(** Two points that differ in their coordinates only are laid out alike. *)
Lemma place_dressed (a b : number) (d d' : Point.t) :
  Frame.dressed d' = Frame.dressed d ->
  Point.set_y a (Point.set_x b d') = Point.set_y a (Point.set_x b d)
  /\ Point.type d' = Point.type d /\ Point.value d' = Point.value d.
Proof.
  destruct d, d'. unfold Frame.dressed. cbn. intros H. inversion H. subst. auto.
Qed.

Lemma positionPoint_dressed jitter violin X Y xwidth d d' i :
  Frame.dressed d' = Frame.dressed d ->
  BioActivityGraph.positionPoint scaleLog_apply random jitter violin X Y xwidth d' i
  = BioActivityGraph.positionPoint scaleLog_apply random jitter violin X Y xwidth d i.
Proof.
  intros H. unfold BioActivityGraph.positionPoint, rbind, ret.
  destruct (BioActivityGraph.offset random jitter violin xwidth i) as [dx j].
  destruct (place_dressed (scaleLog_apply Y (Point.value d))
              (add (ToNumber (band_apply X (Point.type d))) dx) d d' H) as (E & Ht & Hv).
  now rewrite Ht, Hv, E.
Qed.

Lemma positionPoint_keeps jitter violin X Y xwidth d i :
  Frame.dressed
    (fst (BioActivityGraph.positionPoint scaleLog_apply random jitter violin X Y xwidth d i))
  = Frame.dressed d.
Proof.
  unfold BioActivityGraph.positionPoint, rbind, ret.
  now destruct (BioActivityGraph.offset random jitter violin xwidth i).
Qed.

Lemma positions_v1_related jitter X Y l l' :
  Forall2 (fun d' d => Frame.dressed d' = Frame.dressed d) l' l ->
  forall dx i,
    BioActivityGraphV1.positions scaleLog_apply random jitter X Y dx l' i
    = BioActivityGraphV1.positions scaleLog_apply random jitter X Y dx l i.
Proof.
  intros H. induction H as [|d' d l' l Hd _ IH]; intros dx i; [reflexivity|].
  destruct (place_dressed (scaleLog_apply Y (Point.value d))
              (add (ToNumber (band_apply X (Point.type d))) dx) d d' Hd) as (E1 & Ht & Hv).
  cbn [BioActivityGraphV1.positions]. unfold rbind, ret.
  destruct jitter; cbn [Math_random]; rewrite IH;
    destruct (BioActivityGraphV1.positions _ _ _ _ _ _ _ _) as [ds j'];
    cbn [Point.value Point.set_x]; rewrite Ht, Hv, E1; reflexivity.
Qed.

Lemma positions_v1_keeps jitter X Y l : forall dx i,
  Forall2 (fun d' d => Frame.dressed d' = Frame.dressed d)
          (fst (BioActivityGraphV1.positions scaleLog_apply random jitter X Y dx l i)) l.
Proof.
  induction l as [|d l IH]; intros dx i; [constructor|].
  cbn [BioActivityGraphV1.positions]. unfold rbind, ret.
  destruct jitter; cbn [Math_random].
  - specialize (IH (sub dx (mul (div dx (Fin 2)) (Fin (random i)))) (S i)).
    destruct (BioActivityGraphV1.positions _ _ _ _ _ _ _ _) as [ds j'].
    now constructor.
  - specialize (IH dx i).
    destruct (BioActivityGraphV1.positions _ _ _ _ _ _ _ _) as [ds j'].
    now constructor.
Qed.

End ForgetFacts.

(** X10. The layout owes nothing to an earlier layout: laying the points out
    again, whatever the boxes were the first time and whatever was drawn
    then, gives what laying out the chart as it was before would give with
    the same draws. So unchecking jitter brings every point back to the
    centre of its band. Both class versions. *)
Theorem layout_forgets :
  forall (scaleLog_apply : D3.scaleLog -> JS.number -> JS.number) (random : nat -> Q),
    (forall (c c' : BioActivityGraph.controls) (s : BioActivityGraph.state) (i j : nat),
        BioActivityGraph.updatePointPositions scaleLog_apply random c
          (fst (BioActivityGraph.updatePointPositions scaleLog_apply random c' s i)) j
        = BioActivityGraph.updatePointPositions scaleLog_apply random c s j)
    /\ (forall (jitter jitter' : bool) (s : BioActivityGraphV1.state) (i j : nat),
        BioActivityGraphV1.updatePointPositions scaleLog_apply random jitter
          (fst (BioActivityGraphV1.updatePointPositions scaleLog_apply random jitter' s i)) j
        = BioActivityGraphV1.updatePointPositions scaleLog_apply random jitter s j).
Proof.
  intros scaleLog_apply random. split.
  - intros c c' s i j. rewrite updatePointPositions_fields.
    unfold BioActivityGraph.updatePointPositions.
    cbn [BioActivityGraph._xAxis BioActivityGraph._yAxis BioActivityGraph._data
         BioActivityGraph.set_data].
    unfold JS.rbind, JS.ret.
    rewrite (mapM_related _ (fun d' d => Frame.dressed d' = Frame.dressed d)
               (fun a a' k H => positionPoint_dressed scaleLog_apply random _ _ _ _ _ a a' k H)
               (BioActivityGraph._data s)).
    + now destruct (JS.mapM _ _ j).
    + apply mapM_Forall2. intros d k. apply positionPoint_keeps.
  - intros jitter jitter' s i j.
    unfold BioActivityGraphV1.updatePointPositions at 2.
    unfold JS.rbind, JS.ret.
    pose proof (positions_v1_keeps scaleLog_apply random jitter'
                  (BioActivityGraphV1._xAxis s) (BioActivityGraphV1._yAxis s)
                  (BioActivityGraphV1._points s)
                  (JS.div (D3.bandwidth (BioActivityGraphV1._xAxis s)) (JS.Fin 2)) i) as HK.
    destruct (BioActivityGraphV1.positions _ _ _ _ _ _ _ i) as [pts i'].
    cbn [fst] in *.
    unfold BioActivityGraphV1.updatePointPositions.
    cbn [BioActivityGraphV1._xAxis BioActivityGraphV1._yAxis BioActivityGraphV1._points
         BioActivityGraphV1.set_points].
    unfold JS.rbind, JS.ret.
    rewrite (positions_v1_related scaleLog_apply random jitter _ _ _ _ HK).
    now destruct (BioActivityGraphV1.positions _ _ _ _ _ _ _ j).
Qed.

(** ** The tables of class version 1.1 *)

Section PlainObjectFacts.
Import JS BioActivityGraphV1.

Lemma insert_index_In i k l x :
  In x (map snd (insert_index i k l)) <-> x = k \/ In x (map snd l).
Proof.
  induction l as [|[j k'] l IH]; cbn [insert_index map snd In].
  - intuition.
  - destruct (i <=? j)%N; cbn [map snd In]; [intuition|].
    rewrite IH. intuition.
Qed.

(** [Object.keys] lists own properties, and every one of them. *)
Lemma Object_keys_In (o : Obj) k : In k (Object_keys o) <-> In k (Map_keys o).
Proof.
  unfold Object_keys. rewrite in_app_iff.
  induction o as [|[k' v] o IH]; cbn [index_keys name_keys Map_keys map fst In];
    [tauto|].
  fold (Map_keys o). destruct (array_index k').
  - rewrite insert_index_In. intuition.
  - cbn [In]. intuition.
Qed.

(** Without array indices [Object.keys] is the creation order. *)
Lemma Object_keys_plain (o : Obj) : Tables.plain o -> Object_keys o = Map_keys o.
Proof.
  unfold Tables.plain, Object_keys. intros H.
  assert (E : index_keys o = [] /\ name_keys o = Map_keys o).
  { induction o as [|[k v] o IH]; cbn [Map_keys map fst forallb index_keys name_keys] in *;
      [auto|].
    fold (Map_keys o) in *. apply andb_true_iff in H. destruct H as [Hk Ho].
    unfold Tables.plain_key in Hk. destruct (array_index k); [discriminate|].
    destruct (IH Ho) as [-> ->]. auto. }
  destruct E as [-> ->]. reflexivity.
Qed.

Lemma some_color_same colors keys p :
  BioActivityGraphV1.some_color colors keys p = BioActivityGraph.some_color colors keys p.
Proof. induction keys as [|k keys IH]; cbn; [reflexivity|]. now rewrite IH. Qed.

Lemma some_shape_same shapes keys p :
  BioActivityGraphV1.some_shape shapes keys p = BioActivityGraph.some_shape shapes keys p.
Proof. induction keys as [|k keys IH]; cbn; [reflexivity|]. now rewrite IH. Qed.

Lemma pointColor_plain colors p :
  Tables.plain colors ->
  BioActivityGraphV1.pointColor colors p = BioActivityGraph.pointColor colors p.
Proof.
  intros H. unfold BioActivityGraphV1.pointColor, BioActivityGraph.pointColor.
  rewrite (Object_keys_plain colors H). apply some_color_same.
Qed.

Lemma pointShape_plain shapes p :
  Tables.plain shapes ->
  BioActivityGraphV1.pointShape shapes p = BioActivityGraph.pointShape shapes p.
Proof.
  intros H. unfold BioActivityGraphV1.pointShape, BioActivityGraph.pointShape.
  rewrite (Object_keys_plain shapes H). apply some_shape_same.
Qed.

Lemma plain_set o k v :
  Tables.plain o -> Tables.plain_key k = true -> Tables.plain (Map_set o k v).
Proof.
  unfold Tables.plain. intros Ho Hk.
  induction o as [|[k' v'] o IH]; cbn [Map_set Map_keys map fst forallb] in *.
  - now rewrite Hk.
  - apply andb_true_iff in Ho. destruct Ho as [Hk' Ho].
    destruct (String.eqb k' k); cbn [map fst forallb]; rewrite Hk'; auto.
Qed.

Lemma plain_delete o k : Tables.plain o -> Tables.plain (Map_delete o k).
Proof.
  unfold Tables.plain. intros Ho.
  induction o as [|[k' v'] o IH]; cbn [Map_delete Map_keys map fst forallb] in *; auto.
  apply andb_true_iff in Ho. destruct Ho as [Hk' Ho].
  destruct (String.eqb k' k); cbn [map fst forallb]; auto.
  rewrite Hk'. auto.
Qed.

Lemma Obj_set_plain o k v :
  Tables.plain_key k = true -> Obj_set o k v = Map_set o k v.
Proof.
  unfold Tables.plain_key, Obj_set. destruct (array_index k); [discriminate|].
  now destruct (String.eqb k "__proto__").
Qed.

End PlainObjectFacts.

Section RefactorFacts.
Import JS.

Lemma dispatch_as_v2 s e :
  Tables.plain (BioActivityGraphV1._colors s) ->
  Tables.plain (BioActivityGraphV1._shapes s) ->
  Tables.plain_event e = true ->
  Tables.as_v2 (BioActivityGraphV1.dispatch s e)
  = BioActivityGraph.dispatch (Tables.as_v2 s) (Tables.event_as_v2 e)
  /\ Tables.plain (BioActivityGraphV1._colors (BioActivityGraphV1.dispatch s e))
  /\ Tables.plain (BioActivityGraphV1._shapes (BioActivityGraphV1.dispatch s e)).
Proof.
  intros Hc Hs He. destruct s as [points labels X Y bins colors shapes].
  cbn [BioActivityGraphV1._colors BioActivityGraphV1._shapes] in Hc, Hs.
  unfold BioActivityGraphV1.dispatch, BioActivityGraph.dispatch.
  destruct e as [type val upd|key|key];
    cbn [BioActivityGraphV1.handler BioActivityGraph.handler Tables.event_as_v2].
  - unfold BioActivityGraphV1.modalOK, BioActivityGraph.modalOK.
    destruct val as [val|]; [|auto]. destruct upd as [upd|]; [|auto].
    cbn [Tables.plain_event] in He.
    destruct (String.eqb type "color").
    + change (String.eqb "Color" "Color") with true.
      cbn. rewrite (Obj_set_plain _ _ _ He).
      pose proof (plain_set colors val upd Hc He) as Hc'.
      repeat split; auto.
      unfold Tables.as_v2, BioActivityGraph.updatePointColors,
        BioActivityGraph.updatePointShapes, BioActivityGraph.set_colors,
        BioActivityGraph.set_shapes, BioActivityGraph.set_data. cbn. f_equal.
      apply map_ext. intros p. now apply pointColor_plain.
    + change (String.eqb "Shape" "Color") with false.
      cbn. rewrite (Obj_set_plain _ _ _ He).
      pose proof (plain_set shapes val upd Hs He) as Hs'.
      repeat split; auto.
      unfold Tables.as_v2, BioActivityGraph.updatePointColors,
        BioActivityGraph.updatePointShapes, BioActivityGraph.set_colors,
        BioActivityGraph.set_shapes, BioActivityGraph.set_data. cbn. f_equal.
      apply map_ext. intros p. now apply pointShape_plain.
  - unfold BioActivityGraphV1.colorRowClose, BioActivityGraph.colorRowClose.
    destruct (String.eqb key "Default"); [auto|].
    pose proof (plain_delete colors key Hc) as Hc'.
    cbn. repeat split; auto.
    unfold Tables.as_v2, BioActivityGraph.updatePointColors,
      BioActivityGraph.updatePointShapes, BioActivityGraph.set_colors,
      BioActivityGraph.set_shapes, BioActivityGraph.set_data. cbn. f_equal.
    apply map_ext. intros p. now apply pointColor_plain.
  - unfold BioActivityGraphV1.shapeRowClose, BioActivityGraph.shapeRowClose.
    destruct (String.eqb key "Default"); [auto|].
    pose proof (plain_delete shapes key Hs) as Hs'.
    cbn. repeat split; auto.
    unfold Tables.as_v2, BioActivityGraph.updatePointColors,
      BioActivityGraph.updatePointShapes, BioActivityGraph.set_colors,
      BioActivityGraph.set_shapes, BioActivityGraph.set_data. cbn. f_equal.
    apply map_ext. intros p. now apply pointShape_plain.
Qed.

End RefactorFacts.

(** X11. On tables whose keys are neither array indices nor [__proto__],
    and under events that add such keys only, the handlers of class
    version 1.1, which keep the tables in plain objects, do what the
    handlers of class version 2.0 do with [Map]s: event by event the two
    charts have the same tables in the same order and the same points with
    the same colours and shapes. *)
Theorem plain_objects_as_maps
  (s : BioActivityGraphV1.state) (events : list BioActivityGraphV1.event)
  (Hcolors : Tables.plain (BioActivityGraphV1._colors s))
  (Hshapes : Tables.plain (BioActivityGraphV1._shapes s))
  (Hevents : forallb Tables.plain_event events = true) :
  Tables.as_v2 (BioActivityGraphV1.run events s)
  = BioActivityGraph.run (map Tables.event_as_v2 events) (Tables.as_v2 s)
  /\ Tables.plain (BioActivityGraphV1._colors (BioActivityGraphV1.run events s))
  /\ Tables.plain (BioActivityGraphV1._shapes (BioActivityGraphV1.run events s)).
Proof.
  revert s Hcolors Hshapes.
  induction events as [|e events IH]; intros s Hc Hs; [auto|].
  cbn [forallb] in Hevents. apply andb_true_iff in Hevents. destruct Hevents as [He Hes].
  destruct (dispatch_as_v2 s e Hc Hs He) as (E & Hc' & Hs').
  cbn [BioActivityGraphV1.run BioActivityGraph.run fold_left map].
  rewrite <- E. exact (IH Hes _ Hc' Hs').
Qed.

Lemma plain_objects_as_maps_witness :
  Tables.as_v2
    (BioActivityGraphV1.run
       [BioActivityGraphV1.ModalOK "color" (Some "IC50") (Some "#ff0000");
        BioActivityGraphV1.ModalOK "shape" (Some "P00533") (Some "Star");
        BioActivityGraphV1.ColorRowClose "IC50"]
       Examples.three_points_state_v1)
  = BioActivityGraph.run
      [BioActivityGraph.ModalOK "Color" (Some "IC50") (Some "#ff0000");
       BioActivityGraph.ModalOK "Shape" (Some "P00533") (Some "Star");
       BioActivityGraph.ColorRowClose "IC50"]
      (Tables.as_v2 Examples.three_points_state_v1).
Proof.
  apply (plain_objects_as_maps Examples.three_points_state_v1
           [BioActivityGraphV1.ModalOK "color" (Some "IC50") (Some "#ff0000");
            BioActivityGraphV1.ModalOK "shape" (Some "P00533") (Some "Star");
            BioActivityGraphV1.ColorRowClose "IC50"]); reflexivity.
Defined.

Section SoundFacts.
Import JS BioActivityGraphV1.

Lemma color_pointColor_v1 colors p :
  Map_has colors "Default" = true -> Resolve.defined (Point.color (pointColor colors p)).
Proof.
  intros Hd. unfold pointColor. rewrite some_color_v1_find.
  destruct (find _ _) as [k|] eqn:Hf.
  - apply find_some in Hf. destruct Hf as [Hin _]. apply Object_keys_In in Hin.
    destruct (get_value_key colors k Hin) as (v & Hv).
    exists v. cbn. unfold Obj_get. now rewrite Hv.
  - destruct (get_value_has colors _ Hd) as (v & Hv).
    exists v. cbn. unfold Obj_get. now rewrite Hv.
Qed.

Lemma shape_pointShape_v1 shapes p :
  Map_has shapes "Default" = true -> Resolve.defined (Point.shape (pointShape shapes p)).
Proof.
  intros Hd. unfold pointShape. rewrite some_shape_v1_find.
  destruct (find _ _) as [k|] eqn:Hf.
  - apply find_some in Hf. destruct Hf as [Hin _]. apply Object_keys_In in Hin.
    destruct (get_value_key shapes k Hin) as (v & Hv).
    exists v. cbn. unfold Obj_get. now rewrite Hv.
  - destruct (get_value_has shapes _ Hd) as (v & Hv).
    exists v. cbn. unfold Obj_get. now rewrite Hv.
Qed.

Lemma shape_pointColor_v1 colors p : Point.shape (pointColor colors p) = Point.shape p.
Proof. destruct (pointColor_v1_writes colors p) as (v & ->). reflexivity. Qed.

Lemma color_pointShape_v1 shapes p : Point.color (pointShape shapes p) = Point.color p.
Proof. destruct (pointShape_v1_writes shapes p) as (v & ->). reflexivity. Qed.

Lemma Obj_set_keeps (o : Obj) k v k' :
  Map_has o k' = true -> Map_has (Obj_set o k v) k' = true.
Proof.
  unfold Obj_set. destruct (String.eqb k "__proto__"); [auto|]. apply Map_has_set.
Qed.

Lemma sound_colors s :
  Map_has (_colors s) "Default" = true ->
  Map_has (_shapes s) "Default" = true ->
  (forall p, In p (_points s) -> Resolve.defined (Point.shape p)) ->
  Tables.sound (updatePointColors s).
Proof.
  intros Hc Hs Hsh. repeat split; auto.
  - cbn in H. apply in_map_iff in H. destruct H as (q & <- & _).
    now apply color_pointColor_v1.
  - cbn in H. apply in_map_iff in H. destruct H as (q & <- & Hq).
    rewrite shape_pointColor_v1. now apply Hsh.
Qed.

Lemma sound_shapes s :
  Map_has (_colors s) "Default" = true ->
  Map_has (_shapes s) "Default" = true ->
  (forall p, In p (_points s) -> Resolve.defined (Point.color p)) ->
  Tables.sound (updatePointShapes s).
Proof.
  intros Hc Hs Hco. repeat split; auto.
  - cbn in H. apply in_map_iff in H. destruct H as (q & <- & Hq).
    rewrite color_pointShape_v1. now apply Hco.
  - cbn in H. apply in_map_iff in H. destruct H as (q & <- & _).
    now apply shape_pointShape_v1.
Qed.

Lemma sound_dispatch s e : Tables.sound s -> Tables.sound (dispatch s e).
Proof.
  intros (Hc & Hs & Hp). unfold dispatch.
  destruct e as [type val upd|key|key]; cbn [handler].
  - unfold modalOK. destruct val as [val|]; [|repeat split; auto; apply Hp; auto].
    destruct upd as [upd|]; [|repeat split; auto; apply Hp; auto].
    destruct (String.eqb type "color").
    + apply sound_colors; cbn; auto using Obj_set_keeps.
      intros p H. now apply Hp.
    + apply sound_shapes; cbn; auto using Obj_set_keeps.
      intros p H. now apply Hp.
  - unfold colorRowClose. destruct (String.eqb key "Default") eqn:E.
    + repeat split; auto; apply Hp; auto.
    + apply String.eqb_neq in E.
      apply sound_colors; cbn; auto.
      * apply Map_has_delete; congruence.
      * intros p H. now apply Hp.
  - unfold shapeRowClose. destruct (String.eqb key "Default") eqn:E.
    + repeat split; auto; apply Hp; auto.
    + apply String.eqb_neq in E.
      apply sound_shapes; cbn; auto.
      * apply Map_has_delete; congruence.
      * intros p H. now apply Hp.
Qed.

Lemma sound_run events : forall s, Tables.sound s -> Tables.sound (run events s).
Proof.
  induction events as [|e events IH]; intros s H; [exact H|].
  cbn. apply IH. now apply sound_dispatch.
Qed.

End SoundFacts.

(** X12. Class version 1.1, whatever the keys, array indices and
    [__proto__] included: once the two passes of the constructor have run
    on tables that have their [Default] property, no sequence of dialog
    and row events removes [Default] from a table or leaves a point
    without a colour or a shape. *)
Theorem plain_objects_stay_sound
  (s : BioActivityGraphV1.state)
  (Hcolors : JS.Map_has (BioActivityGraphV1._colors s) "Default" = true)
  (Hshapes : JS.Map_has (BioActivityGraphV1._shapes s) "Default" = true) :
  forall events,
    Tables.sound
      (BioActivityGraphV1.run events
         (BioActivityGraphV1.updatePointShapes (BioActivityGraphV1.updatePointColors s))).
Proof.
  intros events. apply sound_run. apply sound_shapes; cbn; auto.
  intros p Hp. apply in_map_iff in Hp. destruct Hp as (q & <- & _).
  now apply color_pointColor_v1.
Qed.

Lemma plain_objects_stay_sound_witness :
  Tables.sound
    (BioActivityGraphV1.run
       [BioActivityGraphV1.ModalOK "color" (Some "7") (Some "#ff0000");
        BioActivityGraphV1.ModalOK "shape" (Some "__proto__") (Some "Star");
        BioActivityGraphV1.ColorRowClose "Default";
        BioActivityGraphV1.ShapeRowClose "IC50"]
       (BioActivityGraphV1.updatePointShapes
          (BioActivityGraphV1.updatePointColors Examples.three_points_state_v1))).
Proof.
  apply (plain_objects_stay_sound Examples.three_points_state_v1); reflexivity.
Defined.

Section IndexKeyFacts.
Import JS BioActivityGraphV1.

Lemma index_keys_In (o : Obj) k :
  In k (map snd (index_keys o)) <-> In k (Map_keys o) /\ array_index k <> None.
Proof.
  induction o as [|[k' v] o IH]; cbn [index_keys Map_keys map fst snd In]; [tauto|].
  fold (Map_keys o). destruct (array_index k') eqn:E.
  - rewrite insert_index_In, IH. split.
    + intros [->|[H1 H2]]; [split; [now left|congruence]|tauto].
    + intros [[->|H1] H2]; [now left|tauto].
  - rewrite IH. split; [tauto|].
    intros [[->|H1] H2]; [congruence|tauto].
Qed.

Lemma find_app_first {A} (f : A -> bool) (l1 l2 : list A) x :
  In x l1 -> f x = true -> exists y, find f (l1 ++ l2) = Some y /\ In y l1.
Proof.
  induction l1 as [|a l1 IH]; [intros []|].
  intros Hin Hx. cbn [app find]. destruct (f a) eqn:E.
  - exists a. split; [reflexivity|now left].
  - destruct Hin as [->|Hin]; [congruence|].
    destruct (IH Hin Hx) as (y & Hy & Hin'). exists y. split; [assumption|now right].
Qed.

End IndexKeyFacts.

(** X13. Class version 1.1 lists the keys of a table with [Object.keys],
    which puts array indices before every other name. So a rule whose key
    is an array index and matches a point is served by an array-index rule
    whenever it was added: before the rules added earlier and before
    [Default]. Class version 2.0 scans its [Map] in insertion order. *)
Theorem index_keys_come_first
  (colors : BioActivityGraphV1.Obj) (p : Point.t) (k : string)
  (Hkey : In k (JS.Map_keys colors))
  (Hindex : BioActivityGraphV1.array_index k <> None)
  (Hmatch : JS.includes
              (Point.Object_values
                 (Point.set_color (BioActivityGraphV1.Obj_get colors "Default") p)) k
            = true) :
  exists k',
    In k' (JS.Map_keys colors)
    /\ BioActivityGraphV1.array_index k' <> None
    /\ BioActivityGraphV1.pointColor colors p
       = Point.set_color (BioActivityGraphV1.Obj_get colors k') p.
Proof.
  unfold BioActivityGraphV1.pointColor. rewrite some_color_v1_find.
  unfold BioActivityGraphV1.Object_keys.
  destruct (find_app_first
              (JS.includes
                 (Point.Object_values
                    (Point.set_color (BioActivityGraphV1.Obj_get colors "Default") p)))
              (map snd (BioActivityGraphV1.index_keys colors))
              (BioActivityGraphV1.name_keys colors) k)
    as (k' & Hfind & Hin).
  - apply index_keys_In. auto.
  - exact Hmatch.
  - rewrite Hfind. apply index_keys_In in Hin. destruct Hin as [H1 H2].
    exists k'. repeat split; assumption.
Qed.

Lemma index_keys_come_first_witness :
  Point.color (BioActivityGraphV1.pointColor Samples.colors_type_then_numeral
                 Samples.numeral_ic50)
  = Some (JS.Str "#00ff00")
  /\ Point.color (BioActivityGraph.pointColor Samples.colors_type_then_numeral
                    Samples.numeral_ic50)
     = Some (JS.Str "#ff0000").
Proof.
  destruct (index_keys_come_first Samples.colors_type_then_numeral
              Samples.numeral_ic50 "7") as (k' & _ & _ & E).
  - right. right. left. reflexivity.
  - discriminate.
  - reflexivity.
  - split; reflexivity.
Defined.

(** ** The symbol of a point *)

Section SymbolFacts.
Import JS D3 BioActivityGraph.

Lemma Map_get_In {V} (m : Map V) k v : Map_get m k = Some v -> In (k, v) m.
Proof.
  induction m as [|[k' v'] m IH]; cbn [Map_get]; [discriminate|].
  destruct (String.eqb k' k) eqn:E.
  - apply String.eqb_eq in E. intros H. inversion H. subst. now left.
  - intros H. right. now apply IH.
Qed.

Lemma Map_set_Forall {V} (P : string * V -> Prop) (m : Map V) k v :
  (forall k', P (k', v)) -> Forall P m -> Forall P (Map_set m k v).
Proof.
  intros Hv H. induction H as [|[k' v'] m Hx Hm IH]; cbn [Map_set].
  - constructor; [apply Hv|constructor].
  - destruct (String.eqb k' k); constructor; auto.
Qed.

Lemma Map_delete_Forall {V} (P : string * V -> Prop) (m : Map V) k :
  Forall P m -> Forall P (Map_delete m k).
Proof.
  intros H. induction H as [|[k' v'] m Hx Hm IH]; cbn [Map_delete]; [constructor|].
  destruct (String.eqb k' k); [assumption|]. now constructor.
Qed.

Lemma get_value_known (shapes : Map string) k :
  Forall (fun kv => In (snd kv) Plot.s) shapes ->
  Map_has shapes k = true ->
  exists v, get_value shapes k = Str v /\ In v Plot.s.
Proof.
  intros Hall Hk. unfold Map_has, get_value in *.
  destruct (Map_get shapes k) as [v|] eqn:E; [|discriminate].
  exists v. split; [reflexivity|].
  apply Map_get_In in E. rewrite Forall_forall in Hall. exact (Hall _ E).
Qed.

Lemma pointShape_known shapes p :
  Forall (fun kv => In (snd kv) Plot.s) shapes ->
  Map_has shapes "Default" = true ->
  exists v, Point.shape (pointShape shapes p) = Some (Str v) /\ In v Plot.s.
Proof.
  intros Hall Hd. unfold pointShape. rewrite some_shape_find.
  destruct (find _ _) as [c|] eqn:Hf.
  - apply find_some in Hf. destruct Hf as [Hin _].
    destruct (Map_get_key shapes c Hin) as (v & Hv).
    destruct (get_value_known shapes c Hall) as (w & Hw & Hn).
    + unfold Map_has. now rewrite Hv.
    + exists w. cbn. now rewrite Hw.
  - destruct (get_value_known shapes "Default" Hall Hd) as (w & Hw & Hn).
    exists w. cbn. now rewrite Hw.
Qed.

Lemma known_shapes st shapes :
  Forall (fun kv => In (snd kv) Plot.s) shapes ->
  Map_has shapes "Default" = true ->
  Plot.known (updatePointShapes (set_shapes shapes st)).
Proof.
  intros Hall Hd. split; [exact Hall|]. split; [exact Hd|].
  intros p Hp. cbn in Hp. apply in_map_iff in Hp. destruct Hp as (q & <- & _).
  now apply pointShape_known.
Qed.

Lemma known_colors st colors :
  Plot.known st -> Plot.known (updatePointColors (set_colors colors st)).
Proof.
  intros (Hall & Hd & Hp). split; [exact Hall|]. split; [exact Hd|].
  intros p Hin. cbn in Hin. apply in_map_iff in Hin. destruct Hin as (q & <- & Hq).
  rewrite shape_pointColor. now apply Hp.
Qed.

Lemma known_dispatch st e : Plot.offered e -> Plot.known st -> Plot.known (dispatch st e).
Proof.
  intros He Hk. pose proof Hk as (Hall & Hd & Hp). unfold dispatch.
  destruct e as [type val upd|key|key]; cbn [handler].
  - unfold modalOK. destruct val as [val|]; [|exact Hk].
    destruct upd as [upd|]; [|exact Hk].
    destruct (String.eqb type "Color") eqn:E.
    + now apply known_colors.
    + apply String.eqb_neq in E. cbn [Plot.offered] in He.
      destruct He as [He|He]; [contradiction|].
      apply known_shapes.
      * apply Map_set_Forall; [intros k'; exact He|exact Hall].
      * now apply Map_has_set.
  - unfold colorRowClose. destruct (String.eqb key "Default"); [exact Hk|].
    now apply known_colors.
  - unfold shapeRowClose. destruct (String.eqb key "Default") eqn:E; [exact Hk|].
    apply String.eqb_neq in E. apply known_shapes.
    + now apply Map_delete_Forall.
    + apply Map_has_delete; congruence.
Qed.

Lemma known_run events : forall st,
  Forall Plot.offered events -> Plot.known st -> Plot.known (run events st).
Proof.
  induction events as [|e events IH]; intros st He Hk; [exact Hk|].
  inversion He; subst. cbn. apply IH; [assumption|]. now apply known_dispatch.
Qed.

Lemma known_constructor Math_log10 scaleLog_apply scaleLog_ticks random chemblObj c i st j :
  constructor Math_log10 scaleLog_apply scaleLog_ticks random chemblObj c i = (Normal (Some st), j) ->
  Plot.known st.
Proof.
  intros Hnew.
  destruct (constructor_tables _ _ _ _ _ _ _ _ _ Hnew) as [_ Hs].
  revert Hnew. unfold constructor. destruct chemblObj as [obj|]; [|discriminate].
  destruct (Input.targetProteins obj) as [|p proteins]; [discriminate|].
  destruct (loadData (p :: proteins)) as [data|e]; [|discriminate].
  unfold rbind, ret.
  destruct (updatePointPositions _ _ _ _ i) as [s1 j1] eqn:E1.
  intros Hnew.
  destruct (initHistogramBins scaleLog_ticks 10 _) as [s2|e] eqn:E2; [|discriminate].
  cbn [bind] in Hnew. inversion Hnew. subst s2 j1.
  destruct (initHistogramBins_fields _ _ _ _ E2) as (b & Hst).
  assert (S1 : _shapes s1 = [("Default", "Circle")]).
  { rewrite Hst in Hs. exact Hs. }
  split; [|split].
  - rewrite Hs. constructor; [left; reflexivity|constructor].
  - rewrite Hs. reflexivity.
  - intros q Hq. rewrite Hst in Hq. cbn in Hq.
    apply in_map_iff in Hq. destruct Hq as (q0 & <- & _). rewrite S1.
    rewrite pointShape_first. exists "Circle". split; [reflexivity|left; reflexivity].
Qed.

Lemma symbolIndex_known p v :
  Point.shape p = Some (Str v) -> In v Plot.s ->
  exists n, Plot.symbolIndex p = Z.of_nat n /\ nth_error Plot.s n = Some v.
Proof.
  intros Hs Hin. unfold Plot.symbolIndex, Plot.indexOf. rewrite Hs.
  cbn in Hin.
  destruct Hin as [<-|[<-|[<-|[<-|[<-|[<-|[<-|[]]]]]]]].
  - exists 0%nat. split; reflexivity.
  - exists 1%nat. split; reflexivity.
  - exists 2%nat. split; reflexivity.
  - exists 3%nat. split; reflexivity.
  - exists 4%nat. split; reflexivity.
  - exists 5%nat. split; reflexivity.
  - exists 6%nat. split; reflexivity.
Qed.

End SymbolFacts.

(** X14. [plotData] looks the shape of a point up in its array of seven
    names and reads [d3.symbols] at the index found. From the constructor
    on, and under dialog events that give a shape one of the seven options
    [modalDisplay] offers, every point has a shape the array holds: the
    index is never [-1] and names the shape of the point. *)
Theorem symbols_are_known
  Math_log10 scaleLog_apply scaleLog_ticks random chemblObj c i st j
  (events : list BioActivityGraph.event)
  (Hnew : BioActivityGraph.constructor Math_log10 scaleLog_apply scaleLog_ticks random chemblObj c i
          = (JS.Normal (Some st), j))
  (Hevents : Forall Plot.offered events) :
  Forall (fun p =>
            exists n v,
              Point.shape p = Some (JS.Str v)
              /\ Plot.symbolIndex p = Z.of_nat n
              /\ (n < 7)%nat
              /\ nth_error Plot.s n = Some v)
         (BioActivityGraph._data (BioActivityGraph.run events st)).
Proof.
  pose proof (known_run events st Hevents (known_constructor _ _ _ _ _ _ _ _ _ Hnew))
    as (_ & _ & Hp).
  apply Forall_forall. intros p Hin.
  destruct (Hp p Hin) as (v & Hv & Hs).
  destruct (symbolIndex_known p v Hv Hs) as (n & Hn & Hnth).
  exists n, v. repeat split; try assumption.
  change 7%nat with (List.length Plot.s). apply nth_error_Some. congruence.
Qed.

Lemma symbols_are_known_witness :
  Forall (fun p =>
            exists n v,
              Point.shape p = Some (JS.Str v)
              /\ Plot.symbolIndex p = Z.of_nat n
              /\ (n < 7)%nat
              /\ nth_error Plot.s n = Some v)
         (BioActivityGraph._data
            (BioActivityGraph.run
               [BioActivityGraph.ModalOK "Shape" (Some "IC50") (Some "Star");
                BioActivityGraph.ModalOK "Color" (Some "Ki") (Some "#ff0000");
                BioActivityGraph.ShapeRowClose "IC50"]
               Samples.chart)).
Proof.
  apply (symbols_are_known Decimal.log10 Examples.flat_scale Examples.decade_ticks Examples.halves
           (Some Samples.compound) (BioActivityGraph.mkControls false false) 0%nat
           Samples.chart 0%nat).
  - vm_compute. reflexivity.
  - constructor; [right; cbn; tauto|].
    constructor; [left; reflexivity|].
    constructor; [exact I|constructor].
Defined.

(** ** The violins *)

Section ViolinFacts.
Import JS D3.

Lemma fold_max_ge (l : list nat) : forall x,
  (x <= fold_left Nat.max l x)%nat
  /\ (forall y, In y l -> (y <= fold_left Nat.max l x)%nat)
  /\ (fold_left Nat.max l x = x \/ In (fold_left Nat.max l x) l).
Proof.
  induction l as [|a l IH]; intros x; cbn [fold_left In].
  - repeat split; [lia|intros y []|now left].
  - destruct (IH (Nat.max x a)) as (H1 & H2 & H3). repeat split.
    + lia.
    + intros y [<-|Hy]; [lia|now apply H2].
    + destruct H3 as [H3|H3]; [|right; now right].
      rewrite H3. destruct (Nat.max_spec x a) as [[_ ->]|[_ ->]]; [right; now left|now left].
Qed.

Lemma d3_max_spec (l : list nat) m :
  Violin.d3_max l = Some m -> (forall y, In y l -> (y <= m)%nat) /\ In m l.
Proof.
  destruct l as [|x l]; [discriminate|]. cbn [Violin.d3_max]. intros H.
  injection H as <-.
  destruct (fold_max_ge l x) as (G1 & G2 & G3). split.
  - intros y [<-|Hy]; [exact G1|now apply G2].
  - destruct G3 as [->|G3]; [now left|now right].
Qed.

(** The loop of [plotViolins] from a running maximum [m0]. *)
Lemma maxNum_fold (bins : Map (list Bin)) : forall m0,
  let m := fold_left (fun maxNum d =>
               match Violin.d3_max (map Violin.length (snd d)) with
               | Some longest => if (maxNum <? longest)%nat then longest else maxNum
               | None => maxNum
               end) bins m0 in
  (m0 <= m)%nat
  /\ (forall d g, In d bins -> In g (snd d) -> (Violin.length g <= m)%nat)
  /\ (m = m0 \/ exists d g, In d bins /\ In g (snd d) /\ Violin.length g = m).
Proof.
  induction bins as [|d bins IH]; intros m0; cbn [fold_left].
  - repeat split; [lia|intros d g []|now left].
  - destruct (Violin.d3_max (map Violin.length (snd d))) as [longest|] eqn:E.
    + destruct (d3_max_spec _ _ E) as [Hle Hin].
      apply in_map_iff in Hin. destruct Hin as (g0 & Hg0 & Hin0).
      destruct (Nat.ltb_spec m0 longest) as [Hlt|Hge].
      * destruct (IH longest) as (H1 & H2 & H3). cbv zeta in *. repeat split.
        -- lia.
        -- intros d' g [<-|Hd] Hg; [|now apply (H2 d' g)].
           specialize (Hle (Violin.length g) (in_map _ _ _ Hg)). lia.
        -- right. destruct H3 as [H3|(d' & g & Hd & Hg & Hl)].
           ++ exists d, g0. rewrite H3. repeat split; [now left|assumption|assumption].
           ++ exists d', g. repeat split; [now right|assumption|assumption].
      * destruct (IH m0) as (H1 & H2 & H3). cbv zeta in *. repeat split.
        -- lia.
        -- intros d' g [<-|Hd] Hg; [|now apply (H2 d' g)].
           specialize (Hle (Violin.length g) (in_map _ _ _ Hg)). lia.
        -- destruct H3 as [H3|(d' & g & Hd & Hg & Hl)]; [now left|].
           right. exists d', g. repeat split; [now right|assumption|assumption].
    + assert (Hnil : snd d = []).
      { destruct (snd d); [reflexivity|discriminate]. }
      destruct (IH m0) as (H1 & H2 & H3). cbv zeta in *. repeat split.
      * lia.
      * intros d' g [<-|Hd] Hg; [rewrite Hnil in Hg; destruct Hg|now apply (H2 d' g)].
      * destruct H3 as [H3|(d' & g & Hd & Hg & Hl)]; [now left|].
        right. exists d', g. repeat split; [now right|assumption|assumption].
Qed.

Lemma maxNum_spec (bins : Map (list Bin)) :
  (forall d g, In d bins -> In g (snd d) -> (Violin.length g <= Violin.maxNum bins)%nat)
  /\ (Violin.maxNum bins = 0%nat
      \/ exists d g, In d bins /\ In g (snd d) /\ Violin.length g = Violin.maxNum bins).
Proof.
  destruct (maxNum_fold bins 0%nat) as (_ & H2 & H3). split; assumption.
Qed.

(** [xNum] between the middle and the end of the band. *)
Lemma xNum_range (X : scaleBand) (bins : Map (list Bin)) (n : nat) :
  (0 < Layout.width X)%Q ->
  (n <= Violin.maxNum bins)%nat ->
  (Violin.xNum X bins 0 == Layout.width X / 2)%Q
  /\ (Layout.width X / 2 <= Violin.xNum X bins (inject_Z (Z.of_nat n)))%Q
  /\ (Violin.xNum X bins (inject_Z (Z.of_nat n)) <= Layout.width X)%Q
  /\ (n = Violin.maxNum bins -> (0 < n)%nat ->
      (Violin.xNum X bins (inject_Z (Z.of_nat n)) == Layout.width X)%Q)
  /\ (n = 0%nat ->
      (Violin.xNum X bins (inject_Z (Z.of_nat n)) == Layout.width X / 2)%Q).
Proof.
  intros Hw Hn. unfold Violin.xNum, Violin.scaleLinear.
  set (w := Layout.width X) in *.
  set (m := inject_Z (Z.of_nat (Violin.maxNum bins))).
  set (x := inject_Z (Z.of_nat n)).
  assert (Hx0 : (0 <= x)%Q).
  { unfold x. change 0%Q with (inject_Z 0). rewrite <- Zle_Qle. lia. }
  assert (Hxm : (x <= m)%Q).
  { unfold x, m. rewrite <- Zle_Qle. lia. }
  assert (Hle : Qle_bool (- m) m = true) by (apply Qle_bool_iff; lra).
  rewrite Hle. cbn [negb]. unfold Violin.interpolateNumber, Violin.normalize.
  destruct (Qeq_bool (m - - m) 0) eqn:E.
  - apply Qeq_bool_iff in E.
    assert (Hm0 : (m == 0)%Q) by lra.
    assert (Hxq : (x == 0)%Q) by lra.
    qdiv. repeat split; try lra.
    intros Hmax Hpos. exfalso.
    assert (H0 : (0 < x)%Q).
    { unfold x. change 0%Q with (inject_Z 0). rewrite <- Zlt_Qlt. lia. }
    lra.
  - apply Qeq_bool_neq in E.
    assert (Hm : (0 < m)%Q).
    { destruct (Qlt_le_dec 0 m) as [H|H]; [exact H|]. exfalso. apply E. lra. }
    assert (T0 : ((0 - - m) / (m - - m) == 1 # 2)%Q) by (field; lra).
    assert (Tx : ((x - - m) / (m - - m) * (2 * m) == x + m)%Q) by (field; lra).
    set (t := ((x - - m) / (m - - m))%Q) in *.
    rewrite T0. qdiv. repeat split; try nra.
    + intros Hmax _. assert (Hxm' : (x == m)%Q) by (unfold x, m; now rewrite Hmax).
      nra.
    + intros H0. assert (Hxq : (x == 0)%Q) by (unfold x; now rewrite H0). nra.
Qed.

End ViolinFacts.

Section ViolinPathFacts.

Lemma Forall2_map_self {A B} (R : A -> B -> Prop) (f : A -> B) (l : list A) :
  (forall a, In a l -> R a (f a)) -> Forall2 R l (map f l).
Proof.
  induction l as [|a l IH]; intros H; cbn [map]; constructor.
  - apply H. now left.
  - apply IH. intros b Hb. apply H. now right.
Qed.

End ViolinPathFacts.

(** X15. [plotViolins] draws nothing when the violin box is not checked.
    When it is, it draws one group per type of the bin table, moved to a
    tenth of a band after the start of the band of the type, with one
    vertex per bin; every vertex starts at the middle of the band width and
    ends between the middle and the full width: at the middle for an empty
    bin, at the full width for a bin as long as the longest of all types.
    So the violins lie to the right of the band centre plus a tenth of a
    band, where no point is placed while the box is checked. *)
Theorem violins_fill_the_right_half
  (scaleLog_apply : D3.scaleLog -> JS.number -> JS.number)
  (c : BioActivityGraph.controls) (s : BioActivityGraph.state)
  (bins : JS.Map (list D3.Bin))
  (Hbins : BioActivityGraph._bins s = Some bins)
  (Hwidth : (0 < Layout.width (BioActivityGraph._xAxis s))%Q) :
  let X := BioActivityGraph._xAxis s in
  let w := Layout.width X in
  (BioActivityGraph.cb_violin c = false ->
   Violin.plotViolins scaleLog_apply c s = JS.Normal None)
  /\ (BioActivityGraph.cb_violin c = true ->
      exists violins,
        Violin.plotViolins scaleLog_apply c s = JS.Normal (Some violins)
        /\ Forall2 (fun d v =>
             (forall b, D3.band_apply X (fst d) = Some (JS.Fin b) ->
                        Violin.translate v = JS.Fin (b + w / 10))
             /\ Forall2 (fun g vt =>
                  (Violin.area_x0 vt == w / 2)%Q
                  /\ (w / 2 <= Violin.area_x1 vt)%Q
                  /\ (Violin.area_x1 vt <= w)%Q
                  /\ (Violin.length g = 0%nat -> (Violin.area_x1 vt == w / 2)%Q)
                  /\ (Violin.length g = Violin.maxNum bins -> (0 < Violin.length g)%nat ->
                      (Violin.area_x1 vt == w)%Q)
                  /\ Violin.area_y vt
                     = scaleLog_apply (BioActivityGraph._yAxis s) (D3.x0 g))
                  (snd d) (Violin.path v))
             bins violins).
Proof.
  intros X w. unfold Violin.plotViolins. split; intros Hc; rewrite Hc; cbn [negb].
  - reflexivity.
  - rewrite Hbins. eexists. split; [reflexivity|].
    apply Forall2_map_self. intros d Hd. cbn [Violin.translate Violin.path]. split.
    + intros b Hb. fold X. rewrite Hb. reflexivity.
    + apply Forall2_map_self. intros g Hg.
      cbn [Violin.area_x0 Violin.area_x1 Violin.area_y].
      destruct (maxNum_spec bins) as [Hle _].
      destruct (xNum_range X bins (Violin.length g) Hwidth (Hle d g Hd Hg))
        as (R0 & R1 & R2 & R3 & R4).
      repeat split; assumption.
Qed.

Lemma violins_fill_the_right_half_witness :
  exists violins,
    Violin.plotViolins Examples.flat_scale (BioActivityGraph.mkControls false true)
      Samples.chart = JS.Normal (Some violins)
    /\ List.length violins = 2%nat.
Proof.
  destruct (violins_fill_the_right_half Examples.flat_scale
              (BioActivityGraph.mkControls false true) Samples.chart
              (match BioActivityGraph._bins Samples.chart with
               | Some b => b
               | None => []
               end)) as [_ H].
  - vm_compute. reflexivity.
  - vm_compute. reflexivity.
  - destruct (H eq_refl) as (violins & Hv & Hall).
    exists violins. split; [exact Hv|].
    apply Forall2_length in Hall. rewrite <- Hall. vm_compute. reflexivity.
Defined.

(** ** The values offered by the dialog *)

Section OptionFacts.
Import JS.








End OptionFacts.


(** Another key of the table can take the point first: on a chart whose
    colour table has a rule under [EGFR], the gene of both points, a rule
    under the offered type [IC50] changes the colour of no point. *)
Example offered_rule_behind_another :
  In (JS.Str "IC50")
     (Options.updateModalOptions (Options.get Options.type) Samples.chart_with_shape_rule)
  /\ map (Resolve.resolveColor
            (JS.Map_set (BioActivityGraph._colors Samples.chart_with_shape_rule)
                        "IC50" "#00ff00"))
         (BioActivityGraph._data Samples.chart_with_shape_rule)
     = map (Resolve.resolveColor (BioActivityGraph._colors Samples.chart_with_shape_rule))
           (BioActivityGraph._data Samples.chart_with_shape_rule).
Proof. split; [left; reflexivity | reflexivity]. Qed.

(** ** A concentration that is not a number *)

Section NaNFacts.
Import JS D3.

Lemma min_max_NaN_stays (data : list Point.t) :
  fold_left (fun p c => (Math_min (Point.value c) (fst p),
                         Math_max (Point.value c) (snd p)))
            data (NaN, NaN) = (NaN, NaN).
Proof.
  induction data as [|c data IH]; [reflexivity|].
  cbn [fold_left fst snd].
  replace (Math_min (Point.value c) NaN) with NaN by (now destruct (Point.value c)).
  replace (Math_max (Point.value c) NaN) with NaN by (now destruct (Point.value c)).
  exact IH.
Qed.

Lemma min_max_NaN (data : list Point.t) : forall acc,
  (exists p, In p data /\ Point.value p = NaN) ->
  fold_left (fun p c => (Math_min (Point.value c) (fst p),
                         Math_max (Point.value c) (snd p)))
            data acc = (NaN, NaN).
Proof.
  induction data as [|c data IH]; intros acc (p & Hin & Hp); [destruct Hin|].
  cbn [fold_left]. destruct Hin as [->|Hin].
  - rewrite Hp. cbn [Math_min Math_max]. apply min_max_NaN_stays.
  - apply IH. eauto.
Qed.

Lemma leading_NaN tz : leading NaN tz = 0%nat.
Proof. destruct tz as [|t tz]; [reflexivity|]. cbn. now destruct t. Qed.

Lemma trailing_NaN tz : trailing NaN tz = 0%nat.
Proof. unfold trailing. now destruct (rev tz). Qed.

Lemma forEach_skip {A S} (f : S -> A -> completion S) (l : list A) (s : S) :
  (forall s x, f s x = Normal s) -> forEach f l s = Normal s.
Proof.
  intros H. induction l as [|a l IH]; [reflexivity|].
  cbn [forEach]. rewrite H. exact IH.
Qed.

(** Over the domain [[NaN, NaN]] nothing is inside the domain: the bins
    are made and stay empty. *)
Lemma histogram_NaN tz data :
  exists bins,
    histogram (NaN, NaN) tz data = Normal bins
    /\ Binning.count bins = 0%nat
    /\ List.length bins = S (List.length tz).
Proof.
  unfold histogram. rewrite leading_NaN, trailing_NaN, Nat.sub_0_r.
  cbn [Nat.eqb andb]. rewrite Nat.ltb_irrefl. cbn [negb].
  assert (Hm : (Z.of_nat (List.length tz) + 1 <? 0)%Z = false) by (apply Z.ltb_ge; lia).
  rewrite Hm. eexists. split.
  - apply forEach_skip. intros bins x. reflexivity.
  - split; [apply init_bins_count|].
    rewrite length_map, length_seq. lia.
Qed.

End NaNFacts.

(** X17. One concentration that is not a number takes the vertical scale
    and the violins with it: the reduction of [initYAxis] gives [NaN] for
    both ends, the niced domain is [[NaN, NaN]], and [initHistogramBins]
    still returns, with bins for every type of the chart, all of them
    empty, whatever the ticks and the other values. *)
Theorem nan_empties_the_bins
  (scaleLog_ticks : D3.scaleLog -> nat -> list JS.number) (nBins : nat)
  (s : BioActivityGraph.state)
  (Math_log10 : Q -> Q)
  (Haxis : BioActivityGraph._yAxis s
           = BioActivityGraph.initYAxis Math_log10 (BioActivityGraph._data s))
  (Hnan : exists p, In p (BioActivityGraph._data s) /\ Point.value p = JS.NaN) :
  BioActivityGraph.min_max (BioActivityGraph._data s) = (JS.NaN, JS.NaN)
  /\ D3.log_domain (BioActivityGraph._yAxis s) = (JS.NaN, JS.NaN)
  /\ exists s' table,
      BioActivityGraph.initHistogramBins scaleLog_ticks nBins s = JS.Normal s'
      /\ BioActivityGraph._bins s' = Some table
      /\ (forall t, In t (map Point.type (BioActivityGraph._data s)) ->
            exists bins, JS.Map_get table t = Some bins
                         /\ Binning.count bins = 0%nat
                         /\ bins <> []).
Proof.
  assert (Hmm : BioActivityGraph.min_max (BioActivityGraph._data s) = (JS.NaN, JS.NaN)).
  { unfold BioActivityGraph.min_max. now apply min_max_NaN. }
  assert (Hdom : D3.log_domain (BioActivityGraph._yAxis s) = (JS.NaN, JS.NaN)).
  { rewrite Haxis. unfold BioActivityGraph.initYAxis. rewrite Hmm. reflexivity. }
  split; [exact Hmm|]. split; [exact Hdom|].
  unfold BioActivityGraph.initHistogramBins. rewrite Hdom.
  set (tz := scaleLog_ticks (BioActivityGraph._yAxis s) nBins).
  set (f := fun vs : list Point.t =>
              match D3.histogram (JS.NaN, JS.NaN) tz (map Point.value vs) with
              | JS.Normal bins => bins
              | JS.Throw _ => []
              end).
  assert (Hr : forall vs,
             D3.histogram (JS.NaN, JS.NaN) tz (map Point.value vs) = JS.Normal (f vs)).
  { intros vs. subst f. cbv beta.
    destruct (histogram_NaN tz (map Point.value vs)) as (bins & -> & _). reflexivity. }
  unfold D3.rollup.
  destruct (rollup_groups_get
              (fun vs => D3.histogram (JS.NaN, JS.NaN) tz (map Point.value vs)) f
              (D3.group (BioActivityGraph._data s) Point.type) Hr) as (res & Hres & Hget).
  rewrite Hres. cbn [JS.bind].
  exists (BioActivityGraph.set_bins res s), res.
  split; [reflexivity|]. split; [reflexivity|].
  intros t Ht. rewrite Hget, group_get.
  destruct (filter (fun v => String.eqb (Point.type v) t) (BioActivityGraph._data s))
    as [|v vs] eqn:Evs.
  - apply (points_of_type_nil t) in Evs. contradiction.
  - cbn [D3.nonempty option_map]. eexists. split; [reflexivity|].
    destruct (histogram_NaN tz (map Point.value (v :: vs))) as (bins & Hb & Hc & Hl).
    subst f. cbv beta. rewrite Hb. split; [exact Hc|].
    intros ->. discriminate.
Qed.

Lemma nan_empties_the_bins_witness :
  exists s' table bins,
    BioActivityGraph.initHistogramBins Examples.decade_ticks 10 Samples.chart_with_NaN
    = JS.Normal s'
    /\ BioActivityGraph._bins s' = Some table
    /\ JS.Map_get table "IC50" = Some bins
    /\ Binning.count bins = 0%nat.
Proof.
  destruct (nan_empties_the_bins Examples.decade_ticks 10 Samples.chart_with_NaN
              Decimal.log10)
    as (_ & _ & s' & table & Hs & Hb & Hall).
  - reflexivity.
  - exists Samples.unmeasured_ki. split; [right; left|]; reflexivity.
  - destruct (Hall "IC50") as (bins & Hg & Hc & _); [left; reflexivity|].
    exists s', table, bins. auto.
Defined.

(** ** The chart class version 1.1 builds *)

Section BuildV1Facts.
Import JS D3.

Variable Math_log10 : Q -> Q.
Variable scaleLog_apply : scaleLog -> number -> number.
Variable scaleLog_ticks : scaleLog -> nat -> list number.
Variable random : nat -> Q.

Lemma loadData_v1_flatten proteins :
  BioActivityGraphV1.loadData proteins = Pairs.flatten (fun _ => None) proteins.
Proof. unfold BioActivityGraphV1.loadData. now rewrite loadData_v1_from. Qed.

Lemma initXAxis_v1_points proteins org :
  BioActivityGraphV1.initXAxis (BioActivityGraphV1.extractXLabels proteins)
  = BioActivityGraph.initXAxis (Pairs.flatten org proteins).
Proof.
  unfold BioActivityGraphV1.initXAxis, BioActivityGraph.initXAxis, scaleBand_make.
  rewrite extractXLabels_uniq, <- (flatten_types org). now rewrite uniq_again.
Qed.

Lemma initYAxis_v1_points proteins org :
  BioActivityGraphV1.initYAxis Math_log10 proteins
  = BioActivityGraph.initYAxis Math_log10 (Pairs.flatten org proteins).
Proof.
  unfold BioActivityGraphV1.initYAxis, BioActivityGraph.initYAxis.
  unfold BioActivityGraph.min_max, BioActivityGraphV1.min_max.
  now rewrite (min_max_agree org).
Qed.

Lemma measured_positive proteins org :
  Frame.measured proteins -> Binning.positive (Pairs.flatten org proteins).
Proof.
  intros H pt Hin. unfold Pairs.flatten in Hin.
  apply in_flat_map in Hin. destruct Hin as (p & Hp & Hin).
  apply in_map_iff in Hin. destruct Hin as (a & <- & Ha).
  exact (H p a Hp Ha).
Qed.

(** The bins of class version 1.1 are those class version 2.0 makes of
    the same points and scale. *)
Lemma initHistogramBins_v1 nBins (s : BioActivityGraphV1.state) s' :
  BioActivityGraph.initHistogramBins scaleLog_ticks nBins (Tables.as_v2 s) = Normal s' ->
  exists table,
    BioActivityGraph._bins s' = Some table
    /\ BioActivityGraphV1.initHistogramBins scaleLog_ticks nBins s
       = Normal (BioActivityGraphV1.set_bins table s).
Proof.
  unfold BioActivityGraph.initHistogramBins, BioActivityGraphV1.initHistogramBins.
  cbn [Tables.as_v2 BioActivityGraph._data BioActivityGraph._yAxis].
  destruct (rollup _ _ _) as [table|e]; cbn [bind]; [|discriminate].
  intros H. inversion H. exists table. split; reflexivity.
Qed.

Lemma raw_pointColor_v1 colors p :
  Frame.raw (BioActivityGraphV1.pointColor colors p) = Frame.raw p.
Proof. destruct (pointColor_v1_writes colors p) as (v & ->). reflexivity. Qed.

Lemma raw_pointShape_v1 shapes p :
  Frame.raw (BioActivityGraphV1.pointShape shapes p) = Frame.raw p.
Proof. destruct (pointShape_v1_writes shapes p) as (v & ->). reflexivity. Qed.

Lemma pointColor_v1_first v p :
  Point.color (BioActivityGraphV1.pointColor [("Default", v)] p) = Some (Str v).
Proof.
  unfold BioActivityGraphV1.pointColor.
  change (BioActivityGraphV1.Object_keys [("Default", v)]) with ["Default"].
  cbn [BioActivityGraphV1.some_color].
  destruct (includes _ _); reflexivity.
Qed.

Lemma pointShape_v1_first v p :
  Point.shape (BioActivityGraphV1.pointShape [("Default", v)] p) = Some (Str v).
Proof.
  unfold BioActivityGraphV1.pointShape.
  change (BioActivityGraphV1.Object_keys [("Default", v)]) with ["Default"].
  cbn [BioActivityGraphV1.some_shape].
  destruct (includes _ _); reflexivity.
Qed.

End BuildV1Facts.

Section BuiltV1Facts.
Import JS D3.

Variable Math_log10 : Q -> Q.
Variable scaleLog_apply : scaleLog -> number -> number.
Variable scaleLog_ticks : scaleLog -> nat -> list number.
Variable random : nat -> Q.

(** The constructor of class version 1.1 past its guard. *)
Lemma constructor_v1_steps obj i proteins :
  Input.targetProteins obj = proteins ->
  proteins <> [] ->
  let labels := BioActivityGraphV1.extractXLabels proteins in
  let X := BioActivityGraphV1.initXAxis labels in
  let Y := BioActivityGraphV1.initYAxis Math_log10 proteins in
  BioActivityGraphV1.constructor Math_log10 scaleLog_apply scaleLog_ticks random (Some obj) i
  = (bind (BioActivityGraphV1.initHistogramBins scaleLog_ticks 10
             (BioActivityGraphV1.updatePointShapes
                (BioActivityGraphV1.updatePointColors
                   (BioActivityGraphV1.set_points
                      (map (fun d =>
                              Point.set_y (scaleLog_apply Y (Point.value d))
                                (Point.set_x (add (ToNumber (band_apply X (Point.type d)))
                                                  (div (bandwidth X) (Fin 2))) d))
                           (BioActivityGraphV1.loadData proteins))
                      (BioActivityGraphV1.mkState (BioActivityGraphV1.loadData proteins)
                         labels X Y None
                         [("Default", "#C0C0C0")] [("Default", "Circle")])))))
          (fun s => Normal (Some s)), i).
Proof.
  intros E Hne labels X Y. unfold BioActivityGraphV1.constructor. rewrite E.
  destruct proteins as [|p ps]; [congruence|].
  unfold rbind, ret.
  unfold BioActivityGraphV1.updatePointPositions, rbind, ret.
  rewrite positions_v1_no_jitter. reflexivity.
Qed.

End BuiltV1Facts.

(** X19. The constructor of class version 1.1. Without a compound it
    throws, where class version 2.0 returns: it reads the name of the
    compound before it tests anything. With an empty protein list it
    returns without points. Otherwise, when the concentrations are finite
    and positive and the logarithm of the engine puts each of them in its
    decade, it builds a chart whatever the organisms: one point per
    (protein, activity) pair in order, without an organism property, at the
    centre of the band of its type, with the default colour and shape, no
    draw made, and bins that hold for every type as many values as the
    chart has points of that type. *)
Theorem constructor_v1_builds :
  forall (Math_log10 : Q -> Q)
         (scaleLog_apply : D3.scaleLog -> JS.number -> JS.number)
         (scaleLog_ticks : D3.scaleLog -> nat -> list JS.number)
         (random : nat -> Q) (i : nat),
    BioActivityGraphV1.constructor Math_log10 scaleLog_apply scaleLog_ticks random None i
    = (JS.Throw (JS.TypeError "Cannot read properties of undefined (reading 'name')"), i)
    /\ (forall obj,
          Input.targetProteins obj = [] ->
          BioActivityGraphV1.constructor Math_log10 scaleLog_apply scaleLog_ticks random (Some obj) i
          = (JS.Normal None, i))
    /\ (forall obj,
          Input.targetProteins obj <> [] ->
          Frame.measured (Input.targetProteins obj) ->
          Binning.bracketed Math_log10
            (Pairs.flatten (fun _ => None) (Input.targetProteins obj)) ->
          exists s table,
            BioActivityGraphV1.constructor Math_log10 scaleLog_apply scaleLog_ticks random (Some obj) i
            = (JS.Normal (Some s), i)
            /\ map Frame.raw (BioActivityGraphV1._points s)
               = Pairs.flatten (fun _ => None) (Input.targetProteins obj)
            /\ Forall (fun p =>
                 Point.color p = Some (JS.Str "#C0C0C0")
                 /\ Point.shape p = Some (JS.Str "Circle")
                 /\ Point.y p
                    = Some (scaleLog_apply (BioActivityGraphV1._yAxis s) (Point.value p))
                 /\ exists b,
                      D3.band_apply (BioActivityGraphV1._xAxis s) (Point.type p)
                      = Some (JS.Fin b)
                      /\ Point.x p
                         = Some (JS.Fin (b + Layout.width (BioActivityGraphV1._xAxis s) / 2)))
                 (BioActivityGraphV1._points s)
            /\ BioActivityGraphV1._bins s = Some table
            /\ (forall t, In t (map Point.type (BioActivityGraphV1._points s)) ->
                  exists bins,
                    JS.Map_get table t = Some bins
                    /\ Binning.count bins
                       = List.length
                           (Binning.points_of_type t (BioActivityGraphV1._points s)))).
Proof.
  intros Math_log10 scaleLog_apply scaleLog_ticks random i.
  split; [reflexivity|]. split.
  { intros obj He. unfold BioActivityGraphV1.constructor. now rewrite He. }
  intros obj Hne Hpos Hlog.
  set (proteins := Input.targetProteins obj) in *.
  rewrite (constructor_v1_steps Math_log10 scaleLog_apply scaleLog_ticks random obj i proteins
             eq_refl Hne).
  cbv zeta.
  set (data := Pairs.flatten (fun _ => None) proteins).
  rewrite (loadData_v1_flatten proteins). fold data.
  rewrite (initXAxis_v1_points proteins (fun _ => None)). fold data.
  rewrite (initYAxis_v1_points Math_log10 proteins (fun _ => None)). fold data.
  set (X := BioActivityGraph.initXAxis data).
  set (Y := BioActivityGraph.initYAxis Math_log10 data).
  set (g := fun d => Point.set_y (scaleLog_apply Y (Point.value d))
                       (Point.set_x (JS.add (JS.ToNumber (D3.band_apply X (Point.type d)))
                                            (JS.div (D3.bandwidth X) (JS.Fin 2))) d)).
  set (s0 := BioActivityGraphV1.mkState data (BioActivityGraphV1.extractXLabels proteins)
               X Y None [("Default", "#C0C0C0")] [("Default", "Circle")]).
  set (s2 := BioActivityGraphV1.updatePointShapes
               (BioActivityGraphV1.updatePointColors
                  (BioActivityGraphV1.set_points (map g data) s0))).
  assert (D2 : BioActivityGraphV1._points s2
               = map (fun d => BioActivityGraphV1.pointShape [("Default", "Circle")]
                                 (BioActivityGraphV1.pointColor [("Default", "#C0C0C0")]
                                    (g d))) data).
  { unfold s2. cbn. now rewrite !map_map. }
  assert (R2 : map Frame.raw (BioActivityGraphV1._points s2) = data).
  { rewrite D2, map_map. transitivity (map Frame.raw data).
    - apply map_ext. intros d. now rewrite raw_pointShape_v1, raw_pointColor_v1.
    - exact (raw_flatten _ _). }
  assert (Hcover : forall p, In p (BioActivityGraph._data (Tables.as_v2 s2)) ->
             Binning.in_domain (D3.log_domain (BioActivityGraph._yAxis (Tables.as_v2 s2)))
                               (Point.value p) = true).
  { intros p Hp. change (BioActivityGraph._yAxis (Tables.as_v2 s2)) with Y.
    change (Point.value p) with (Point.value (Frame.raw p)).
    apply initYAxis_covers; [exact Hlog|].
    rewrite <- R2. now apply in_map. }
  destruct (bins_conserve scaleLog_ticks 10 (Tables.as_v2 s2) Hcover)
    as (s' & table & Hinit & Hbins & _ & Hcount & _).
  destruct (initHistogramBins_v1 scaleLog_ticks 10 s2 s' Hinit) as (table' & Hb' & Hv1).
  assert (table' = table) by congruence. subst table'.
  rewrite Hv1. cbn [JS.bind].
  exists (BioActivityGraphV1.set_bins table s2), table.
  split; [reflexivity|].
  change (BioActivityGraphV1._points (BioActivityGraphV1.set_bins table s2))
    with (BioActivityGraphV1._points s2).
  split; [exact R2|]. split.
  { apply Forall_forall. intros p Hp. rewrite D2 in Hp.
    apply in_map_iff in Hp. destruct Hp as (d & <- & Hd).
    destruct (pointShape_v1_writes [("Default", "Circle")]
                (BioActivityGraphV1.pointColor [("Default", "#C0C0C0")] (g d)))
      as (vs & Es).
    destruct (pointColor_v1_writes [("Default", "#C0C0C0")] (g d)) as (vc & Ec).
    rewrite color_pointShape_v1, pointColor_v1_first, pointShape_v1_first.
    split; [reflexivity|]. split; [reflexivity|].
    rewrite Es, Ec. cbn [Point.y Point.x Point.type Point.value Point.set_shape
                         Point.set_color].
    split; [reflexivity|].
    destruct (own_axis_band data (Point.type d)) as (b & Hb & _);
      [now apply in_map|].
    exists b. fold X in Hb. split.
    - exact Hb.
    - unfold g. cbn [Point.x Point.set_x Point.set_y Point.type]. rewrite Hb. reflexivity. }
  split; [reflexivity|]. exact Hcount.
Qed.

Lemma constructor_v1_builds_witness :
  exists s,
    BioActivityGraphV1.constructor Decimal.log10 Examples.flat_scale Examples.decade_ticks Examples.halves
      (Some (Input.mkChemblCompound (JS.Str "Gefitinib")
               [Examples.measured_without_organism; Examples.protein_at_10])) 0%nat
    = (JS.Normal (Some s), 0%nat)
    /\ List.length (BioActivityGraphV1._points s) = 3%nat.
Proof.
  assert (Hpos : Frame.measured [Examples.measured_without_organism; Examples.protein_at_10]).
  { intros p a [<-|[<-|[]]]; cbn.
    + intros [<-|[<-|[]]]; eexists; split; reflexivity.
    + intros [<-|[]]; eexists; split; reflexivity. }
  destruct (constructor_v1_builds Decimal.log10 Examples.flat_scale Examples.decade_ticks
              Examples.halves 0%nat) as (_ & _ & H).
  destruct (H (Input.mkChemblCompound (JS.Str "Gefitinib")
                 [Examples.measured_without_organism; Examples.protein_at_10]))
    as (s & table & Hnew & Hraw & _).
  - discriminate.
  - exact Hpos.
  - apply positive_bracketed. now apply measured_positive.
  - exists s. split; [exact Hnew|].
    apply (f_equal (@List.length _)) in Hraw. rewrite length_map in Hraw. exact Hraw.
Defined.
